(** * shadow-plugin-tor: the Tor preload library (src/tor/shadowtor-preload.c)

    A shallow embedding of the preload library that Shadow places in front of
    Tor and OpenSSL: the per-thread worker registry, the interposed Tor
    functions, the global crypto init/cleanup coordinator and the OpenSSL
    locking bridge.

    Modelling conventions.
    - Every C function that touches the thread-private worker or the global
      state is a computation in the monad [M]: it takes the machine state and
      either returns a value and a new state, aborts on a failed assertion
      ([Fatal]), or runs into behaviour that C leaves undefined ([Undef]).
    - A function that takes G_LOCK/G_UNLOCK runs as one atomic step; a
      concurrent execution is a sequence of such steps tagged with the
      calling thread.
    - Calls that leave the library (through the vtable, into glib's file and
      lock primitives) are recorded in the [trace] of the state, so that "is
      invoked", "exactly once" and "never" are statements about that trace.
    - [gint] and [int] are 32-bit: increments and decrements are wrapped with
      [wrap_gint]. Pointers to workers are positive addresses; NULL is the
      absence of an address. *)

From stdpp Require Import gmap strings list fin_maps.
From Stdlib Require Import ZArith Lia Ascii DecimalString DecimalN.

Open Scope Z_scope.

(** ** Machine integers *)

Definition G_MAXINT : Z := 2147483647.
Definition G_MININT : Z := -2147483648.

(** Two's-complement wrap-around of a 32-bit signed integer. *)
Definition wrap_gint (z : Z) : Z := (z + 2147483648) mod 4294967296 - 2147483648.

Definition gint_range (z : Z) : Prop := G_MININT <= z <= G_MAXINT.

(** ** Values crossing the library boundary *)

(** A [const char*]: NULL or a string. *)
Definition cstr := option string.

Inductive cval :=
| VInt (z : Z)
| VStr (s : cstr)
| VPtr (p : Z).

Definition thread := nat.
Definition addr := positive.

(** ** The environment: Tor, glib, the allocator

    [World] is everything outside the preload library (Tor's and OpenSSL's
    own state, the file system). A resolved symbol is a C function: it takes
    its arguments and the world, and returns an [int] and the new world (the
    [int] is ignored for a [void] function). *)
Class Externals := {
  World : Type;
  (** [g_file_set_contents(path, contents, -1, &error)]: TRUE on success. *)
  g_file_set_contents : string -> string -> World -> bool * World;
  (** The address [g_new0(PreloadWorker, 1)] returns, given the addresses of
      the workers that are live. *)
  g_new0_PreloadWorker : gset addr -> addr;
}.

(** What malloc guarantees: a new block does not overlap a live one. *)
Class ExternalsOk (E : Externals) := {
  g_new0_fresh : forall live : gset addr, g_new0_PreloadWorker live ∉ live;
}.

Section Preload.
Context {E : Externals}.

Definition cfun := list cval -> World -> Z * World.

(** A loaded module, seen through [g_module_symbol]: its symbol table. *)
Definition GModule := string -> option cfun.

(** struct _InterposeFuncs; NULL is [None]. *)
Record InterposeFuncs := {
  spawn_func_fp : option cfun;
  write_str_to_file_fp : option cfun;
  crypto_global_init_fp : option cfun;
  crypto_global_cleanup_fp : option cfun;
  crypto_early_init_fp : option cfun;
  crypto_seed_rng_fp : option cfun;
  crypto_init_siphash_key_fp : option cfun;
  tor_ssl_global_init_fp : option cfun;
}.

(** struct _PreloadWorker *)
Record PreloadWorker := {
  handle : option GModule;
  vtable : InterposeFuncs;
  consensusCounter : Z;
}.

(** A GRWLock of the lock array, as far as this file drives it: zero-filled
    by g_new0, then made usable by g_rw_lock_init. *)
Inductive GRWLock := LockZeroed | LockReady.

(** struct _PreloadGlobal *)
Record PreloadGlobal := {
  initialized : bool;
  sslInitializedEarly : bool;
  sslInitializedGlobal : bool;
  nTorCryptoNodes : Z;
  nThreads : Z;
  numCryptoThreadLocks : Z;
  cryptoThreadLocks : option (list GRWLock);
}.

(** The glib read/write lock operations the locking callback can issue. *)
Inductive rwop := ReaderLock | WriterLock | ReaderUnlock | WriterUnlock.

(** Calls that leave the preload library. *)
Inductive event :=
| EvDelegate (name : string) (args : list cval)   (* call through the vtable *)
| EvFileSetContents (path contents : string) (ok : bool)
| EvLogWarn (path : string)
| EvAllocLocks (n : Z)                            (* g_new0(GRWLock, n) *)
| EvRWInit (i : Z)                                (* g_rw_lock_init(&locks[i]) *)
| EvRWClear (i : Z)                               (* g_rw_lock_clear(&locks[i]) *)
| EvFreeLocks                                     (* g_free(locks) *)
| EvRW (op : rwop) (i : Z).                       (* g_rw_lock_*(&locks[i]) *)

Record state := {
  tls : gmap thread addr;            (* threadPreloadWorkerKey, per thread *)
  heap : gmap addr PreloadWorker;    (* the live PreloadWorker blocks *)
  shadowtorpreloadGlobalState : PreloadGlobal;
  world : World;
  trace : list event;
}.

(** ** Outcomes *)

(** The assertion that failed, as the abort message prints it. For a symbol
    lookup the printed expression contains the symbol's name. *)
Inductive diag :=
| AssertSymbol (name : string)   (* g_assert(g_module_symbol(handle, name, ..)) *)
| AssertInitialized              (* assert(shadowtorpreloadGlobalState.initialized) *)
| AssertLock                     (* assert(lock) *)
| AllocOverflow.                 (* g_new0: overflow allocating *)

(** Undefined behaviour the code can run into. *)
Inductive ub :=
| NullCall (name : string)       (* call through a NULL vtable entry *)
| OutOfBounds (i : Z)            (* locks[i] outside the array *)
| Dangling (a : addr).           (* worker pointer without a block *)

Inductive result (A : Type) :=
| Ok (a : A) (s : state)
| Fatal (d : diag)
| Undef (u : ub).
Arguments Ok {A} a s.
Arguments Fatal {A} d.
Arguments Undef {A} u.

Definition M (A : Type) : Type := state -> result A.

#[global] Instance M_ret : MRet M := fun A a s => Ok a s.
#[global] Instance M_bind : MBind M := fun A B k m s =>
  match m s with
  | Ok a s' => k a s'
  | Fatal d => Fatal d
  | Undef u => Undef u
  end.

(** State updates, one field at a time. *)
Definition with_global (g : PreloadGlobal) (s : state) : state :=
  {| tls := tls s; heap := heap s; shadowtorpreloadGlobalState := g;
     world := world s; trace := trace s |}.
Definition with_world (w : World) (s : state) : state :=
  {| tls := tls s; heap := heap s;
     shadowtorpreloadGlobalState := shadowtorpreloadGlobalState s;
     world := w; trace := trace s |}.
Definition with_trace (tr : list event) (s : state) : state :=
  {| tls := tls s; heap := heap s;
     shadowtorpreloadGlobalState := shadowtorpreloadGlobalState s;
     world := world s; trace := tr |}.
Definition with_heap (h : gmap addr PreloadWorker) (s : state) : state :=
  {| tls := tls s; heap := h;
     shadowtorpreloadGlobalState := shadowtorpreloadGlobalState s;
     world := world s; trace := trace s |}.

(** The empty statement. *)
Definition skip : M unit := mret tt.

Definition get_global : M PreloadGlobal := fun s => Ok (shadowtorpreloadGlobalState s) s.
Definition set_global (g : PreloadGlobal) : M unit := fun s =>
  Ok tt {| tls := tls s; heap := heap s; shadowtorpreloadGlobalState := g;
           world := world s; trace := trace s |}.
Definition emit (e : event) : M unit := fun s =>
  Ok tt {| tls := tls s; heap := heap s;
           shadowtorpreloadGlobalState := shadowtorpreloadGlobalState s;
           world := world s; trace := trace s ++ [e] |}.
Definition abort {A} (d : diag) : M A := fun _ => Fatal d.
Definition undefined {A} (u : ub) : M A := fun _ => Undef u.

(** Run an external function on the world. *)
Definition extern {A} (f : World -> A * World) : M A := fun s =>
  let '(a, w) := f (world s) in
  Ok a {| tls := tls s; heap := heap s;
          shadowtorpreloadGlobalState := shadowtorpreloadGlobalState s;
          world := w; trace := trace s |}.

(** Call through a vtable entry: a NULL entry is a call through a null
    function pointer. *)
Definition call (name : string) (f : option cfun) (args : list cval) : M Z :=
  match f with
  | None => undefined (NullCall name)
  | Some f => emit (EvDelegate name args);; extern (f args)
  end.

(** ** The per-thread worker *)

Definition null_vtable : InterposeFuncs :=
  {| spawn_func_fp := None; write_str_to_file_fp := None;
     crypto_global_init_fp := None; crypto_global_cleanup_fp := None;
     crypto_early_init_fp := None; crypto_seed_rng_fp := None;
     crypto_init_siphash_key_fp := None; tor_ssl_global_init_fp := None |}.

(** What g_new0 hands out: a zero-filled block. *)
Definition zero_worker : PreloadWorker :=
  {| handle := None; vtable := null_vtable; consensusCounter := 0 |}.

(** g_private_get / g_private_set on threadPreloadWorkerKey. *)
Definition g_private_get (t : thread) : M (option addr) := fun s => Ok (tls s !! t) s.
Definition g_private_set (t : thread) (a : addr) : M unit := fun s =>
  Ok tt {| tls := <[t := a]> (tls s); heap := heap s;
           shadowtorpreloadGlobalState := shadowtorpreloadGlobalState s;
           world := world s; trace := trace s |}.

Definition g_new0_worker : M addr := fun s =>
  let a := g_new0_PreloadWorker (dom (heap s)) in
  Ok a {| tls := tls s; heap := <[a := zero_worker]> (heap s);
          shadowtorpreloadGlobalState := shadowtorpreloadGlobalState s;
          world := world s; trace := trace s |}.

(** Read and write the block a worker pointer points to. *)
Definition load (a : addr) : M PreloadWorker := fun s =>
  match heap s !! a with
  | Some w => Ok w s
  | None => Undef (Dangling a)
  end.
Definition store (a : addr) (w : PreloadWorker) : M unit := fun s =>
  match heap s !! a with
  | Some _ => Ok tt {| tls := tls s; heap := <[a := w]> (heap s);
                       shadowtorpreloadGlobalState := shadowtorpreloadGlobalState s;
                       world := world s; trace := trace s |}
  | None => Undef (Dangling a)
  end.

(** static PreloadWorker* _shadowtorpreload_getWorker(): the calling thread's
    worker, created zero-filled on first use. [g_assert(worker)] cannot fail:
    an address is never NULL. *)
Definition _shadowtorpreload_getWorker (t : thread) : M addr :=
  worker ← g_private_get t;
  match worker with
  | Some a => mret a
  | None => a ← g_new0_worker; g_private_set t a;; mret a
  end.

(** The thread ends: glib runs the key's destructor, g_free, on its worker. *)
Definition thread_exit (t : thread) : M unit := fun s =>
  Ok tt {| tls := delete t (tls s);
           heap := match tls s !! t with
                   | Some a => delete a (heap s)
                   | None => heap s
                   end;
           shadowtorpreloadGlobalState := shadowtorpreloadGlobalState s;
           world := world s; trace := trace s |}.

(** [_shadowtorpreload_getWorker()->vtable.f], one read of one entry. *)
Definition vtable_entry (t : thread) (f : InterposeFuncs -> option cfun) : M (option cfun) :=
  a ← _shadowtorpreload_getWorker t;
  w ← load a;
  mret (f (vtable w)).

(** ** Field updates *)

Definition modify_global (f : PreloadGlobal -> PreloadGlobal) : M unit :=
  g ← get_global; set_global (f g).

Definition set_initialized (b : bool) (g : PreloadGlobal) : PreloadGlobal :=
  {| initialized := b; sslInitializedEarly := sslInitializedEarly g;
     sslInitializedGlobal := sslInitializedGlobal g;
     nTorCryptoNodes := nTorCryptoNodes g; nThreads := nThreads g;
     numCryptoThreadLocks := numCryptoThreadLocks g;
     cryptoThreadLocks := cryptoThreadLocks g |}.
Definition set_sslInitializedEarly (b : bool) (g : PreloadGlobal) : PreloadGlobal :=
  {| initialized := initialized g; sslInitializedEarly := b;
     sslInitializedGlobal := sslInitializedGlobal g;
     nTorCryptoNodes := nTorCryptoNodes g; nThreads := nThreads g;
     numCryptoThreadLocks := numCryptoThreadLocks g;
     cryptoThreadLocks := cryptoThreadLocks g |}.
Definition set_sslInitializedGlobal (b : bool) (g : PreloadGlobal) : PreloadGlobal :=
  {| initialized := initialized g; sslInitializedEarly := sslInitializedEarly g;
     sslInitializedGlobal := b;
     nTorCryptoNodes := nTorCryptoNodes g; nThreads := nThreads g;
     numCryptoThreadLocks := numCryptoThreadLocks g;
     cryptoThreadLocks := cryptoThreadLocks g |}.
Definition set_nTorCryptoNodes (n : Z) (g : PreloadGlobal) : PreloadGlobal :=
  {| initialized := initialized g; sslInitializedEarly := sslInitializedEarly g;
     sslInitializedGlobal := sslInitializedGlobal g;
     nTorCryptoNodes := n; nThreads := nThreads g;
     numCryptoThreadLocks := numCryptoThreadLocks g;
     cryptoThreadLocks := cryptoThreadLocks g |}.
Definition set_nThreads (n : Z) (g : PreloadGlobal) : PreloadGlobal :=
  {| initialized := initialized g; sslInitializedEarly := sslInitializedEarly g;
     sslInitializedGlobal := sslInitializedGlobal g;
     nTorCryptoNodes := nTorCryptoNodes g; nThreads := n;
     numCryptoThreadLocks := numCryptoThreadLocks g;
     cryptoThreadLocks := cryptoThreadLocks g |}.
Definition set_numCryptoThreadLocks (n : Z) (g : PreloadGlobal) : PreloadGlobal :=
  {| initialized := initialized g; sslInitializedEarly := sslInitializedEarly g;
     sslInitializedGlobal := sslInitializedGlobal g;
     nTorCryptoNodes := nTorCryptoNodes g; nThreads := nThreads g;
     numCryptoThreadLocks := n;
     cryptoThreadLocks := cryptoThreadLocks g |}.
Definition set_cryptoThreadLocks (l : option (list GRWLock)) (g : PreloadGlobal) : PreloadGlobal :=
  {| initialized := initialized g; sslInitializedEarly := sslInitializedEarly g;
     sslInitializedGlobal := sslInitializedGlobal g;
     nTorCryptoNodes := nTorCryptoNodes g; nThreads := nThreads g;
     numCryptoThreadLocks := numCryptoThreadLocks g;
     cryptoThreadLocks := l |}.

Definition set_handle (h : option GModule) (w : PreloadWorker) : PreloadWorker :=
  {| handle := h; vtable := vtable w; consensusCounter := consensusCounter w |}.
Definition set_vtable (v : InterposeFuncs) (w : PreloadWorker) : PreloadWorker :=
  {| handle := handle w; vtable := v; consensusCounter := consensusCounter w |}.
Definition set_consensusCounter (c : Z) (w : PreloadWorker) : PreloadWorker :=
  {| handle := handle w; vtable := vtable w; consensusCounter := c |}.

Definition set_spawn_func (f : option cfun) (v : InterposeFuncs) : InterposeFuncs :=
  {| spawn_func_fp := f; write_str_to_file_fp := write_str_to_file_fp v;
     crypto_global_init_fp := crypto_global_init_fp v;
     crypto_global_cleanup_fp := crypto_global_cleanup_fp v;
     crypto_early_init_fp := crypto_early_init_fp v;
     crypto_seed_rng_fp := crypto_seed_rng_fp v;
     crypto_init_siphash_key_fp := crypto_init_siphash_key_fp v;
     tor_ssl_global_init_fp := tor_ssl_global_init_fp v |}.
Definition set_write_str_to_file (f : option cfun) (v : InterposeFuncs) : InterposeFuncs :=
  {| spawn_func_fp := spawn_func_fp v; write_str_to_file_fp := f;
     crypto_global_init_fp := crypto_global_init_fp v;
     crypto_global_cleanup_fp := crypto_global_cleanup_fp v;
     crypto_early_init_fp := crypto_early_init_fp v;
     crypto_seed_rng_fp := crypto_seed_rng_fp v;
     crypto_init_siphash_key_fp := crypto_init_siphash_key_fp v;
     tor_ssl_global_init_fp := tor_ssl_global_init_fp v |}.
Definition set_crypto_global_init (f : option cfun) (v : InterposeFuncs) : InterposeFuncs :=
  {| spawn_func_fp := spawn_func_fp v; write_str_to_file_fp := write_str_to_file_fp v;
     crypto_global_init_fp := f;
     crypto_global_cleanup_fp := crypto_global_cleanup_fp v;
     crypto_early_init_fp := crypto_early_init_fp v;
     crypto_seed_rng_fp := crypto_seed_rng_fp v;
     crypto_init_siphash_key_fp := crypto_init_siphash_key_fp v;
     tor_ssl_global_init_fp := tor_ssl_global_init_fp v |}.
Definition set_crypto_global_cleanup (f : option cfun) (v : InterposeFuncs) : InterposeFuncs :=
  {| spawn_func_fp := spawn_func_fp v; write_str_to_file_fp := write_str_to_file_fp v;
     crypto_global_init_fp := crypto_global_init_fp v;
     crypto_global_cleanup_fp := f;
     crypto_early_init_fp := crypto_early_init_fp v;
     crypto_seed_rng_fp := crypto_seed_rng_fp v;
     crypto_init_siphash_key_fp := crypto_init_siphash_key_fp v;
     tor_ssl_global_init_fp := tor_ssl_global_init_fp v |}.
Definition set_crypto_early_init (f : option cfun) (v : InterposeFuncs) : InterposeFuncs :=
  {| spawn_func_fp := spawn_func_fp v; write_str_to_file_fp := write_str_to_file_fp v;
     crypto_global_init_fp := crypto_global_init_fp v;
     crypto_global_cleanup_fp := crypto_global_cleanup_fp v;
     crypto_early_init_fp := f;
     crypto_seed_rng_fp := crypto_seed_rng_fp v;
     crypto_init_siphash_key_fp := crypto_init_siphash_key_fp v;
     tor_ssl_global_init_fp := tor_ssl_global_init_fp v |}.
Definition set_crypto_seed_rng (f : option cfun) (v : InterposeFuncs) : InterposeFuncs :=
  {| spawn_func_fp := spawn_func_fp v; write_str_to_file_fp := write_str_to_file_fp v;
     crypto_global_init_fp := crypto_global_init_fp v;
     crypto_global_cleanup_fp := crypto_global_cleanup_fp v;
     crypto_early_init_fp := crypto_early_init_fp v;
     crypto_seed_rng_fp := f;
     crypto_init_siphash_key_fp := crypto_init_siphash_key_fp v;
     tor_ssl_global_init_fp := tor_ssl_global_init_fp v |}.
Definition set_crypto_init_siphash_key (f : option cfun) (v : InterposeFuncs) : InterposeFuncs :=
  {| spawn_func_fp := spawn_func_fp v; write_str_to_file_fp := write_str_to_file_fp v;
     crypto_global_init_fp := crypto_global_init_fp v;
     crypto_global_cleanup_fp := crypto_global_cleanup_fp v;
     crypto_early_init_fp := crypto_early_init_fp v;
     crypto_seed_rng_fp := crypto_seed_rng_fp v;
     crypto_init_siphash_key_fp := f;
     tor_ssl_global_init_fp := tor_ssl_global_init_fp v |}.
Definition set_tor_ssl_global_init (f : option cfun) (v : InterposeFuncs) : InterposeFuncs :=
  {| spawn_func_fp := spawn_func_fp v; write_str_to_file_fp := write_str_to_file_fp v;
     crypto_global_init_fp := crypto_global_init_fp v;
     crypto_global_cleanup_fp := crypto_global_cleanup_fp v;
     crypto_early_init_fp := crypto_early_init_fp v;
     crypto_seed_rng_fp := crypto_seed_rng_fp v;
     crypto_init_siphash_key_fp := crypto_init_siphash_key_fp v;
     tor_ssl_global_init_fp := f |}.

(** ** The lock array: setup and teardown *)

(** [for (i = 0; i < n; i++) body(i)] *)
Fixpoint for_each (l : list Z) (body : Z -> M unit) : M unit :=
  match l with
  | [] => skip
  | i :: l => body i;; for_each l body
  end.

(** [g_new0(GRWLock, n)]: NULL for a count of 0; a negative [gint] count is
    converted to an unsigned size too large to allocate, and glib aborts;
    otherwise n zero-filled locks. *)
Definition g_new0_GRWLock (n : Z) : M (option (list GRWLock)) :=
  if n <? 0 then abort AllocOverflow
  else emit (EvAllocLocks n);;
       mret (if n =? 0 then None else Some (replicate (Z.to_nat n) LockZeroed)).

(** [&(cryptoThreadLocks[i])] dereferenced: the array must be there and hold
    an i-th element. *)
Definition lock_at (i : Z) : M unit :=
  g ← get_global;
  match cryptoThreadLocks g with
  | Some locks => if (0 <=? i) && (i <? Z.of_nat (length locks))
                  then skip else undefined (OutOfBounds i)
  | None => undefined (OutOfBounds i)
  end.

Definition g_rw_lock_init (i : Z) : M unit :=
  lock_at i;;
  emit (EvRWInit i);;
  modify_global (fun g =>
    set_cryptoThreadLocks (alter (fun _ => LockReady) (Z.to_nat i) <$> cryptoThreadLocks g) g).

Definition g_rw_lock_clear (i : Z) : M unit :=
  lock_at i;; emit (EvRWClear i).

Definition g_rw_lock (op : rwop) (i : Z) : M unit :=
  lock_at i;; emit (EvRW op i).

(** static void _shadowtorpreload_cryptoSetup(int numLocks) *)
Definition _shadowtorpreload_cryptoSetup (numLocks : Z) : M unit :=
  g ← get_global;
  (if negb (initialized g) then
     modify_global (set_numCryptoThreadLocks numLocks);;
     locks ← g_new0_GRWLock numLocks;
     modify_global (set_cryptoThreadLocks locks);;
     for_each (seqZ 0 numLocks) g_rw_lock_init;;
     modify_global (set_initialized true)
   else skip);;
  modify_global (fun g => set_nThreads (wrap_gint (nThreads g + 1)) g).

(** static void _shadowtorpreload_cryptoTeardown(): the three conjuncts of
    the condition are evaluated left to right, so nThreads is decremented
    only when the first two hold. *)
Definition _shadowtorpreload_cryptoTeardown : M unit :=
  g ← get_global;
  if initialized g then
    match cryptoThreadLocks g with
    | Some _ =>
        modify_global (fun g => set_nThreads (wrap_gint (nThreads g - 1)) g);;
        g ← get_global;
        if nThreads g =? 0 then
          for_each (seqZ 0 (numCryptoThreadLocks g)) g_rw_lock_clear;;
          emit EvFreeLocks;;
          modify_global (set_cryptoThreadLocks None);;
          modify_global (set_initialized false)
        else skip
    | None => skip
    end
  else skip.

(** ** Binding a thread *)

(** [g_module_symbol(handle, name, &ptr)]: ptr is set to the symbol, or to
    NULL when the module is NULL or has no such symbol; the call returns
    whether the symbol was found. *)
Definition g_module_symbol (h : option GModule) (name : string) : option cfun :=
  match h with
  | Some m => m name
  | None => None
  end.

(** A function pointer tested as a condition: non-NULL. *)
Definition present (f : option cfun) : bool :=
  match f with
  | Some _ => true
  | None => false
  end.

Definition resolve (worker : addr) (h : option GModule) (name : string)
    (setf : option cfun -> InterposeFuncs -> InterposeFuncs) : M bool :=
  w ← load worker;
  store worker (set_vtable (setf (g_module_symbol h name) (vtable w)) w);;
  mret (present (g_module_symbol h name)).

Definition g_assert (d : diag) (b : bool) : M unit :=
  if b then skip else abort d.

Definition resolve_required (worker : addr) (h : option GModule) (name : string)
    (setf : option cfun -> InterposeFuncs -> InterposeFuncs) : M unit :=
  found ← resolve worker h name setf; g_assert (AssertSymbol name) found.

(** void shadowtorpreload_init(GModule* handle, int nLocks) *)
Definition shadowtorpreload_init (t : thread) (h : option GModule) (nLocks : Z) : M unit :=
  worker ← _shadowtorpreload_getWorker t;
  w ← load worker;
  store worker (set_handle h w);;
  resolve_required worker h "spawn_func" set_spawn_func;;
  resolve_required worker h "write_str_to_file" set_write_str_to_file;;
  resolve_required worker h "crypto_global_init" set_crypto_global_init;;
  resolve_required worker h "crypto_global_cleanup" set_crypto_global_cleanup;;
  resolve_required worker h "tor_ssl_global_init" set_tor_ssl_global_init;;
  resolve worker h "crypto_early_init" set_crypto_early_init;;
  resolve worker h "crypto_seed_rng" set_crypto_seed_rng;;
  resolve worker h "crypto_init_siphash_key" set_crypto_init_siphash_key;;
  _shadowtorpreload_cryptoSetup nLocks.

(** void shadowtorpreload_clear() *)
Definition shadowtorpreload_clear (t : thread) : M unit :=
  _shadowtorpreload_cryptoTeardown.

(** ** Interposed Tor functions *)

(** int spawn_func(void (*func)(void *), void *data): the body is commented
    out in the source, what is left is [return -1]. *)
Definition spawn_func (t : thread) (func data : Z) : M Z := mret (-1).

(** [g_str_has_suffix(str, suffix)] *)
Definition g_str_has_suffix (str suffix : string) : bool :=
  let n := String.length str in
  let m := String.length suffix in
  if (m <=? n)%nat then String.eqb (String.substring (n - m) m str) suffix else false.

(** Decimal digits of a natural number, without leading zeros. *)
Definition decimal (n : N) : string := NilZero.string_of_uint (N.to_uint n).

Fixpoint zeros (k : nat) : string :=
  match k with
  | O => EmptyString
  | S k => String "0"%char (zeros k)
  end.

(** Zero padding on the left up to a minimal width. *)
Definition zero_pad (width : nat) (digits : string) : string :=
  (zeros (width - String.length digits) +:+ digits)%string.

(** printf's [%03i]: minimal width 3, padded with zeros, the sign counted
    in the width. *)
Definition printf_03i (z : Z) : string :=
  if z <? 0 then String "-"%char (zero_pad 2 (decimal (Z.to_N (- z))))
  else zero_pad 3 (decimal (Z.to_N z)).

Definition g_file_set_contents_call (path contents : string) : M bool :=
  extern (g_file_set_contents path contents).

(** [_shadowtorpreload_getWorker()->consensusCounter++] *)
Definition consensusCounter_postinc (t : thread) : M Z :=
  a ← _shadowtorpreload_getWorker t;
  w ← load a;
  store a (set_consensusCounter (wrap_gint (consensusCounter w + 1)) w);;
  mret (consensusCounter w).

(** int write_str_to_file(const char *fname, const char *str, int bin) *)
Definition write_str_to_file (t : thread) (fname str : string) (bin : Z) : M Z :=
  (if g_str_has_suffix fname "cached-consensus" then
     c ← consensusCounter_postinc t;
     let newPath := (fname +:+ "." +:+ printf_03i c)%string in
     ok ← g_file_set_contents_call newPath str;
     emit (EvFileSetContents newPath str ok);;
     (if (ok : bool) then skip else emit (EvLogWarn newPath))
   else skip);;
  f ← vtable_entry t write_str_to_file_fp;
  call "write_str_to_file" f [VStr (Some fname); VStr (Some str); VInt bin].

(** ** The global crypto coordinator *)

(** int crypto_early_init() *)
Definition crypto_early_init (t : thread) : M Z :=
  g ← get_global;
  if negb (sslInitializedEarly g) then
    modify_global (set_sslInitializedEarly true);;
    f ← vtable_entry t crypto_early_init_fp;
    if present f then
      f ← vtable_entry t crypto_early_init_fp;
      call "crypto_early_init" f []
    else mret 0
  else
    f ← vtable_entry t crypto_early_init_fp;
    if present f then
      seed ← vtable_entry t crypto_seed_rng_fp;
      r1 ← call "crypto_seed_rng" seed [VInt 1];
      let result := if r1 <? 0 then -1 else 0 in
      siphash ← vtable_entry t crypto_init_siphash_key_fp;
      r2 ← call "crypto_init_siphash_key" siphash [];
      let result := if r2 <? 0 then -1 else result in
      mret result
    else mret 0.

(** int crypto_global_init(int useAccel, const char *accelName, const char *accelDir) *)
Definition crypto_global_init (t : thread) (useAccel : Z) (accelName accelDir : cstr) : M Z :=
  modify_global (fun g => set_nTorCryptoNodes (wrap_gint (nTorCryptoNodes g + 1)) g);;
  g ← get_global;
  if negb (sslInitializedGlobal g) then
    modify_global (set_sslInitializedGlobal true);;
    f ← vtable_entry t tor_ssl_global_init_fp;
    (if present f then
       f ← vtable_entry t tor_ssl_global_init_fp;
       call "tor_ssl_global_init" f [];; skip
     else skip);;
    f ← vtable_entry t crypto_global_init_fp;
    if present f then
      f ← vtable_entry t crypto_global_init_fp;
      call "crypto_global_init" f [VInt useAccel; VStr accelName; VStr accelDir]
    else mret 0
  else mret 0.

(** int crypto_global_cleanup(void) *)
Definition crypto_global_cleanup (t : thread) : M Z :=
  modify_global (fun g => set_nTorCryptoNodes (wrap_gint (nTorCryptoNodes g - 1)) g);;
  g ← get_global;
  if nTorCryptoNodes g =? 0 then
    f ← vtable_entry t crypto_global_cleanup_fp;
    if present f then
      f ← vtable_entry t crypto_global_cleanup_fp;
      call "crypto_global_cleanup" f []
    else mret 0
  else mret 0.

(** ** The OpenSSL callbacks *)

(** static unsigned long _shadowtorpreload_getIDFunc(): the worker pointer
    converted to [unsigned long], which on the LP64 targets of Shadow has
    the width of a pointer, so the conversion keeps the address. *)
Definition _shadowtorpreload_getIDFunc (t : thread) : M Z :=
  a ← _shadowtorpreload_getWorker t;
  mret (Z.pos a).

(** The mode bits of openssl/crypto.h. *)
Definition CRYPTO_LOCK : Z := 1.
Definition CRYPTO_UNLOCK : Z := 2.
Definition CRYPTO_READ : Z := 4.
Definition CRYPTO_WRITE : Z := 8.

(** [mode & bit] as a condition *)
Definition has_bit (mode bit : Z) : bool := negb (Z.land mode bit =? 0).

(** [&(cryptoThreadLocks[n])] is NULL only for a NULL array and n = 0. *)
Definition lock_ptr_is_null (g : PreloadGlobal) (n : Z) : bool :=
  match cryptoThreadLocks g with
  | Some _ => false
  | None => n =? 0
  end.

Definition c_assert (d : diag) (b : bool) : M unit :=
  if b then skip else abort d.

(** static void _shadowtorpreload_cryptoLockingFunc(int mode, int n,
    const char *file, int line) *)
Definition _shadowtorpreload_cryptoLockingFunc (mode n : Z) : M unit :=
  g ← get_global;
  c_assert AssertInitialized (initialized g);;
  c_assert AssertLock (negb (lock_ptr_is_null g n));;
  if has_bit mode CRYPTO_LOCK then
    if has_bit mode CRYPTO_READ then g_rw_lock ReaderLock n
    else if has_bit mode CRYPTO_WRITE then g_rw_lock WriterLock n
    else skip
  else if has_bit mode CRYPTO_UNLOCK then
    if has_bit mode CRYPTO_READ then g_rw_lock ReaderUnlock n
    else if has_bit mode CRYPTO_WRITE then g_rw_lock WriterUnlock n
    else skip
  else skip.

(** The state of a process at start: no thread has a worker, and
    [shadowtorpreloadGlobalState = {FALSE, 0, 0, 0, NULL}], the rest zero. *)
Definition process_start (w : World) : state :=
  {| tls := ∅; heap := ∅;
     shadowtorpreloadGlobalState :=
       {| initialized := false; sslInitializedEarly := false;
          sslInitializedGlobal := false; nTorCryptoNodes := 0; nThreads := 0;
          numCryptoThreadLocks := 0; cryptoThreadLocks := None |};
     world := w; trace := [] |}.

(** ** Runs of the coordinator

    The calls that threads make into the coordinator, in the order in which
    they get the primary lock. *)
Inductive coord_call :=
| GlobalInit (t : thread) (useAccel : Z) (accelName accelDir : cstr)
| GlobalCleanup (t : thread).

Definition caller (c : coord_call) : thread :=
  match c with
  | GlobalInit t _ _ _ => t
  | GlobalCleanup t => t
  end.

Definition is_init (c : coord_call) : bool :=
  match c with
  | GlobalInit _ _ _ _ => true
  | GlobalCleanup _ => false
  end.

Definition coord_step (c : coord_call) : M Z :=
  match c with
  | GlobalInit t useAccel accelName accelDir =>
      crypto_global_init t useAccel accelName accelDir
  | GlobalCleanup t => crypto_global_cleanup t
  end.

(** Run the calls one after the other and collect what they return. *)
Fixpoint run_calls (cs : list coord_call) : M (list Z) :=
  match cs with
  | [] => mret []
  | c :: cs => r ← coord_step c; rs ← run_calls cs; mret (r :: rs)
  end.

(** How often the trace calls the delegate of that name. *)
Fixpoint delegate_calls (name : string) (tr : list event) : nat :=
  match tr with
  | [] => O
  | EvDelegate n _ :: tr =>
      if String.eqb n name then S (delegate_calls name tr) else delegate_calls name tr
  | _ :: tr => delegate_calls name tr
  end.

(** Does the run contain a crypto_global_init call? *)
Definition has_init (cs : list coord_call) : bool := existsb is_init cs.

(** Number of init calls minus number of cleanup calls. *)
Fixpoint node_delta (cs : list coord_call) : Z :=
  match cs with
  | [] => 0
  | c :: cs => (if is_init c then 1 else -1) + node_delta cs
  end.

(** ** Runs of the lock bridge *)
Inductive bridge_call :=
| Setup (numLocks : Z)
| Teardown.

Definition bridge_step (c : bridge_call) : M unit :=
  match c with
  | Setup numLocks => _shadowtorpreload_cryptoSetup numLocks
  | Teardown => _shadowtorpreload_cryptoTeardown
  end.

Fixpoint run_bridge (cs : list bridge_call) : M unit :=
  match cs with
  | [] => skip
  | c :: cs => bridge_step c;; run_bridge cs
  end.

(** Allocations and releases of the lock array in a trace. *)
Fixpoint lock_allocs (tr : list event) : nat :=
  match tr with
  | [] => O
  | EvAllocLocks _ :: tr => S (lock_allocs tr)
  | _ :: tr => lock_allocs tr
  end.

Fixpoint lock_frees (tr : list event) : nat :=
  match tr with
  | [] => O
  | EvFreeLocks :: tr => S (lock_frees tr)
  | _ :: tr => lock_frees tr
  end.

(** The bridge is up: the array holds k initialised locks for n threads. *)
Definition bridge_up (g : PreloadGlobal) (k n : Z) : Prop :=
  initialized g = true /\
  cryptoThreadLocks g = Some (replicate (Z.to_nat k) LockReady) /\
  numCryptoThreadLocks g = k /\
  nThreads g = n.

(** The bridge is down: no array, no thread. *)
Definition bridge_down (g : PreloadGlobal) : Prop :=
  initialized g = false /\ cryptoThreadLocks g = None /\ nThreads g = 0.

(** The symbols shadowtorpreload_init asserts, in the order of the source. *)
Definition mandatory_symbols : list string :=
  ["spawn_func"; "write_str_to_file"; "crypto_global_init";
   "crypto_global_cleanup"; "tor_ssl_global_init"].

(** The vtable after all eight lookups in a module. *)
Definition resolved_vtable (h : option GModule) : InterposeFuncs :=
  {| spawn_func_fp := g_module_symbol h "spawn_func";
     write_str_to_file_fp := g_module_symbol h "write_str_to_file";
     crypto_global_init_fp := g_module_symbol h "crypto_global_init";
     crypto_global_cleanup_fp := g_module_symbol h "crypto_global_cleanup";
     crypto_early_init_fp := g_module_symbol h "crypto_early_init";
     crypto_seed_rng_fp := g_module_symbol h "crypto_seed_rng";
     crypto_init_siphash_key_fp := g_module_symbol h "crypto_init_siphash_key";
     tor_ssl_global_init_fp := g_module_symbol h "tor_ssl_global_init" |}.

(** The thread's key holds NULL or a pointer to a live block. *)
Definition worker_ok (s : state) (t : thread) : bool :=
  match tls s !! t with
  | Some a => match heap s !! a with Some _ => true | None => false end
  | None => true
  end.

(** ** Runs of the whole library

    Every entry point of the library, and the end of a thread, as one step
    of the process. *)
Inductive lib_call :=
| CallInit (t : thread) (h : option GModule) (nLocks : Z)
| CallClear (t : thread)
| CallSpawn (t : thread) (func data : Z)
| CallWriteStr (t : thread) (fname str : string) (bin : Z)
| CallEarlyInit (t : thread)
| CallGlobalInit (t : thread) (useAccel : Z) (accelName accelDir : cstr)
| CallGlobalCleanup (t : thread)
| CallGetID (t : thread)
| CallLocking (t : thread) (mode n : Z)
| ThreadExit (t : thread).

Definition lib_step (c : lib_call) : M unit :=
  match c with
  | CallInit t h nLocks => shadowtorpreload_init t h nLocks
  | CallClear t => shadowtorpreload_clear t
  | CallSpawn t func data => spawn_func t func data;; skip
  | CallWriteStr t fname str bin => write_str_to_file t fname str bin;; skip
  | CallEarlyInit t => crypto_early_init t;; skip
  | CallGlobalInit t useAccel accelName accelDir =>
      crypto_global_init t useAccel accelName accelDir;; skip
  | CallGlobalCleanup t => crypto_global_cleanup t;; skip
  | CallGetID t => _shadowtorpreload_getIDFunc t;; skip
  | CallLocking t mode n => _shadowtorpreload_cryptoLockingFunc mode n
  | ThreadExit t => thread_exit t
  end.

Fixpoint run_lib (cs : list lib_call) : M unit :=
  match cs with
  | [] => skip
  | c :: cs => lib_step c;; run_lib cs
  end.

(** Is the step the end of thread t? *)
Definition exit_of (t : thread) (c : lib_call) : bool :=
  match c with
  | ThreadExit t' => bool_decide (t' = t)
  | _ => false
  end.

(** The registry is sound: no two threads share a worker block, and every
    worker pointer points to a live block. *)
Definition tls_wf (s : state) : Prop :=
  (forall t1 t2 a, tls s !! t1 = Some a -> tls s !! t2 = Some a -> t1 = t2) /\
  (forall t a, tls s !! t = Some a -> is_Some (heap s !! a)).

(** What a step may do to the registry, seen from thread t0: keep it sound,
    and keep t0's worker where it is. *)
Definition frame (t0 : thread) (s s' : state) : Prop :=
  (tls_wf s -> tls_wf s') /\
  (forall a, tls s !! t0 = Some a -> tls s' !! t0 = Some a).

Definition framed (t0 : thread) {A} (m : M A) : Prop :=
  forall s a s', m s = Ok a s' -> frame t0 s s'.

(** The worker of a thread, if it has one. *)
Definition worker_of (s : state) (t : thread) : option PreloadWorker :=
  match tls s !! t with
  | Some a => heap s !! a
  | None => None
  end.

(** The five entries shadowtorpreload_init asserts. *)
Definition mandatory_resolved (v : InterposeFuncs) : bool :=
  present (spawn_func_fp v) && present (write_str_to_file_fp v) &&
  present (crypto_global_init_fp v) && present (crypto_global_cleanup_fp v) &&
  present (tor_ssl_global_init_fp v).

(** The thread has been through shadowtorpreload_init. *)
Definition bound (s : state) (t : thread) : bool :=
  match worker_of s t with
  | Some w => mandatory_resolved (vtable w)
  | None => false
  end.

End Preload.

Arguments Ok {E A} a s.
Arguments Fatal {E A} d.
Arguments Undef {E A} u.

(** ** A small concrete environment

    Used to run the model on concrete inputs. The world counts the calls
    that left the library; writing the side file always fails; the allocator
    hands out the first address that is not in use. *)
Definition demo : Externals :=
  {| World := nat;
     g_file_set_contents := fun _ _ w => (false, S w);
     g_new0_PreloadWorker := fun live => fresh live |}.

(** A delegate that returns r. *)
Definition demo_fn (r : Z) : @cfun demo := fun _ w => (r, S w).

(** A Tor that has all eight symbols. *)
Definition demo_tor : @GModule demo := fun name =>
  if String.eqb name "spawn_func" then Some (demo_fn 0)
  else if String.eqb name "write_str_to_file" then Some (demo_fn 5)
  else if String.eqb name "crypto_global_init" then Some (demo_fn 7)
  else if String.eqb name "crypto_global_cleanup" then Some (demo_fn 9)
  else if String.eqb name "tor_ssl_global_init" then Some (demo_fn 0)
  else if String.eqb name "crypto_early_init" then Some (demo_fn 0)
  else if String.eqb name "crypto_seed_rng" then Some (demo_fn (-1))
  else if String.eqb name "crypto_init_siphash_key" then Some (demo_fn 0)
  else None.

(** An older Tor: crypto_seed_rng is there, crypto_early_init and
    crypto_init_siphash_key are not. *)
Definition demo_old_tor : @GModule demo := fun name =>
  if String.eqb name "crypto_early_init" then None
  else if String.eqb name "crypto_init_siphash_key" then None
  else demo_tor name.

(** The state a computation ends in; the given state if it does not end. *)
Definition state_after {A} (m : @M demo A) (s : @state demo) : @state demo :=
  match m s with
  | Ok _ s' => s'
  | _ => s
  end.

(** The start of a process in this environment. *)
Definition demo_start : @state demo := @process_start demo 0%nat.

(** Thread 1 bound to [demo_tor], with two locks. *)
Definition demo_bound : @state demo :=
  state_after (shadowtorpreload_init 1%nat (Some demo_tor) 2) demo_start.

(** The worker of thread 1 in [demo_bound]. *)
Definition demo_worker : @PreloadWorker demo :=
  {| handle := Some demo_tor; vtable := resolved_vtable (Some demo_tor);
     consensusCounter := 0 |}.

(** [demo_bound] after one crypto_global_init. *)
Definition demo_one_node : @state demo :=
  state_after (crypto_global_init 1%nat 0 None None) demo_bound.

(** Thread 1 bound to [demo_old_tor], after a first crypto_early_init. *)
Definition demo_old_bound : @state demo :=
  state_after (crypto_early_init 1%nat)
    (state_after (shadowtorpreload_init 1%nat (Some demo_old_tor) 2) demo_start).

Definition demo_old_worker : @PreloadWorker demo :=
  {| handle := Some demo_old_tor; vtable := resolved_vtable (Some demo_old_tor);
     consensusCounter := 0 |}.

(** [demo_bound] after a first crypto_early_init. *)
Definition demo_early_done : @state demo :=
  state_after (crypto_early_init 1%nat) demo_bound.

(** * The stand-ins for libevent and OpenSSL *)

(** libc, as far as the stand-ins use it. *)
Class Libc (E : Externals) := {
  (** [rand()] *)
  rand : World -> Z * World;
  (** [getaddrinfo(name, NULL, NULL, &info)]: on success, the address in
      [info->ai_addr] (its [sin_addr.s_addr]); nothing on failure. *)
  getaddrinfo : string -> World -> option Z * World;
}.

Section Standins.
Context {E : Externals} {L : Libc E}.

(** The constants of event2/dns.h that the resolver passes on. *)
Definition DNS_ERR_NONE : Z := 0.
Definition DNS_IPv4_A : Z := 1.

Definition getaddrinfo_call (name : string) : M (option Z) :=
  extern (getaddrinfo name).

(** struct evdns_request* evdns_base_resolve_ipv4(base, name, flags,
    callback, ptr). The block under [if(callback)] declares a second
    [success]; the assignments inside go to that one, and the test after the
    block reads the first. The result is a pointer: 0 is NULL. *)
Definition evdns_base_resolve_ipv4 (base : Z) (name : string) (flags : Z)
    (callback : option cfun) (ptr : Z) : M Z :=
  let success := 0 in
  ip ← (if present callback then
          info ← getaddrinfo_call name;
          let success := if info is Some _ then 1 else 0 in
          let ip := if success =? 0 then None else info in
          (* freeaddrinfo(info) *)
          mret ip
        else mret None);
  if success =? 0 then mret 0
  else
    call "callback" callback
      [VInt DNS_ERR_NONE; VInt DNS_IPv4_A; VInt 1; VInt 86400;
       VInt (default 0 ip); VPtr ptr];;
    mret 1.

(** The bytes of a [gint] in memory, lowest first (x86). *)
Definition gint_bytes (r : Z) : list Z :=
  (fun i => Z.land (Z.shiftr r (8 * i)) 255) <$> [0; 1; 2; 3].

(** [memmove(buf + off, src, n)], the n bytes of src given as a list: the
    bytes must fit into the buffer. *)
Definition memmove_into (buf : list Z) (off : Z) (src : list Z) : M (list Z) :=
  if (0 <=? off) && (off + Z.of_nat (length src) <=? Z.of_nat (length buf))
  then mret (take (Z.to_nat off) buf ++ src
             ++ drop (Z.to_nat off + length src) buf)
  else undefined (OutOfBounds off).

Definition rand_call : M Z := extern rand.

(** The loop of _shadowtorpreload_getRandomBytes; [None] when the fuel does
    not last. [MIN(numBytes-bytesWritten, sizeof(gint))] with a 4-byte gint. *)
Fixpoint getRandomBytes_loop (fuel : nat) (buf : list Z) (numBytes bytesWritten : Z)
    : M (option (list Z)) :=
  if numBytes >? bytesWritten then
    match fuel with
    | O => mret None
    | S fuel =>
        r ← rand_call;
        let copyLength := Z.min (numBytes - bytesWritten) 4 in
        buf ← memmove_into buf bytesWritten (take (Z.to_nat copyLength) (gint_bytes r));
        getRandomBytes_loop fuel buf numBytes (bytesWritten + copyLength)
    end
  else mret (Some buf).

(** static gint _shadowtorpreload_getRandomBytes(guchar* buf, gint numBytes):
    the value returned and the buffer as the call leaves it. Every pass of
    the loop writes at least one byte, so numBytes passes are enough. *)
Definition _shadowtorpreload_getRandomBytes (buf : list Z) (numBytes : Z)
    : M (option (Z * list Z)) :=
  filled ← getRandomBytes_loop (Z.to_nat numBytes) buf numBytes 0;
  mret ((fun buf => (1, buf)) <$> filled).

(** int RAND_bytes(unsigned char *buf, int num) *)
Definition RAND_bytes (buf : list Z) (num : Z) : M (option (Z * list Z)) :=
  _shadowtorpreload_getRandomBytes buf num.

(** int RAND_pseudo_bytes(unsigned char *buf, int num) *)
Definition RAND_pseudo_bytes (buf : list Z) (num : Z) : M (option (Z * list Z)) :=
  _shadowtorpreload_getRandomBytes buf num.

(** Number of passes of the loop for that many bytes. *)
Definition chunks (bytes : Z) : nat := Z.to_nat ((bytes + 3) / 4).

(** k successive results of rand(), and the world after them. *)
Fixpoint rands (k : nat) (w : World) : list Z * World :=
  match k with
  | O => ([], w)
  | S k => let '(r, w1) := rand w in
           let '(rs, w2) := rands k w1 in
           (r :: rs, w2)
  end.

End Standins.

(** A libc for the concrete environment: rand() goes through multiples of
    0x01020304 below 2^31; every name resolves. *)
Definition demo_libc : Libc demo :=
  {| rand := fun w : @World demo =>
               ((16909060 * (1 + Z.of_nat w)) mod 2147483648, S w);
     getaddrinfo := fun _ (w : @World demo) => (Some 16777343, S w) |}.

(** * Further runs and measures *)

(** Reading a string of decimal digits, leading zeros allowed. *)
Definition scan_decimal (s : string) : option N :=
  N.of_uint <$> NilEmpty.uint_of_string s.

Section MoreRuns.
Context {E : Externals}.

(** n writes of the same file by the same thread, one after the other. *)
Fixpoint write_many (t : thread) (fname str : string) (bin : Z) (n : nat) : M unit :=
  match n with
  | O => skip
  | S n => write_str_to_file t fname str bin;; write_many t fname str bin n
  end.

(** The paths of the side files a trace writes, in order. *)
Fixpoint side_paths (tr : list event) : list string :=
  match tr with
  | [] => []
  | EvFileSetContents path _ _ :: tr => path :: side_paths tr
  | _ :: tr => side_paths tr
  end.

(** crypto_early_init called by these threads, one after the other. *)
Fixpoint run_early (ts : list thread) : M (list Z) :=
  match ts with
  | [] => mret []
  | t :: ts => r ← crypto_early_init t; rs ← run_early ts; mret (r :: rs)
  end.

(** The thread has a worker, and its early-init entries go together: with
    crypto_early_init resolved, crypto_seed_rng and crypto_init_siphash_key
    are resolved too. *)
Definition early_ready (s : state) (t : thread) : bool :=
  match worker_of s t with
  | Some w =>
      implb (present (crypto_early_init_fp (vtable w)))
            (present (crypto_seed_rng_fp (vtable w))
             && present (crypto_init_siphash_key_fp (vtable w)))
  | None => false
  end.

(** Is the thread's crypto_early_init entry resolved? *)
Definition has_early (s : state) (t : thread) : bool :=
  match worker_of s t with
  | Some w => present (crypto_early_init_fp (vtable w))
  | None => false
  end.

(** How often a run of the coordinator, started with node count n, brings
    the count to 0 by a cleanup call. *)
Fixpoint zero_hits (n : Z) (cs : list coord_call) : nat :=
  match cs with
  | [] => O
  | c :: cs =>
      let n' := n + (if is_init c then 1 else -1) in
      if negb (is_init c) && (n' =? 0) then S (zero_hits n' cs) else zero_hits n' cs
  end.

(** All lock counts passed to setup are at least 1. *)
Definition positive_setups (cs : list bridge_call) : bool :=
  forallb (fun c => match c with Setup k => 1 <=? k | Teardown => true end) cs.

End MoreRuns.

Section BridgeInvariant.
Context {E : Externals}.

(** The state of the bridge in terms of what has been allocated and freed
    since a trace with a0 allocations and f0 releases: down with as many
    releases as allocations, or up with one allocation more. *)
Definition bridge_balanced (a0 f0 : nat) (s : state) : Prop :=
  (bridge_down (shadowtorpreloadGlobalState s) /\
   (lock_allocs (trace s) + f0 = lock_frees (trace s) + a0)%nat) \/
  (exists k n, 1 <= k /\ 1 <= n /\
     bridge_up (shadowtorpreloadGlobalState s) k n /\
     (lock_allocs (trace s) + f0 = S (lock_frees (trace s) + a0))%nat).

End BridgeInvariant.

Section Footprints.
Context {E : Externals}.

(** A property of the state that a computation keeps whenever it returns. *)
Definition keeps (J : state -> Prop) {A} (m : M A) : Prop :=
  forall s a s', J s -> m s = Ok a s' -> J s'.

(** The fields of the global state that a call may change. *)
Record footprint := {
  f_initialized : bool;
  f_early : bool;
  f_global : bool;
  f_nodes : bool;
  f_threads : bool;
  f_numlocks : bool;
  f_locks : bool;
}.

(** g' differs from g at most in the fields of the footprint, and no latch
    that is closed in g is open in g'. *)
Definition within (fp : footprint) (g g' : PreloadGlobal) : Prop :=
  (f_initialized fp = false -> initialized g' = initialized g) /\
  (f_early fp = false -> sslInitializedEarly g' = sslInitializedEarly g) /\
  (f_global fp = false -> sslInitializedGlobal g' = sslInitializedGlobal g) /\
  (f_nodes fp = false -> nTorCryptoNodes g' = nTorCryptoNodes g) /\
  (f_threads fp = false -> nThreads g' = nThreads g) /\
  (f_numlocks fp = false -> numCryptoThreadLocks g' = numCryptoThreadLocks g) /\
  (f_locks fp = false -> cryptoThreadLocks g' = cryptoThreadLocks g) /\
  (sslInitializedEarly g = true -> sslInitializedEarly g' = true) /\
  (sslInitializedGlobal g = true -> sslInitializedGlobal g' = true).

Definition fp_none : footprint :=
  {| f_initialized := false; f_early := false; f_global := false; f_nodes := false;
     f_threads := false; f_numlocks := false; f_locks := false |}.

(** What each entry point may change in the global state. *)
Definition footprint_of (c : lib_call) : footprint :=
  match c with
  | CallInit _ _ _ =>
      {| f_initialized := true; f_early := false; f_global := false; f_nodes := false;
         f_threads := true; f_numlocks := true; f_locks := true |}
  | CallClear _ =>
      {| f_initialized := true; f_early := false; f_global := false; f_nodes := false;
         f_threads := true; f_numlocks := false; f_locks := true |}
  | CallEarlyInit _ =>
      {| f_initialized := false; f_early := true; f_global := false; f_nodes := false;
         f_threads := false; f_numlocks := false; f_locks := false |}
  | CallGlobalInit _ _ _ _ =>
      {| f_initialized := false; f_early := false; f_global := true; f_nodes := true;
         f_threads := false; f_numlocks := false; f_locks := false |}
  | CallGlobalCleanup _ =>
      {| f_initialized := false; f_early := false; f_global := false; f_nodes := true;
         f_threads := false; f_numlocks := false; f_locks := false |}
  | CallSpawn _ _ _ | CallWriteStr _ _ _ _ | CallGetID _ | CallLocking _ _ _
  | ThreadExit _ => fp_none
  end.

(** The thread that makes the step. *)
Definition lib_caller (c : lib_call) : thread :=
  match c with
  | CallInit t _ _ | CallClear t | CallSpawn t _ _ | CallWriteStr t _ _ _
  | CallEarlyInit t | CallGlobalInit t _ _ _ | CallGlobalCleanup t | CallGetID t
  | CallLocking t _ _ | ThreadExit t => t
  end.

(** Is the step shadowtorpreload_init on thread t, or the end of t? *)
Definition rebinds (t : thread) (c : lib_call) : bool :=
  match c with
  | CallInit t' _ _ | ThreadExit t' => bool_decide (t' = t)
  | _ => false
  end.

(** Every live worker block is some thread's worker. *)
Definition no_leak (s : state) : Prop :=
  forall a, is_Some (heap s !! a) -> exists t, tls s !! t = Some a.

(** Thread t's worker is the block at a, and P holds of it; the registry is
    sound. *)
Definition worker_at (t : thread) (a : addr) (P : PreloadWorker -> Prop) (s : state) : Prop :=
  tls_wf s /\ tls s !! t = Some a /\ exists w, heap s !! a = Some w /\ P w.

End Footprints.

(** * Properties *)

Section Properties.
Context {E : Externals}.

(** ** Evaluating monadic code *)

Lemma bind_Ok {A B} (m : M A) (k : A -> M B) s a s' :
  m s = Ok a s' -> (m ≫= k) s = k a s'.
Proof. intros H. unfold mbind, M_bind. by rewrite H. Qed.

Lemma bind_Fatal {A B} (m : M A) (k : A -> M B) s d :
  m s = Fatal d -> (m ≫= k) s = Fatal d.
Proof. intros H. unfold mbind, M_bind. by rewrite H. Qed.

Lemma bind_Undef {A B} (m : M A) (k : A -> M B) s u :
  m s = Undef u -> (m ≫= k) s = Undef u.
Proof. intros H. unfold mbind, M_bind. by rewrite H. Qed.

Lemma bind_get_global {B} (k : PreloadGlobal -> M B) s :
  (get_global ≫= k) s = k (shadowtorpreloadGlobalState s) s.
Proof. reflexivity. Qed.

Lemma bind_modify_global {B} f (k : unit -> M B) s :
  (modify_global f ≫= k) s = k tt (with_global (f (shadowtorpreloadGlobalState s)) s).
Proof. reflexivity. Qed.

Lemma bind_emit {B} e (k : unit -> M B) s :
  (emit e ≫= k) s = k tt (with_trace (trace s ++ [e]) s).
Proof. reflexivity. Qed.

Lemma bind_skip {B} (k : unit -> M B) s : (skip ≫= k) s = k tt s.
Proof. reflexivity. Qed.

Ltac msimpl :=
  unfold modify_global, get_global, set_global, emit, extern, skip, abort,
    undefined, c_assert, g_assert, mbind, M_bind, mret, M_ret in *; cbn in *.

(** A thread that already has a worker gets that worker back, and the state
    is left alone. *)
Lemma getWorker_live t s a :
  tls s !! t = Some a -> _shadowtorpreload_getWorker t s = Ok a s.
Proof.
  intros H. unfold _shadowtorpreload_getWorker, g_private_get. msimpl.
  by rewrite H.
Qed.

Lemma vtable_entry_live t f s a w :
  tls s !! t = Some a -> heap s !! a = Some w ->
  vtable_entry t f s = Ok (f (vtable w)) s.
Proof.
  intros Ht Ha. unfold vtable_entry.
  rewrite (bind_Ok _ _ _ _ _ (getWorker_live _ _ _ Ht)).
  unfold load. msimpl. by rewrite Ha.
Qed.

Lemma wrap_gint_id z : gint_range z -> wrap_gint z = z.
Proof.
  unfold gint_range, G_MININT, G_MAXINT, wrap_gint. intros H.
  rewrite Z.mod_small; lia.
Qed.

(** ** The coordinator's refcount: crypto_global_cleanup *)

(** C6. A cleanup call made with a node count of at least 1 lowers the count
    by one. When that brings the count to 0 the thread's crypto_global_cleanup
    delegate is called and its result returned; otherwise the call returns 0
    and calls nothing. *)
Theorem crypto_global_cleanup_refcount t s a w f :
  tls s !! t = Some a ->
  heap s !! a = Some w ->
  crypto_global_cleanup_fp (vtable w) = Some f ->
  1 <= nTorCryptoNodes (shadowtorpreloadGlobalState s) <= G_MAXINT ->
  exists r s',
    crypto_global_cleanup t s = Ok r s' /\
    nTorCryptoNodes (shadowtorpreloadGlobalState s')
      = nTorCryptoNodes (shadowtorpreloadGlobalState s) - 1 /\
    (nTorCryptoNodes (shadowtorpreloadGlobalState s) = 1 ->
       r = (f [] (world s)).1 /\ world s' = (f [] (world s)).2 /\
       trace s' = trace s ++ [EvDelegate "crypto_global_cleanup" []]) /\
    (nTorCryptoNodes (shadowtorpreloadGlobalState s) <> 1 ->
       r = 0 /\ world s' = world s /\ trace s' = trace s).
Proof.
  intros Ht Ha Hf Hn.
  assert (Hw : wrap_gint (nTorCryptoNodes (shadowtorpreloadGlobalState s) - 1)
               = nTorCryptoNodes (shadowtorpreloadGlobalState s) - 1).
  { apply wrap_gint_id. unfold gint_range, G_MININT, G_MAXINT in *. lia. }
  unfold crypto_global_cleanup. msimpl. rewrite Hw.
  destruct (Z.eqb_spec (nTorCryptoNodes (shadowtorpreloadGlobalState s) - 1) 0) as [H0|H0].
  - erewrite vtable_entry_live by (cbn; eauto). rewrite Hf. cbn.
    erewrite vtable_entry_live by (cbn; eauto). rewrite Hf.
    unfold call. msimpl. destruct (f [] (world s)) as [r w'] eqn:Hr.
    eexists _, _. split; [reflexivity|]. cbn. repeat split; auto; lia.
  - eexists _, _. split; [reflexivity|]. cbn. repeat split; auto; lia.
Qed.

(** C2, as the code has it. A cleanup call made with a node count of 0 is not
    detected: it returns 0, calls no delegate, and leaves the count at -1. *)
Theorem crypto_global_cleanup_below_zero t s :
  nTorCryptoNodes (shadowtorpreloadGlobalState s) = 0 ->
  crypto_global_cleanup t s
  = Ok 0 (with_global (set_nTorCryptoNodes (-1) (shadowtorpreloadGlobalState s)) s).
Proof.
  intros H0. unfold crypto_global_cleanup. msimpl. by rewrite H0.
Qed.

(** ** The coordinator's latch: crypto_global_init *)

Lemma delegate_calls_app name tr1 tr2 :
  delegate_calls name (tr1 ++ tr2)
  = (delegate_calls name tr1 + delegate_calls name tr2)%nat.
Proof.
  induction tr1 as [|e tr1 IH]; [done|].
  destruct e; cbn; try done. destruct (String.eqb name0 name); cbn; by rewrite IH.
Qed.

Lemma worker_of_Some s t w :
  worker_of s t = Some w -> exists a, tls s !! t = Some a /\ heap s !! a = Some w.
Proof. unfold worker_of. destruct (tls s !! t) as [a|]; [eauto|done]. Qed.

Lemma bound_inv s t :
  bound s t = true ->
  exists a w fssl finit fclean,
    tls s !! t = Some a /\ heap s !! a = Some w /\
    tor_ssl_global_init_fp (vtable w) = Some fssl /\
    crypto_global_init_fp (vtable w) = Some finit /\
    crypto_global_cleanup_fp (vtable w) = Some fclean.
Proof.
  unfold bound. destruct (worker_of s t) as [w|] eqn:Hw; [|done].
  apply worker_of_Some in Hw as (a & Ht & Ha).
  unfold mandatory_resolved, present. intros H.
  destruct (tor_ssl_global_init_fp (vtable w)) as [fssl|] eqn:H1;
    destruct (crypto_global_init_fp (vtable w)) as [finit|] eqn:H2;
    destruct (crypto_global_cleanup_fp (vtable w)) as [fclean|] eqn:H3;
    rewrite ?andb_false_r in H; try done.
  by exists a, w, fssl, finit, fclean.
Qed.

(** The first call: the latch is open. *)
Lemma crypto_global_init_first t useAccel accelName accelDir s a w fssl finit :
  sslInitializedGlobal (shadowtorpreloadGlobalState s) = false ->
  tls s !! t = Some a -> heap s !! a = Some w ->
  tor_ssl_global_init_fp (vtable w) = Some fssl ->
  crypto_global_init_fp (vtable w) = Some finit ->
  let args := [VInt useAccel; VStr accelName; VStr accelDir] in
  let g := shadowtorpreloadGlobalState s in
  crypto_global_init t useAccel accelName accelDir s
  = Ok (finit args (fssl [] (world s)).2).1
      {| tls := tls s; heap := heap s;
         shadowtorpreloadGlobalState :=
           set_sslInitializedGlobal true
             (set_nTorCryptoNodes (wrap_gint (nTorCryptoNodes g + 1)) g);
         world := (finit args (fssl [] (world s)).2).2;
         trace := trace s ++ [EvDelegate "tor_ssl_global_init" [];
                              EvDelegate "crypto_global_init" args] |}.
Proof.
  intros Hl Ht Ha Hssl Hinit args g.
  unfold crypto_global_init. msimpl. rewrite Hl. cbn.
  erewrite vtable_entry_live by (cbn; eauto). rewrite Hssl. cbn.
  erewrite vtable_entry_live by (cbn; eauto). rewrite Hssl.
  unfold call. msimpl. destruct (fssl [] (world s)) as [r1 w1]. cbn.
  erewrite vtable_entry_live by (cbn; eauto). rewrite Hinit. cbn.
  erewrite vtable_entry_live by (cbn; eauto). rewrite Hinit. cbn.
  fold args. destruct (finit args w1) as [r2 w2]. cbn.
  by rewrite <- app_assoc.
Qed.

(** Every later call: the latch is closed. *)
Lemma crypto_global_init_again t useAccel accelName accelDir s :
  sslInitializedGlobal (shadowtorpreloadGlobalState s) = true ->
  let g := shadowtorpreloadGlobalState s in
  crypto_global_init t useAccel accelName accelDir s
  = Ok 0 (with_global (set_nTorCryptoNodes (wrap_gint (nTorCryptoNodes g + 1)) g) s).
Proof.
  intros Hl g. unfold crypto_global_init. msimpl. by rewrite Hl.
Qed.

(** What a cleanup call by a bound thread can do to the state. *)
Lemma crypto_global_cleanup_step t s :
  bound s t = true ->
  exists r s',
    crypto_global_cleanup t s = Ok r s' /\
    tls s' = tls s /\ heap s' = heap s /\
    shadowtorpreloadGlobalState s'
      = set_nTorCryptoNodes
          (wrap_gint (nTorCryptoNodes (shadowtorpreloadGlobalState s) - 1))
          (shadowtorpreloadGlobalState s) /\
    (trace s' = trace s \/
     trace s' = trace s ++ [EvDelegate "crypto_global_cleanup" []]).
Proof.
  intros (a & w & _ & _ & f & Ht & Ha & _ & _ & Hf)%bound_inv.
  unfold crypto_global_cleanup. msimpl.
  destruct (_ =? 0).
  - erewrite vtable_entry_live by (cbn; eauto). rewrite Hf. cbn.
    erewrite vtable_entry_live by (cbn; eauto). rewrite Hf.
    unfold call. msimpl. destruct (f [] (world s)) as [r w'].
    eexists _, _. split; [reflexivity|]. cbn. auto.
  - eexists _, _. split; [reflexivity|]. cbn. auto.
Qed.

Lemma bound_ext s s' t :
  tls s' = tls s -> heap s' = heap s -> bound s' t = bound s t.
Proof. intros Ht Hh. unfold bound, worker_of. by rewrite Ht, Hh. Qed.

Lemma all_bound_ext s s' (cs : list coord_call) :
  tls s' = tls s -> heap s' = heap s ->
  forallb (fun c => bound s' (caller c)) cs = forallb (fun c => bound s (caller c)) cs.
Proof.
  intros Ht Hh. induction cs as [|c cs IH]; [done|].
  cbn. by rewrite IH, (bound_ext s s').
Qed.

Lemma run_calls_cons c cs s r s' :
  coord_step c s = Ok r s' ->
  run_calls (c :: cs) s
  = match run_calls cs s' with
    | Ok rs s1 => Ok (r :: rs) s1
    | Fatal d => Fatal d
    | Undef u => Undef u
    end.
Proof.
  intros H. cbn [run_calls]. rewrite (bind_Ok _ _ _ _ _ H).
  unfold mbind, M_bind. by destruct (run_calls cs s').
Qed.

(** The invariant of a run made by bound threads: workers are left alone,
    the latch closes at the first init call and stays closed, the node count
    follows the calls, and the real init sequence is called when the latch
    closes and at no other time. *)
Lemma run_calls_inv cs : forall s,
  forallb (fun c => bound s (caller c)) cs = true ->
  Z.abs (nTorCryptoNodes (shadowtorpreloadGlobalState s)) + Z.of_nat (length cs)
    <= G_MAXINT ->
  exists rs s1,
    run_calls cs s = Ok rs s1 /\
    length rs = length cs /\
    tls s1 = tls s /\ heap s1 = heap s /\
    sslInitializedGlobal (shadowtorpreloadGlobalState s1)
      = sslInitializedGlobal (shadowtorpreloadGlobalState s) || has_init cs /\
    nTorCryptoNodes (shadowtorpreloadGlobalState s1)
      = nTorCryptoNodes (shadowtorpreloadGlobalState s) + node_delta cs /\
    forall name, name = "tor_ssl_global_init" \/ name = "crypto_global_init" ->
      delegate_calls name (trace s1)
      = (delegate_calls name (trace s)
         + if negb (sslInitializedGlobal (shadowtorpreloadGlobalState s)) && has_init cs
           then 1 else 0)%nat.
Proof.
  induction cs as [|c cs IH]; intros s Hb Hn.
  { exists [], s. cbn. rewrite orb_false_r, andb_false_r.
    repeat split; auto with lia. }
  cbn [forallb] in Hb. apply andb_prop in Hb as [Hc Hb].
  cbn [length] in Hn.
  assert (Hstep : exists r s',
    coord_step c s = Ok r s' /\ tls s' = tls s /\ heap s' = heap s /\
    sslInitializedGlobal (shadowtorpreloadGlobalState s')
      = sslInitializedGlobal (shadowtorpreloadGlobalState s) || is_init c /\
    nTorCryptoNodes (shadowtorpreloadGlobalState s')
      = nTorCryptoNodes (shadowtorpreloadGlobalState s) + (if is_init c then 1 else -1) /\
    forall name, name = "tor_ssl_global_init" \/ name = "crypto_global_init" ->
      delegate_calls name (trace s')
      = (delegate_calls name (trace s)
         + if negb (sslInitializedGlobal (shadowtorpreloadGlobalState s)) && is_init c
           then 1 else 0)%nat).
  { destruct c as [t u n d|t]; cbn [coord_step caller is_init] in *.
    - destruct (sslInitializedGlobal (shadowtorpreloadGlobalState s)) eqn:Hl.
      + rewrite crypto_global_init_again by done.
        eexists _, _. split; [reflexivity|]. cbn. rewrite Hl.
        rewrite wrap_gint_id by (unfold gint_range, G_MININT, G_MAXINT in *; lia).
        repeat split; auto with lia.
      + apply bound_inv in Hc as (a & w & fssl & finit & _ & Ht & Ha & Hssl & Hinit & _).
        erewrite crypto_global_init_first by eauto.
        eexists _, _. split; [reflexivity|]. cbn.
        rewrite wrap_gint_id by (unfold gint_range, G_MININT, G_MAXINT in *; lia).
        repeat split; auto.
        intros name [->| ->]; by rewrite delegate_calls_app.
    - destruct (crypto_global_cleanup_step t s Hc) as (r & s' & Hr & Ht & Hh & Hg & Htr).
      exists r, s'. split; [done|]. rewrite Hg. cbn.
      rewrite wrap_gint_id by (unfold gint_range, G_MININT, G_MAXINT in *; lia).
      rewrite orb_false_r, andb_false_r.
      repeat split; auto.
      intros name Hname. destruct Htr as [-> | ->]; [lia|].
      rewrite delegate_calls_app. by destruct Hname as [-> | ->]. }
  destruct Hstep as (r & s' & Hr & Ht & Hh & Hl & Hcnt & Htr).
  destruct (IH s') as (rs & s1 & Hrun & Hlen & Ht1 & Hh1 & Hl1 & Hcnt1 & Htr1).
  { by rewrite (all_bound_ext s s'). }
  { rewrite Hcnt. destruct (is_init c); lia. }
  exists (r :: rs), s1. rewrite (run_calls_cons _ _ _ _ _ Hr), Hrun.
  split; [done|]. split; [cbn; lia|].
  split; [congruence|]. split; [congruence|].
  split. { rewrite Hl1, Hl. cbn. by rewrite orb_assoc. }
  split. { rewrite Hcnt1, Hcnt. cbn. lia. }
  intros name Hname. rewrite (Htr1 name Hname), (Htr name Hname), Hl.
  unfold has_init. cbn [existsb].
  destruct (sslInitializedGlobal (shadowtorpreloadGlobalState s)), (is_init c),
    (existsb is_init cs); cbn; lia.
Qed.

Lemma run_calls_app_inv pre c post s rs s1 :
  run_calls (pre ++ c :: post) s = Ok rs s1 ->
  exists rs0 sp r sq rs2,
    run_calls pre s = Ok rs0 sp /\ coord_step c sp = Ok r sq /\
    run_calls post sq = Ok rs2 s1 /\ rs = rs0 ++ r :: rs2.
Proof.
  revert s rs. induction pre as [|c0 pre IH]; intros s rs H.
  - cbn in H. unfold mbind, M_bind in H.
    destruct (coord_step c s) as [r sq| |] eqn:Hc; try done.
    destruct (run_calls post sq) as [rs2 s2| |] eqn:Hp; try done.
    cbn in H. injection H as <- <-.
    by exists [], s, r, sq, rs2.
  - cbn in H. unfold mbind, M_bind in H.
    destruct (coord_step c0 s) as [r0 s0| |] eqn:Hc0; try done.
    destruct (run_calls (pre ++ c :: post) s0) as [rs' s'| |] eqn:Hp; try done.
    cbn in H. injection H as <- <-.
    destruct (IH _ _ Hp) as (rs0 & sp & r & sq & rs2 & H1 & H2 & H3 & ->).
    exists (r0 :: rs0), sp, r, sq, rs2.
    repeat split; auto.
    cbn. unfold mbind, M_bind. by rewrite Hc0, H1.
Qed.

(** C1. In any run of init and cleanup calls made by bound threads from a
    state in which no node has initialised yet, the real init sequence
    (tor_ssl_global_init, then crypto_global_init) is called exactly once if
    the run has an init call at all: by the first init call, which returns
    the delegate's result. Every init call raises the node count by one, and
    every init call after the first returns 0 and calls no delegate, whatever
    the node count has become in between. *)
Theorem crypto_global_init_once s0 cs :
  sslInitializedGlobal (shadowtorpreloadGlobalState s0) = false ->
  nTorCryptoNodes (shadowtorpreloadGlobalState s0) = 0 ->
  forallb (fun c => bound s0 (caller c)) cs = true ->
  Z.of_nat (length cs) <= G_MAXINT ->
  exists rs s1,
    run_calls cs s0 = Ok rs s1 /\
    (forall name, name = "tor_ssl_global_init" \/ name = "crypto_global_init" ->
       delegate_calls name (trace s1)
       = (delegate_calls name (trace s0) + if has_init cs then 1 else 0)%nat) /\
    forall pre t useAccel accelName accelDir post,
      cs = pre ++ GlobalInit t useAccel accelName accelDir :: post ->
      exists rs0 sp r sq,
        run_calls pre s0 = Ok rs0 sp /\
        crypto_global_init t useAccel accelName accelDir sp = Ok r sq /\
        rs !! length pre = Some r /\
        nTorCryptoNodes (shadowtorpreloadGlobalState sq)
          = nTorCryptoNodes (shadowtorpreloadGlobalState sp) + 1 /\
        if has_init pre
        then r = 0 /\ trace sq = trace sp /\ world sq = world sp
        else exists w fssl finit,
          worker_of s0 t = Some w /\
          tor_ssl_global_init_fp (vtable w) = Some fssl /\
          crypto_global_init_fp (vtable w) = Some finit /\
          let args := [VInt useAccel; VStr accelName; VStr accelDir] in
          trace sq = trace sp ++ [EvDelegate "tor_ssl_global_init" [];
                                  EvDelegate "crypto_global_init" args] /\
          (r, world sq) = finit args (fssl [] (world sp)).2.
Proof.
  intros Hl0 Hn0 Hb Hlen.
  destruct (run_calls_inv cs s0) as (rs & s1 & Hrun & _ & _ & _ & _ & _ & Htr).
  { done. } { rewrite Hn0. cbn. lia. }
  exists rs, s1. split; [done|]. split.
  { intros name Hname. rewrite (Htr name Hname), Hl0. done. }
  intros pre t u n d post ->.
  destruct (run_calls_app_inv _ _ _ _ _ _ Hrun)
    as (rs0 & sp & r & sq & rs2 & Hpre & Hstep & _ & ->).
  rewrite forallb_app in Hb. apply andb_prop in Hb as [Hbpre Hbc].
  cbn in Hbc. apply andb_prop in Hbc as [Hbt _].
  rewrite length_app in Hlen. cbn [length] in Hlen.
  destruct (run_calls_inv pre s0) as (rs0' & sp' & Hpre' & Hl & Ht & Hh & Hlp & Hnp & _).
  { done. } { rewrite Hn0. cbn. lia. }
  rewrite Hpre in Hpre'. injection Hpre' as <- <-.
  cbn [coord_step] in Hstep.
  exists rs0, sp, r, sq. split; [done|]. split; [done|].
  split. { rewrite lookup_app_r by lia. by rewrite Hl, Nat.sub_diag. }
  rewrite Hl0, Hn0 in *. cbn in Hlp.
  assert (Hrange : gint_range (nTorCryptoNodes (shadowtorpreloadGlobalState sp) + 1)).
  { rewrite Hnp. unfold gint_range, G_MININT, G_MAXINT in *.
    assert (Z.abs (node_delta pre) <= Z.of_nat (length pre)); [|lia].
    clear. induction pre as [|c pre IH]; cbn [node_delta length]; [lia|].
    destruct (is_init c); lia. }
  destruct (has_init pre) eqn:Hpi.
  - rewrite crypto_global_init_again in Hstep by done.
    injection Hstep as <- <-. cbn. by rewrite wrap_gint_id.
  - destruct (bound_inv _ _ Hbt) as (a & w & fssl & finit & _ & Hta & Hha & Hssl & Hinit & _).
    erewrite crypto_global_init_first in Hstep by (rewrite ?Ht, ?Hh; eauto).
    injection Hstep as <- <-. cbn. rewrite wrap_gint_id by done.
    split; [done|]. exists w, fssl, finit.
    split. { unfold worker_of. by rewrite Hta. }
    repeat split; auto. by destruct (finit _ _).
Qed.

(** ** The lock array: setup and teardown *)

Lemma lock_at_in_range i s l :
  cryptoThreadLocks (shadowtorpreloadGlobalState s) = Some l ->
  0 <= i < Z.of_nat (length l) ->
  lock_at i s = Ok tt s.
Proof.
  intros Hl Hi. unfold lock_at. msimpl. rewrite Hl.
  destruct (Z.leb_spec 0 i); [|lia]. destruct (Z.ltb_spec i (Z.of_nat (length l))); [|lia].
  done.
Qed.

Lemma g_rw_lock_init_in_range i s l :
  cryptoThreadLocks (shadowtorpreloadGlobalState s) = Some l ->
  0 <= i < Z.of_nat (length l) ->
  g_rw_lock_init i s
  = Ok tt (with_trace (trace s ++ [EvRWInit i])
            (with_global
               (set_cryptoThreadLocks (Some (alter (fun _ => LockReady) (Z.to_nat i) l))
                  (shadowtorpreloadGlobalState s)) s)).
Proof.
  intros Hl Hi. unfold g_rw_lock_init.
  rewrite (bind_Ok _ _ _ _ _ (lock_at_in_range _ _ _ Hl Hi)).
  msimpl. by rewrite Hl.
Qed.

Lemma g_rw_lock_clear_in_range i s l :
  cryptoThreadLocks (shadowtorpreloadGlobalState s) = Some l ->
  0 <= i < Z.of_nat (length l) ->
  g_rw_lock_clear i s = Ok tt (with_trace (trace s ++ [EvRWClear i]) s).
Proof.
  intros Hl Hi. unfold g_rw_lock_clear.
  by rewrite (bind_Ok _ _ _ _ _ (lock_at_in_range _ _ _ Hl Hi)).
Qed.

Lemma g_rw_lock_in_range op i s l :
  cryptoThreadLocks (shadowtorpreloadGlobalState s) = Some l ->
  0 <= i < Z.of_nat (length l) ->
  g_rw_lock op i s = Ok tt (with_trace (trace s ++ [EvRW op i]) s).
Proof.
  intros Hl Hi. unfold g_rw_lock.
  by rewrite (bind_Ok _ _ _ _ _ (lock_at_in_range _ _ _ Hl Hi)).
Qed.

Lemma replicate_cons_comm {A} (x : A) (j : nat) (l : list A) :
  replicate j x ++ x :: l = x :: replicate j x ++ l.
Proof. induction j as [|j IH]; cbn; congruence. Qed.

(** The initialising loop of cryptoSetup, started at index j with the locks
    below j done. *)
Lemma rw_init_loop m : forall (j : nat) s,
  cryptoThreadLocks (shadowtorpreloadGlobalState s)
    = Some (replicate j LockReady ++ replicate m LockZeroed) ->
  for_each (seqZ (Z.of_nat j) (Z.of_nat m)) g_rw_lock_init s
  = Ok tt (with_trace (trace s ++ (EvRWInit <$> seqZ (Z.of_nat j) (Z.of_nat m)))
            (with_global
               (set_cryptoThreadLocks (Some (replicate (j + m) LockReady))
                  (shadowtorpreloadGlobalState s)) s)).
Proof.
  induction m as [|m IH]; intros j s Hl.
  - cbn. destruct s as [? ? g ? ?]. destruct g. cbn in *.
    rewrite !app_nil_r in *. rewrite Nat.add_0_r. by subst.
  - rewrite seqZ_cons by lia. cbn [for_each].
    erewrite bind_Ok; last first.
    { eapply g_rw_lock_init_in_range; [exact Hl|].
      rewrite length_app, !length_replicate. lia. }
    replace (Z.succ (Z.of_nat j)) with (Z.of_nat (S j)) by lia.
    replace (Z.pred (Z.of_nat (S m))) with (Z.of_nat m) by lia.
    rewrite IH; last first.
    { cbn. rewrite Nat2Z.id.
      replace j with (length (replicate j LockReady) + 0)%nat at 1
        by (rewrite length_replicate; lia).
      rewrite alter_app_r. cbn.
      by rewrite replicate_cons_comm. }
    cbn. rewrite <- app_assoc. cbn.
    by replace (j + S m)%nat with (S j + m)%nat by lia.
Qed.

Lemma rw_clear_loop l m : forall (j : nat) s,
  cryptoThreadLocks (shadowtorpreloadGlobalState s) = Some l ->
  (j + m <= length l)%nat ->
  for_each (seqZ (Z.of_nat j) (Z.of_nat m)) g_rw_lock_clear s
  = Ok tt (with_trace (trace s ++ (EvRWClear <$> seqZ (Z.of_nat j) (Z.of_nat m))) s).
Proof.
  induction m as [|m IH]; intros j s Hl Hj.
  - cbn. destruct s. cbn. by rewrite app_nil_r.
  - rewrite seqZ_cons by lia. cbn [for_each].
    replace (Z.succ (Z.of_nat j)) with (Z.of_nat (S j)) by lia.
    replace (Z.pred (Z.of_nat (S m))) with (Z.of_nat m) by lia.
    erewrite bind_Ok; [|eapply g_rw_lock_clear_in_range; [exact Hl|lia]].
    rewrite IH by (done || lia).
    cbn. by rewrite <- app_assoc.
Qed.

(** The first setup: allocate, initialise every lock, count the thread. *)
Lemma cryptoSetup_first k s :
  initialized (shadowtorpreloadGlobalState s) = false ->
  1 <= k ->
  let g := shadowtorpreloadGlobalState s in
  _shadowtorpreload_cryptoSetup k s
  = Ok tt {| tls := tls s; heap := heap s;
             shadowtorpreloadGlobalState :=
               {| initialized := true;
                  sslInitializedEarly := sslInitializedEarly g;
                  sslInitializedGlobal := sslInitializedGlobal g;
                  nTorCryptoNodes := nTorCryptoNodes g;
                  nThreads := wrap_gint (nThreads g + 1);
                  numCryptoThreadLocks := k;
                  cryptoThreadLocks := Some (replicate (Z.to_nat k) LockReady) |};
             world := world s;
             trace := trace s ++ EvAllocLocks k :: (EvRWInit <$> seqZ 0 k) |}.
Proof.
  intros Hi Hk g. unfold _shadowtorpreload_cryptoSetup, g_new0_GRWLock.
  subst g. rewrite bind_get_global, Hi. cbn [negb].
  destruct (Z.ltb_spec k 0); [lia|]. destruct (Z.eqb_spec k 0); [lia|].
  erewrite bind_Ok; last first.
  { msimpl.
    pose proof (rw_init_loop (Z.to_nat k) 0) as Hloop.
    rewrite Z2Nat.id in Hloop by lia. cbn in Hloop.
    rewrite Hloop by done. cbn. reflexivity. }
  msimpl. by rewrite <- app_assoc.
Qed.

(** Every setup while the bridge is initialised only counts the thread; the
    lock count it passes is not looked at. *)
Lemma cryptoSetup_again k s :
  initialized (shadowtorpreloadGlobalState s) = true ->
  let g := shadowtorpreloadGlobalState s in
  _shadowtorpreload_cryptoSetup k s
  = Ok tt (with_global (set_nThreads (wrap_gint (nThreads g + 1)) g) s).
Proof.
  intros Hi g. unfold _shadowtorpreload_cryptoSetup. msimpl. by rewrite Hi.
Qed.

(** A teardown that leaves threads behind only lowers the count. *)
Lemma cryptoTeardown_not_last s l :
  initialized (shadowtorpreloadGlobalState s) = true ->
  cryptoThreadLocks (shadowtorpreloadGlobalState s) = Some l ->
  wrap_gint (nThreads (shadowtorpreloadGlobalState s) - 1) <> 0 ->
  let g := shadowtorpreloadGlobalState s in
  _shadowtorpreload_cryptoTeardown s
  = Ok tt (with_global (set_nThreads (wrap_gint (nThreads g - 1)) g) s).
Proof.
  intros Hi Hl Hn g. unfold _shadowtorpreload_cryptoTeardown. msimpl.
  rewrite Hi, Hl. cbn. fold g. by destruct (Z.eqb_spec (wrap_gint (nThreads g - 1)) 0).
Qed.

(** The teardown of the last thread clears every lock and frees the array. *)
Lemma cryptoTeardown_last s l :
  initialized (shadowtorpreloadGlobalState s) = true ->
  cryptoThreadLocks (shadowtorpreloadGlobalState s) = Some l ->
  numCryptoThreadLocks (shadowtorpreloadGlobalState s) = Z.of_nat (length l) ->
  wrap_gint (nThreads (shadowtorpreloadGlobalState s) - 1) = 0 ->
  let g := shadowtorpreloadGlobalState s in
  _shadowtorpreload_cryptoTeardown s
  = Ok tt {| tls := tls s; heap := heap s;
             shadowtorpreloadGlobalState :=
               {| initialized := false;
                  sslInitializedEarly := sslInitializedEarly g;
                  sslInitializedGlobal := sslInitializedGlobal g;
                  nTorCryptoNodes := nTorCryptoNodes g;
                  nThreads := 0;
                  numCryptoThreadLocks := numCryptoThreadLocks g;
                  cryptoThreadLocks := None |};
             world := world s;
             trace := trace s ++ (EvRWClear <$> seqZ 0 (numCryptoThreadLocks g))
                              ++ [EvFreeLocks] |}.
Proof.
  intros Hi Hl Hk Hn g. unfold _shadowtorpreload_cryptoTeardown.
  rewrite bind_get_global, Hi, Hl, bind_modify_global, bind_get_global.
  cbn [shadowtorpreloadGlobalState nThreads set_nThreads with_global].
  rewrite Hn. cbn [Z.eqb].
  erewrite bind_Ok; last first.
  { cbn [numCryptoThreadLocks set_nThreads]. rewrite Hk.
    apply (rw_clear_loop l (length l) 0); [done|lia]. }
  subst g. msimpl. rewrite <- Hk, <- app_assoc. reflexivity.
Qed.

Lemma lock_allocs_app tr1 tr2 :
  lock_allocs (tr1 ++ tr2) = (lock_allocs tr1 + lock_allocs tr2)%nat.
Proof. induction tr1 as [|[] tr1 IH]; cbn; auto. Qed.

Lemma lock_frees_app tr1 tr2 :
  lock_frees (tr1 ++ tr2) = (lock_frees tr1 + lock_frees tr2)%nat.
Proof. induction tr1 as [|[] tr1 IH]; cbn; auto. Qed.

Lemma lock_allocs_init (l : list Z) : lock_allocs (EvRWInit <$> l) = O.
Proof. induction l; cbn; auto. Qed.

Lemma lock_frees_init (l : list Z) : lock_frees (EvRWInit <$> l) = O.
Proof. induction l; cbn; auto. Qed.

Lemma lock_allocs_clear (l : list Z) : lock_allocs (EvRWClear <$> l) = O.
Proof. induction l; cbn; auto. Qed.

Lemma lock_frees_clear (l : list Z) : lock_frees (EvRWClear <$> l) = O.
Proof. induction l; cbn; auto. Qed.

Lemma run_bridge_app cs1 cs2 s s' :
  run_bridge cs1 s = Ok tt s' -> run_bridge (cs1 ++ cs2) s = run_bridge cs2 s'.
Proof.
  revert s. induction cs1 as [|c cs1 IH]; intros s H.
  - cbn in H. by injection H as ->.
  - cbn in *. unfold mbind, M_bind in *.
    destruct (bridge_step c s) as [[] s1| |]; try done. by apply IH.
Qed.

(** Further setups on a bridge that is up only raise the thread count. *)
Lemma run_setups_up ks : forall s k n,
  bridge_up (shadowtorpreloadGlobalState s) k n ->
  1 <= n -> n + Z.of_nat (length ks) <= G_MAXINT ->
  exists s',
    run_bridge (Setup <$> ks) s = Ok tt s' /\
    bridge_up (shadowtorpreloadGlobalState s') k (n + Z.of_nat (length ks)) /\
    trace s' = trace s.
Proof.
  induction ks as [|k' ks IH]; intros s k n Hup Hn Hmax.
  - exists s. cbn. rewrite Z.add_0_r. auto.
  - destruct Hup as (Hi & Hl & Hk & Hc). cbn [length] in Hmax.
    cbn [fmap list_fmap run_bridge bridge_step].
    erewrite bind_Ok by (by apply cryptoSetup_again).
    destruct (IH (with_global
                    (set_nThreads (wrap_gint (nThreads (shadowtorpreloadGlobalState s) + 1))
                       (shadowtorpreloadGlobalState s)) s) k (n + 1))
      as (s' & Hrun & Hup' & Htr).
    { repeat split; auto. cbn. rewrite Hc. apply wrap_gint_id.
      unfold gint_range, G_MININT, G_MAXINT in *. lia. }
    { lia. } { lia. }
    exists s'. split; [exact Hrun|]. split; [|exact Htr].
    cbn [length]. by replace (n + Z.of_nat (S (length ks))) with (n + 1 + Z.of_nat (length ks)) by lia.
Qed.

(** Teardowns that leave a thread behind only lower the thread count. *)
Lemma run_teardowns_up i : forall s k n,
  bridge_up (shadowtorpreloadGlobalState s) k n ->
  Z.of_nat i < n <= G_MAXINT ->
  exists s',
    run_bridge (replicate i Teardown) s = Ok tt s' /\
    bridge_up (shadowtorpreloadGlobalState s') k (n - Z.of_nat i) /\
    trace s' = trace s.
Proof.
  induction i as [|i IH]; intros s k n Hup Hn.
  - exists s. cbn. rewrite Z.sub_0_r. auto.
  - destruct Hup as (Hi & Hl & Hk & Hc).
    assert (Hw : wrap_gint (nThreads (shadowtorpreloadGlobalState s) - 1) = n - 1).
    { rewrite Hc. apply wrap_gint_id. unfold gint_range, G_MININT, G_MAXINT in *. lia. }
    cbn [replicate run_bridge bridge_step].
    erewrite bind_Ok by (eapply cryptoTeardown_not_last; eauto; lia).
    destruct (IH (with_global
                    (set_nThreads (wrap_gint (nThreads (shadowtorpreloadGlobalState s) - 1))
                       (shadowtorpreloadGlobalState s)) s) k (n - 1))
      as (s' & Hrun & Hup' & Htr).
    { repeat split; auto. }
    { lia. }
    exists s'. split; [exact Hrun|]. split; [|exact Htr].
    by replace (n - Z.of_nat (S i)) with (n - 1 - Z.of_nat i) by lia.
Qed.

(** C5, as the code has it. Starting with the bridge down, N >= 1 setups
    whose first asks for k >= 1 locks, followed by N teardowns: the array is
    allocated once, by the first setup and with k locks; it is there, with
    a positive thread count, after each of the setups and after each of the
    first N-1 teardowns; the N-th teardown frees it and leaves the thread
    count at 0; a setup after that allocates again. *)
Theorem lock_array_lifecycle s0 k ks :
  initialized (shadowtorpreloadGlobalState s0) = false ->
  nThreads (shadowtorpreloadGlobalState s0) = 0 ->
  1 <= k ->
  Z.of_nat (S (length ks)) <= G_MAXINT ->
  let N := S (length ks) in
  let setups := Setup k :: (Setup <$> ks) in
  (forall j, (j <= length ks)%nat ->
     exists s,
       run_bridge (Setup k :: (Setup <$> take j ks)) s0 = Ok tt s /\
       bridge_up (shadowtorpreloadGlobalState s) k (Z.of_nat (S j)) /\
       lock_allocs (trace s) = S (lock_allocs (trace s0)) /\
       lock_frees (trace s) = lock_frees (trace s0)) /\
  (forall i, (i < N)%nat ->
     exists s,
       run_bridge (setups ++ replicate i Teardown) s0 = Ok tt s /\
       bridge_up (shadowtorpreloadGlobalState s) k (Z.of_nat (N - i)) /\
       lock_allocs (trace s) = S (lock_allocs (trace s0)) /\
       lock_frees (trace s) = lock_frees (trace s0)) /\
  exists s,
    run_bridge (setups ++ replicate N Teardown) s0 = Ok tt s /\
    bridge_down (shadowtorpreloadGlobalState s) /\
    lock_allocs (trace s) = S (lock_allocs (trace s0)) /\
    lock_frees (trace s) = S (lock_frees (trace s0)) /\
    forall k', 1 <= k' ->
      exists s',
        _shadowtorpreload_cryptoSetup k' s = Ok tt s' /\
        bridge_up (shadowtorpreloadGlobalState s') k' 1 /\
        lock_allocs (trace s') = S (S (lock_allocs (trace s0))).
Proof.
  intros Hi Hc Hk Hmax N setups.
  (* the first setup *)
  pose proof (cryptoSetup_first k s0 Hi Hk) as H1. cbn zeta in H1.
  rewrite Hc in H1. change (wrap_gint (0 + 1)) with 1 in H1.
  set (s1 := {| tls := tls s0 |}) in H1.
  assert (Hup1 : bridge_up (shadowtorpreloadGlobalState s1) k 1) by done.
  assert (Ha1 : lock_allocs (trace s1) = S (lock_allocs (trace s0))).
  { cbn. rewrite lock_allocs_app. cbn. rewrite lock_allocs_init. lia. }
  assert (Hf1 : lock_frees (trace s1) = lock_frees (trace s0)).
  { cbn. rewrite lock_frees_app. cbn. rewrite lock_frees_init. lia. }
  (* j further setups *)
  assert (Hsetups : forall j, (j <= length ks)%nat ->
     exists s,
       run_bridge (Setup k :: (Setup <$> take j ks)) s0 = Ok tt s /\
       bridge_up (shadowtorpreloadGlobalState s) k (Z.of_nat (S j)) /\
       trace s = trace s1).
  { intros j Hj.
    destruct (run_setups_up (take j ks) s1 k 1 Hup1) as (s & Hrun & Hup & Htr).
    { lia. } { rewrite length_take. lia. }
    exists s. cbn [run_bridge bridge_step]. rewrite (bind_Ok _ _ _ _ _ H1).
    split; [exact Hrun|]. split; [|exact Htr].
    rewrite length_take in Hup.
    by replace (Z.of_nat (S j)) with (1 + Z.of_nat (j `min` length ks)) by lia. }
  split.
  { intros j Hj. destruct (Hsetups j Hj) as (s & Hrun & Hup & Htr).
    exists s. rewrite Htr. auto. }
  destruct (Hsetups (length ks) (le_n _)) as (sN & HrunN & HupN & HtrN).
  rewrite firstn_all in HrunN. fold setups in HrunN.
  assert (Hdown : forall i, (i < N)%nat ->
     exists s,
       run_bridge (setups ++ replicate i Teardown) s0 = Ok tt s /\
       bridge_up (shadowtorpreloadGlobalState s) k (Z.of_nat (N - i)) /\
       trace s = trace s1).
  { intros i Hlt.
    destruct (run_teardowns_up i sN k _ HupN) as (s & Hrun & Hup & Htr).
    { fold N. lia. }
    exists s. rewrite (run_bridge_app _ _ _ _ HrunN).
    split; [exact Hrun|]. split; [|congruence].
    fold N in Hup. by replace (Z.of_nat (N - i)) with (Z.of_nat N - Z.of_nat i) by lia. }
  split.
  { intros i Hlt. destruct (Hdown i Hlt) as (s & Hrun & Hup & Htr).
    exists s. rewrite Htr. auto. }
  (* the last teardown *)
  destruct (Hdown (length ks)) as (sl & Hrunl & (Hil & Hll & Hkl & Hcl) & Htrl).
  { unfold N. lia. }
  replace (N - length ks)%nat with 1%nat in Hcl by (unfold N; lia).
  pose proof (cryptoTeardown_last sl _ Hil Hll) as Hlast.
  rewrite length_replicate, Hkl, Hcl, Z2Nat.id in Hlast by lia.
  specialize (Hlast eq_refl eq_refl). cbn zeta in Hlast.
  set (sd := {| tls := tls sl |}) in Hlast.
  exists sd. split.
  { unfold N. rewrite replicate_S_end, app_assoc.
    rewrite (run_bridge_app _ _ _ _ Hrunl). cbn [run_bridge bridge_step].
    rewrite (bind_Ok _ _ _ _ _ Hlast). done. }
  split; [done|].
  assert (Had : lock_allocs (trace sd) = S (lock_allocs (trace s0))).
  { cbn. rewrite Htrl, lock_allocs_app, lock_allocs_app, lock_allocs_clear.
    fold (trace s1). rewrite Ha1. cbn. lia. }
  split; [exact Had|]. split.
  { cbn. rewrite Htrl, lock_frees_app, lock_frees_app, lock_frees_clear.
    fold (trace s1). rewrite Hf1. cbn. lia. }
  intros k' Hk'.
  pose proof (cryptoSetup_first k' sd eq_refl Hk') as H2. cbn zeta in H2.
  eexists. split; [exact H2|]. split; [done|].
  cbn [trace]. rewrite lock_allocs_app. cbn [lock_allocs].
  rewrite lock_allocs_init. fold (trace sd). rewrite Had. lia.
Qed.

(** ** The locking callback *)

(** C3, as the code has it. The callback asserts that the bridge is
    initialised: called on a bridge that is not, it aborts. On an
    initialised bridge and with an index inside the array, the four modes
    lock/read, lock/write, unlock/read and unlock/write make the matching
    glib call on the indexed lock: shared or exclusive acquire, shared or
    exclusive release. The index is not compared with the lock count. *)
Theorem cryptoLockingFunc_modes mode n s :
  (initialized (shadowtorpreloadGlobalState s) = false ->
   _shadowtorpreload_cryptoLockingFunc mode n s = Fatal AssertInitialized) /\
  (forall l op,
     initialized (shadowtorpreloadGlobalState s) = true ->
     cryptoThreadLocks (shadowtorpreloadGlobalState s) = Some l ->
     numCryptoThreadLocks (shadowtorpreloadGlobalState s) = Z.of_nat (length l) ->
     0 <= n < numCryptoThreadLocks (shadowtorpreloadGlobalState s) ->
     (mode = Z.lor CRYPTO_LOCK CRYPTO_READ /\ op = ReaderLock) \/
     (mode = Z.lor CRYPTO_LOCK CRYPTO_WRITE /\ op = WriterLock) \/
     (mode = Z.lor CRYPTO_UNLOCK CRYPTO_READ /\ op = ReaderUnlock) \/
     (mode = Z.lor CRYPTO_UNLOCK CRYPTO_WRITE /\ op = WriterUnlock) ->
     _shadowtorpreload_cryptoLockingFunc mode n s
     = Ok tt (with_trace (trace s ++ [EvRW op n]) s)).
Proof.
  split.
  - intros Hi. unfold _shadowtorpreload_cryptoLockingFunc.
    rewrite bind_get_global, Hi. reflexivity.
  - intros l op Hi Hl Hk Hn Hmode.
    unfold _shadowtorpreload_cryptoLockingFunc.
    rewrite bind_get_global, Hi. unfold lock_ptr_is_null. rewrite Hl.
    unfold c_assert. rewrite !bind_skip.
    rewrite Hk in Hn.
    destruct Hmode as [[-> ->]|[[-> ->]|[[-> ->]|[-> ->]]]]; cbn;
      by apply (g_rw_lock_in_range _ _ _ l).
Qed.

(** ** crypto_early_init *)

(** C4, as the code has it. Once the early latch is closed, a call reseeds
    only if the thread's crypto_early_init entry is resolved: it then calls
    crypto_seed_rng(1) and crypto_init_siphash_key(), in that order, and
    returns -1 if either returned a negative value and 0 otherwise. If the
    crypto_early_init entry is not resolved the call does nothing and
    returns 0, whether the other two entries are resolved or not. *)
Theorem crypto_early_init_reseed t s a w :
  sslInitializedEarly (shadowtorpreloadGlobalState s) = true ->
  tls s !! t = Some a ->
  heap s !! a = Some w ->
  (crypto_early_init_fp (vtable w) = None -> crypto_early_init t s = Ok 0 s) /\
  (forall fearly fseed fsiphash,
     crypto_early_init_fp (vtable w) = Some fearly ->
     crypto_seed_rng_fp (vtable w) = Some fseed ->
     crypto_init_siphash_key_fp (vtable w) = Some fsiphash ->
     let r1 := (fseed [VInt 1] (world s)).1 in
     let w1 := (fseed [VInt 1] (world s)).2 in
     let r2 := (fsiphash [] w1).1 in
     let w2 := (fsiphash [] w1).2 in
     crypto_early_init t s
     = Ok (if (r1 <? 0) || (r2 <? 0) then -1 else 0)
         (with_trace (trace s ++ [EvDelegate "crypto_seed_rng" [VInt 1];
                                  EvDelegate "crypto_init_siphash_key" []])
            (with_world w2 s))).
Proof.
  intros Hl Ht Ha. split.
  - intros He. unfold crypto_early_init. rewrite bind_get_global, Hl. cbn [negb].
    erewrite bind_Ok by (by eapply vtable_entry_live). by rewrite He.
  - intros fearly fseed fsiphash He Hs Hk r1 w1 r2 w2.
    unfold crypto_early_init. rewrite bind_get_global, Hl. cbn [negb].
    erewrite bind_Ok by (by eapply vtable_entry_live). rewrite He. cbn [present].
    erewrite bind_Ok by (by eapply vtable_entry_live). rewrite Hs.
    unfold call. msimpl. subst r1 w1 r2 w2.
    destruct (fseed [VInt 1] (world s)) as [r1 w1]. cbn.
    erewrite vtable_entry_live by (cbn; eauto). rewrite Hk. cbn.
    destruct (fsiphash [] w1) as [r2 w2]. cbn.
    rewrite <- app_assoc. cbn.
    by destruct (r1 <? 0), (r2 <? 0).
Qed.

(** ** Binding: shadowtorpreload_init *)

Lemma load_live a s w : heap s !! a = Some w -> load a s = Ok w s.
Proof. intros H. unfold load. by rewrite H. Qed.

Lemma store_live a s w w' :
  heap s !! a = Some w -> store a w' s = Ok tt (with_heap (<[a := w']> (heap s)) s).
Proof. intros H. unfold store. by rewrite H. Qed.

Lemma resolve_live a h name setf s w :
  heap s !! a = Some w ->
  resolve a h name setf s
  = Ok (present (g_module_symbol h name))
      (with_heap (<[a := set_vtable (setf (g_module_symbol h name) (vtable w)) w]> (heap s)) s).
Proof.
  intros H. unfold resolve.
  rewrite (bind_Ok _ _ _ _ _ (load_live _ _ _ H)).
  by rewrite (bind_Ok _ _ _ _ _ (store_live _ _ _ _ H)).
Qed.

Lemma resolve_required_live a h name setf s w :
  heap s !! a = Some w ->
  resolve_required a h name setf s
  = match g_module_symbol h name with
    | Some _ =>
        Ok tt (with_heap
                 (<[a := set_vtable (setf (g_module_symbol h name) (vtable w)) w]> (heap s)) s)
    | None => Fatal (AssertSymbol name)
    end.
Proof.
  intros H. unfold resolve_required.
  rewrite (bind_Ok _ _ _ _ _ (resolve_live _ _ _ _ _ _ H)).
  by destruct (g_module_symbol h name).
Qed.

(** What the lookups of shadowtorpreload_init do for a thread whose worker
    is live: abort at the first mandatory symbol that is missing, or else
    leave the worker with the module's handle and all eight entries as the
    module has them, and go on to cryptoSetup. *)
Lemma shadowtorpreload_init_live t h nLocks s a w :
  tls s !! t = Some a -> heap s !! a = Some w ->
  shadowtorpreload_init t h nLocks s
  = match List.find (fun name => negb (present (g_module_symbol h name)))
            mandatory_symbols with
    | Some name => Fatal (AssertSymbol name)
    | None =>
        _shadowtorpreload_cryptoSetup nLocks
          (with_heap (<[a := {| handle := h; vtable := resolved_vtable h;
                                consensusCounter := consensusCounter w |}]> (heap s)) s)
    end.
Proof.
  intros Ht Ha. unfold shadowtorpreload_init.
  rewrite (bind_Ok _ _ _ _ _ (getWorker_live _ _ _ Ht)).
  rewrite (bind_Ok _ _ _ _ _ (load_live _ _ _ Ha)).
  rewrite (bind_Ok _ _ _ _ _ (store_live _ _ _ _ Ha)).
  cbn [List.find mandatory_symbols].
  repeat match goal with
  | |- context [negb (present (g_module_symbol h ?n))] =>
      let H := fresh "Hs" in
      destruct (g_module_symbol h n) as [?f|] eqn:H; cbn [present negb];
      [ erewrite bind_Ok; last first;
        [ erewrite resolve_required_live by (cbn; apply lookup_insert_eq);
          rewrite H; reflexivity |];
        cbn [with_heap heap tls]; rewrite insert_insert_eq
      | erewrite bind_Fatal; [reflexivity|];
        erewrite resolve_required_live by (cbn; apply lookup_insert_eq);
        by rewrite H ]
  end.
  do 3 (erewrite bind_Ok by (eapply resolve_live; cbn; apply lookup_insert_eq);
        cbn [with_heap heap tls]; rewrite insert_insert_eq).
  unfold resolved_vtable. cbn.
  repeat match goal with H : g_module_symbol h _ = Some _ |- _ => rewrite H; clear H end.
  reflexivity.
Qed.

Lemma getWorker_new t s :
  tls s !! t = None ->
  let a := g_new0_PreloadWorker (dom (heap s)) in
  _shadowtorpreload_getWorker t s
  = Ok a {| tls := <[t := a]> (tls s); heap := <[a := zero_worker]> (heap s);
            shadowtorpreloadGlobalState := shadowtorpreloadGlobalState s;
            world := world s; trace := trace s |}.
Proof.
  intros H a. unfold _shadowtorpreload_getWorker, g_private_get.
  unfold mbind at 1. unfold M_bind. by rewrite H.
Qed.

(** The first access creates the worker, any later one finds it: in both
    cases the thread then has a live worker, whose counter is the old one, or
    0 for a new worker. *)
Lemma getWorker_ok t s :
  worker_ok s t = true ->
  exists a w s1,
    _shadowtorpreload_getWorker t s = Ok a s1 /\
    tls s1 !! t = Some a /\ heap s1 !! a = Some w /\
    shadowtorpreloadGlobalState s1 = shadowtorpreloadGlobalState s /\
    world s1 = world s /\ trace s1 = trace s /\
    handle w = (match worker_of s t with Some w0 => handle w0 | None => None end) /\
    vtable w = (match worker_of s t with Some w0 => vtable w0 | None => null_vtable end) /\
    consensusCounter w
    = match worker_of s t with Some w0 => consensusCounter w0 | None => 0 end.
Proof.
  unfold worker_ok, worker_of. destruct (tls s !! t) as [a|] eqn:Ht.
  - destruct (heap s !! a) as [w|] eqn:Ha; [|done]. intros _.
    exists a, w, s. rewrite (getWorker_live _ _ _ Ht). by rewrite Ha.
  - intros _. eexists _, zero_worker, _. rewrite (getWorker_new _ _ Ht).
    split; [reflexivity|]. cbn. by rewrite !lookup_insert_eq.
Qed.

Lemma shadowtorpreload_init_getWorker t h nLocks s a s1 :
  _shadowtorpreload_getWorker t s = Ok a s1 ->
  tls s1 !! t = Some a ->
  shadowtorpreload_init t h nLocks s = shadowtorpreload_init t h nLocks s1.
Proof.
  intros H1 H2. unfold shadowtorpreload_init.
  by rewrite (bind_Ok _ _ _ _ _ H1), (bind_Ok _ _ _ _ _ (getWorker_live _ _ _ H2)).
Qed.

(** A setup with a lock count that is not negative succeeds, and leaves the
    workers alone. *)
Lemma cryptoSetup_ok n s :
  0 <= n ->
  exists s', _shadowtorpreload_cryptoSetup n s = Ok tt s' /\
             tls s' = tls s /\ heap s' = heap s.
Proof.
  intros Hn. destruct (initialized (shadowtorpreloadGlobalState s)) eqn:Hi.
  - rewrite cryptoSetup_again by done. by eexists.
  - destruct (Z.eq_dec n 0) as [->|].
    + unfold _shadowtorpreload_cryptoSetup. rewrite bind_get_global, Hi.
      by eexists.
    + rewrite cryptoSetup_first by (done || lia). by eexists.
Qed.

(** C8. shadowtorpreload_init aborts, and the message of the failed
    assertion names a mandatory symbol that the module does not have, whenever
    one of the five mandatory symbols is missing. When all five are there the
    call succeeds; each of the three optional entries then holds what the
    module has for it, NULL when the symbol is missing. *)
Theorem shadowtorpreload_init_symbols t h nLocks s :
  worker_ok s t = true ->
  (forall name,
     In name mandatory_symbols -> g_module_symbol h name = None ->
     exists missing,
       In missing mandatory_symbols /\ g_module_symbol h missing = None /\
       shadowtorpreload_init t h nLocks s = Fatal (AssertSymbol missing)) /\
  ((forall name, In name mandatory_symbols -> present (g_module_symbol h name) = true) ->
   0 <= nLocks ->
   exists s' w,
     shadowtorpreload_init t h nLocks s = Ok tt s' /\
     worker_of s' t = Some w /\
     mandatory_resolved (vtable w) = true /\
     crypto_early_init_fp (vtable w) = g_module_symbol h "crypto_early_init" /\
     crypto_seed_rng_fp (vtable w) = g_module_symbol h "crypto_seed_rng" /\
     crypto_init_siphash_key_fp (vtable w) = g_module_symbol h "crypto_init_siphash_key").
Proof.
  intros Hok.
  destruct (getWorker_ok t s Hok) as (a & w & s1 & Hget & Ht & Ha & _).
  rewrite (shadowtorpreload_init_getWorker _ _ _ _ _ _ Hget Ht).
  rewrite (shadowtorpreload_init_live _ _ _ _ _ _ Ht Ha).
  destruct (List.find _ mandatory_symbols) as [missing|] eqn:Hfind.
  - apply List.find_some in Hfind as [Hin Hmiss].
    split.
    + intros _ _ _. exists missing. repeat split; auto.
      by destruct (g_module_symbol h missing).
    + intros Hall. specialize (Hall _ Hin). by rewrite Hall in Hmiss.
  - split.
    + intros name Hin Hnone.
      pose proof (List.find_none _ _ Hfind name Hin) as Hp. cbn in Hp.
      by rewrite Hnone in Hp.
    + intros Hall Hn.
      edestruct (cryptoSetup_ok nLocks) as (s' & Hrun & Ht' & Hh'); [exact Hn|].
      eexists s', _. split; [exact Hrun|].
      unfold worker_of. rewrite Ht', Hh'. cbn. rewrite Ht, lookup_insert_eq.
      split; [reflexivity|]. cbn.
      unfold mandatory_resolved. cbn.
      rewrite !Hall; cbn; auto 10.
Qed.

(** ** write_str_to_file *)

Lemma length_zeros k : String.length (zeros k) = k.
Proof. induction k as [|k IH]; cbn; auto. Qed.

Lemma length_string_app (s1 s2 : string) :
  String.length (s1 +:+ s2) = (String.length s1 + String.length s2)%nat.
Proof. induction s1 as [|c s1 IH]; simpl; [done|by f_equal]. Qed.

Lemma length_zero_pad width digits :
  String.length (zero_pad width digits) = (width `max` String.length digits)%nat.
Proof. unfold zero_pad. rewrite length_string_app, length_zeros. lia. Qed.

Lemma printf_03i_small c :
  0 <= c < 1000 -> String.length (printf_03i c) = 3%nat.
Proof.
  intros Hc.
  assert (Hall : forallb (fun c => (String.length (printf_03i c) =? 3)%nat) (seqZ 0 1000) = true)
    by (vm_compute; reflexivity).
  rewrite forallb_forall in Hall.
  apply Nat.eqb_eq, Hall, list_elem_of_In, elem_of_seqZ. lia.
Qed.

Lemma consensusCounter_postinc_live t s a w :
  tls s !! t = Some a -> heap s !! a = Some w ->
  consensusCounter_postinc t s
  = Ok (consensusCounter w)
      (with_heap (<[a := set_consensusCounter (wrap_gint (consensusCounter w + 1)) w]> (heap s)) s).
Proof.
  intros Ht Ha. unfold consensusCounter_postinc.
  rewrite (bind_Ok _ _ _ _ _ (getWorker_live _ _ _ Ht)).
  rewrite (bind_Ok _ _ _ _ _ (load_live _ _ _ Ha)).
  by rewrite (bind_Ok _ _ _ _ _ (store_live _ _ _ _ Ha)).
Qed.

(** ** The thread id callback *)

Section Registry.
Context {EOk : ExternalsOk E}.

Lemma frame_refl t0 s : frame t0 s s.
Proof. by split. Qed.

Lemma frame_trans t0 s1 s2 s3 : frame t0 s1 s2 -> frame t0 s2 s3 -> frame t0 s1 s3.
Proof. intros [H1 H2] [H3 H4]. split; auto. Qed.

(** A state that differs only outside the registry. *)
Lemma frame_same t0 s s' : tls s' = tls s -> heap s' = heap s -> frame t0 s s'.
Proof.
  intros Ht Hh. unfold frame, tls_wf. rewrite Ht, Hh. by split.
Qed.

Lemma framed_ret t0 {A} (a : A) : framed t0 (mret a : M A).
Proof. intros s a' s' H. injection H as _ <-. apply frame_refl. Qed.

Lemma framed_bind t0 {A B} (m : M A) (k : A -> M B) :
  framed t0 m -> (forall a, framed t0 (k a)) -> framed t0 (m ≫= k).
Proof.
  intros Hm Hk s b s' H. unfold mbind, M_bind in H.
  destruct (m s) as [a s1| |] eqn:Hms; try done.
  eapply frame_trans; [by eapply Hm|by eapply Hk].
Qed.

Lemma framed_skip t0 : framed t0 skip.
Proof. apply framed_ret. Qed.

Lemma framed_abort t0 {A} d : framed t0 (abort d : M A).
Proof. by intros s a s' H. Qed.

Lemma framed_undefined t0 {A} u : framed t0 (undefined u : M A).
Proof. by intros s a s' H. Qed.

Lemma framed_get_global t0 : framed t0 get_global.
Proof. intros s a s' H. injection H as _ <-. apply frame_refl. Qed.

Lemma framed_set_global t0 g : framed t0 (set_global g).
Proof. intros s [] s' [= <-]. by apply frame_same. Qed.

Lemma framed_emit t0 e : framed t0 (emit e).
Proof. intros s [] s' [= <-]. by apply frame_same. Qed.

Lemma framed_extern t0 {A} (f : World -> A * World) : framed t0 (extern f).
Proof.
  intros s a s' H. unfold extern in H. destruct (f (world s)).
  injection H as _ <-. by apply frame_same.
Qed.

Lemma framed_load t0 a : framed t0 (load a).
Proof.
  intros s w s' H. unfold load in H. destruct (heap s !! a); [|done].
  injection H as _ <-. apply frame_refl.
Qed.

(** A store goes to a live block: the set of live blocks stays. *)
Lemma framed_store t0 a w : framed t0 (store a w).
Proof.
  intros s [] s' H. unfold store in H.
  destruct (heap s !! a) as [w0|] eqn:Ha; [|done]. injection H as <-.
  split; [|done]. intros [Hinj Hlive]. split; [exact Hinj|].
  intros t a' Ht. cbn in *. destruct (decide (a = a')) as [->|Hne].
  - rewrite lookup_insert_eq. eauto.
  - rewrite lookup_insert_ne by done. eauto.
Qed.

(** Creating a worker keeps the registry sound because the new block is
    none of the live ones. *)
Lemma framed_getWorker t0 t : framed t0 (_shadowtorpreload_getWorker t).
Proof.
  intros s a s' H. destruct (tls s !! t) as [a0|] eqn:Ht.
  - rewrite (getWorker_live _ _ _ Ht) in H. injection H as _ <-. apply frame_refl.
  - rewrite (getWorker_new _ _ Ht) in H. injection H as <- <-.
    pose proof (g_new0_fresh (dom (heap s))) as Hfresh.
    rewrite elem_of_dom in Hfresh.
    set (a := g_new0_PreloadWorker (dom (heap s))) in *.
    split.
    + intros [Hinj Hlive]. split; cbn.
      * intros t1 t2 a' H1 H2.
        destruct (decide (t = t1)) as [<-|Hn1], (decide (t = t2)) as [<-|Hn2];
          [done| | |].
        -- rewrite lookup_insert_eq in H1. rewrite lookup_insert_ne in H2 by done.
           injection H1 as <-. destruct Hfresh. eauto.
        -- rewrite lookup_insert_eq in H2. rewrite lookup_insert_ne in H1 by done.
           injection H2 as <-. destruct Hfresh. eauto.
        -- rewrite lookup_insert_ne in H1, H2 by done. eauto.
      * intros t1 a' H1. destruct (decide (a = a')) as [<-|Hne].
        -- rewrite lookup_insert_eq. eauto.
        -- rewrite lookup_insert_ne by done.
           destruct (decide (t = t1)) as [<-|Hn1].
           ++ rewrite lookup_insert_eq in H1. congruence.
           ++ rewrite lookup_insert_ne in H1 by done. eauto.
    + intros a' H0. cbn. destruct (decide (t = t0)) as [->|Hne]; [congruence|].
      by rewrite lookup_insert_ne.
Qed.

(** The end of another thread. *)
Lemma framed_thread_exit t0 t : t <> t0 -> framed t0 (thread_exit t).
Proof.
  intros Hne s [] s' H. injection H as <-. split; cbn.
  - intros [Hinj Hlive]. split; cbn.
    + intros t1 t2 a' [_ H1]%lookup_delete_Some [_ H2]%lookup_delete_Some. eauto.
    + intros t1 a' [Hn1 H1]%lookup_delete_Some.
      destruct (tls s !! t) as [a|] eqn:Ht; [|eauto].
      rewrite lookup_delete_ne; [eauto|].
      intros ->. apply Hn1. eauto.
  - intros a' H0. by rewrite lookup_delete_ne.
Qed.

(** The end of the thread itself: the registry stays sound. *)
Lemma thread_exit_wf t s s' :
  thread_exit t s = Ok tt s' -> tls_wf s -> tls_wf s'.
Proof.
  intros H [Hinj Hlive]. injection H as <-. split; cbn.
  - intros t1 t2 a' [_ H1]%lookup_delete_Some [_ H2]%lookup_delete_Some. eauto.
  - intros t1 a' [Hn1 H1]%lookup_delete_Some.
    destruct (tls s !! t) as [a|] eqn:Ht; [|eauto].
    rewrite lookup_delete_ne; [eauto|].
    intros ->. apply Hn1. eauto.
Qed.

Create HintDb framed.

#[local] Hint Resolve framed_ret framed_skip framed_abort framed_undefined
  framed_get_global framed_set_global framed_emit framed_extern framed_load
  framed_store framed_getWorker : framed.

Ltac framed_step :=
  match goal with
  | |- framed _ (_ ≫= _) => apply framed_bind; [|intros ?]
  | |- framed _ (if ?b then _ else _) => destruct b
  | |- framed _ (match ?x with _ => _ end) => destruct x
  | |- framed _ _ => solve [eauto with framed]
  end.

Ltac framed_auto := repeat framed_step.

Lemma framed_modify_global t0 f : framed t0 (modify_global f).
Proof. unfold modify_global. framed_auto. Qed.

Lemma framed_call t0 name f args : framed t0 (call name f args).
Proof. unfold call. framed_auto. Qed.

Lemma framed_vtable_entry t0 t f : framed t0 (vtable_entry t f).
Proof. unfold vtable_entry. framed_auto. Qed.

Lemma framed_lock_at t0 i : framed t0 (lock_at i).
Proof. unfold lock_at. framed_auto. Qed.

#[local] Hint Resolve framed_modify_global framed_call framed_vtable_entry
  framed_lock_at : framed.

Lemma framed_for_each t0 l body :
  (forall i, framed t0 (body i)) -> framed t0 (for_each l body).
Proof. intros Hb. induction l as [|i l IH]; cbn [for_each]; framed_auto. Qed.

Lemma framed_g_rw_lock_init t0 i : framed t0 (g_rw_lock_init i).
Proof. unfold g_rw_lock_init. framed_auto. Qed.

Lemma framed_g_rw_lock_clear t0 i : framed t0 (g_rw_lock_clear i).
Proof. unfold g_rw_lock_clear. framed_auto. Qed.

Lemma framed_g_rw_lock t0 op i : framed t0 (g_rw_lock op i).
Proof. unfold g_rw_lock. framed_auto. Qed.

Lemma framed_g_new0_GRWLock t0 n : framed t0 (g_new0_GRWLock n).
Proof. unfold g_new0_GRWLock. framed_auto. Qed.

#[local] Hint Resolve framed_for_each framed_g_rw_lock_init framed_g_rw_lock_clear
  framed_g_rw_lock framed_g_new0_GRWLock : framed.

Lemma framed_cryptoSetup t0 n : framed t0 (_shadowtorpreload_cryptoSetup n).
Proof. unfold _shadowtorpreload_cryptoSetup. framed_auto. Qed.

Lemma framed_cryptoTeardown t0 : framed t0 _shadowtorpreload_cryptoTeardown.
Proof. unfold _shadowtorpreload_cryptoTeardown. framed_auto. Qed.

Lemma framed_resolve t0 a h name setf : framed t0 (resolve a h name setf).
Proof. unfold resolve. framed_auto. Qed.

#[local] Hint Resolve framed_cryptoSetup framed_cryptoTeardown framed_resolve : framed.

Lemma framed_resolve_required t0 a h name setf :
  framed t0 (resolve_required a h name setf).
Proof. unfold resolve_required, g_assert. framed_auto. Qed.

#[local] Hint Resolve framed_resolve_required : framed.

Lemma framed_init t0 t h n : framed t0 (shadowtorpreload_init t h n).
Proof. unfold shadowtorpreload_init. framed_auto. Qed.

Lemma framed_write_str_to_file t0 t fname str bin :
  framed t0 (write_str_to_file t fname str bin).
Proof.
  unfold write_str_to_file, consensusCounter_postinc, g_file_set_contents_call.
  framed_auto.
Qed.

Lemma framed_crypto_early_init t0 t : framed t0 (crypto_early_init t).
Proof. unfold crypto_early_init. framed_auto. Qed.

Lemma framed_crypto_global_init t0 t u n d : framed t0 (crypto_global_init t u n d).
Proof. unfold crypto_global_init. framed_auto. Qed.

Lemma framed_crypto_global_cleanup t0 t : framed t0 (crypto_global_cleanup t).
Proof. unfold crypto_global_cleanup. framed_auto. Qed.

Lemma framed_getIDFunc t0 t : framed t0 (_shadowtorpreload_getIDFunc t).
Proof. unfold _shadowtorpreload_getIDFunc. framed_auto. Qed.

Lemma framed_cryptoLockingFunc t0 mode n :
  framed t0 (_shadowtorpreload_cryptoLockingFunc mode n).
Proof. unfold _shadowtorpreload_cryptoLockingFunc, c_assert. framed_auto. Qed.

#[local] Hint Resolve framed_init framed_write_str_to_file framed_crypto_early_init
  framed_crypto_global_init framed_crypto_global_cleanup framed_getIDFunc
  framed_cryptoLockingFunc : framed.

(** Every step other than the end of thread t0 itself. *)
Lemma framed_lib_step t0 c : exit_of t0 c = false -> framed t0 (lib_step c).
Proof.
  destruct c; cbn [exit_of lib_step]; intros Hc;
    try (unfold shadowtorpreload_clear, spawn_func; framed_auto; fail).
  apply framed_thread_exit. by apply bool_decide_eq_false in Hc.
Qed.

Lemma lib_step_wf c s s' : lib_step c s = Ok tt s' -> tls_wf s -> tls_wf s'.
Proof.
  intros H. destruct (exit_of 0%nat c) eqn:Hc.
  - destruct c; try done. cbn in H. by eapply thread_exit_wf.
  - by apply (framed_lib_step _ _ Hc _ _ _ H).
Qed.

Lemma tls_wf_process_start w : tls_wf (process_start w).
Proof. split; intros *; cbn; by rewrite lookup_empty. Qed.

(** Whatever the process has done, the registry is sound. *)
Lemma run_lib_wf cs : forall s s',
  run_lib cs s = Ok tt s' -> tls_wf s -> tls_wf s'.
Proof.
  induction cs as [|c cs IH]; intros s s' H Hwf.
  - by injection H as <-.
  - cbn in H. unfold mbind, M_bind in H.
    destruct (lib_step c s) as [[] s1| |] eqn:Hc; try done.
    eapply IH; [done|]. by eapply lib_step_wf.
Qed.

(** While thread t0 does not end, its worker stays where it is. *)
Lemma run_lib_keeps t0 cs : forall s s' a,
  run_lib cs s = Ok tt s' ->
  existsb (exit_of t0) cs = false ->
  tls s !! t0 = Some a -> tls s' !! t0 = Some a.
Proof.
  induction cs as [|c cs IH]; intros s s' a H Hex Ha.
  - by injection H as <-.
  - cbn in H, Hex. apply orb_false_elim in Hex as [Hc Hcs].
    unfold mbind, M_bind in H.
    destruct (lib_step c s) as [[] s1| |] eqn:Hstep; try done.
    eapply IH; [done|done|].
    by apply (framed_lib_step _ _ Hc _ _ _ Hstep).
Qed.

Lemma getIDFunc_inv t s id s1 :
  _shadowtorpreload_getIDFunc t s = Ok id s1 ->
  exists a, id = Z.pos a /\ tls s1 !! t = Some a.
Proof.
  unfold _shadowtorpreload_getIDFunc. intros H.
  destruct (tls s !! t) as [a|] eqn:Ht.
  - rewrite (bind_Ok _ _ _ _ _ (getWorker_live _ _ _ Ht)) in H.
    injection H as <- <-. eauto.
  - rewrite (bind_Ok _ _ _ _ _ (getWorker_new _ _ Ht)) in H.
    injection H as <- <-. eexists. split; [done|]. cbn. apply lookup_insert_eq.
Qed.

Lemma getIDFunc_total t s :
  exists a s1, _shadowtorpreload_getIDFunc t s = Ok (Z.pos a) s1 /\ tls s1 !! t = Some a.
Proof.
  unfold _shadowtorpreload_getIDFunc. destruct (tls s !! t) as [a|] eqn:Ht.
  - rewrite (bind_Ok _ _ _ _ _ (getWorker_live _ _ _ Ht)). by exists a, s.
  - rewrite (bind_Ok _ _ _ _ _ (getWorker_new _ _ Ht)).
    eexists _, _. split; [reflexivity|]. cbn. apply lookup_insert_eq.
Qed.

(** C9. In any state the process can reach, the id callback returns a value
    on every thread; two calls on the same thread return the same value as
    long as the thread has not ended in between, whatever else has happened;
    and a call on another thread, made while the first thread is still
    alive, returns a different value. *)
Theorem getIDFunc_stable_unique w pre s0 :
  run_lib pre (process_start w) = Ok tt s0 ->
  (forall t, exists id s1, _shadowtorpreload_getIDFunc t s0 = Ok id s1) /\
  (forall t cs id1 s1 s2 id2 s3,
     _shadowtorpreload_getIDFunc t s0 = Ok id1 s1 ->
     run_lib cs s1 = Ok tt s2 ->
     existsb (exit_of t) cs = false ->
     _shadowtorpreload_getIDFunc t s2 = Ok id2 s3 ->
     id2 = id1) /\
  (forall t1 t2 cs id1 s1 s2 id2 s3,
     t1 <> t2 ->
     _shadowtorpreload_getIDFunc t1 s0 = Ok id1 s1 ->
     run_lib cs s1 = Ok tt s2 ->
     existsb (exit_of t1) cs = false ->
     _shadowtorpreload_getIDFunc t2 s2 = Ok id2 s3 ->
     id2 <> id1).
Proof.
  intros Hpre.
  assert (Hwf0 : tls_wf s0) by (eapply run_lib_wf; [done|apply tls_wf_process_start]).
  split; [|split].
  - intros t. destruct (getIDFunc_total t s0) as (a & s1 & H & _). eauto.
  - intros t cs id1 s1 s2 id2 s3 H1 Hrun Hex H2.
    destruct (getIDFunc_inv _ _ _ _ H1) as (a1 & -> & Ht1).
    pose proof (run_lib_keeps _ _ _ _ _ Hrun Hex Ht1) as Ht2.
    unfold _shadowtorpreload_getIDFunc in H2.
    rewrite (bind_Ok _ _ _ _ _ (getWorker_live _ _ _ Ht2)) in H2.
    by injection H2 as <- _.
  - intros t1 t2 cs id1 s1 s2 id2 s3 Hne H1 Hrun Hex H2.
    destruct (getIDFunc_inv _ _ _ _ H1) as (a1 & -> & Ht1).
    destruct (getIDFunc_inv _ _ _ _ H2) as (a2 & -> & Ht2).
    assert (Hwf1 : tls_wf s1) by (by apply (framed_getIDFunc t1 _ _ _ _ H1)).
    assert (Hwf2 : tls_wf s2) by (by eapply run_lib_wf).
    destruct (framed_getIDFunc t1 _ _ _ _ H2) as [Hwf3 Hkeep].
    pose proof (run_lib_keeps _ _ _ _ _ Hrun Hex Ht1) as Ht1'.
    apply Hkeep in Ht1'. destruct (Hwf3 Hwf2) as [Hinj _].
    intros [= <-]. apply Hne. eauto.
Qed.

End Registry.

(** ** spawn_func *)

(** C10. spawn_func returns -1 whatever its arguments, and leaves the whole
    state, the trace of delegate calls included, as it was: the thread's
    resolved spawn_func delegate is not called. *)
Theorem spawn_func_always_fails t func data s :
  spawn_func t func data s = Ok (-1) s.
Proof. reflexivity. Qed.

(** ** The stand-ins: evdns_base_resolve_ipv4 and the RAND family *)

Section StandinsProperties.
Context {L : Libc E}.

(** The resolver never reports a result: whatever getaddrinfo answers, the
    call returns NULL and the callback is not called. With a callback the
    only effect is the getaddrinfo call itself; without one there is none. *)
Theorem evdns_base_resolve_ipv4_never_resolves base name flags callback ptr s :
  evdns_base_resolve_ipv4 base name flags callback ptr s
  = Ok 0 (if present callback
          then with_world (getaddrinfo name (world s)).2 s
          else s).
Proof.
  unfold evdns_base_resolve_ipv4, getaddrinfo_call, extern.
  destruct callback as [f|]; cbn [present].
  - unfold mbind, M_bind. destruct (getaddrinfo name (world s)) as [info w1].
    reflexivity.
  - reflexivity.
Qed.

Lemma length_gint_bytes r : length (gint_bytes r) = 4%nat.
Proof. reflexivity. Qed.

Lemma memmove_into_fits buf off src s :
  0 <= off -> off + Z.of_nat (length src) <= Z.of_nat (length buf) ->
  memmove_into buf off src s
  = Ok (take (Z.to_nat off) buf ++ src ++ drop (Z.to_nat off + length src) buf) s.
Proof.
  intros H0 H1. unfold memmove_into.
  destruct (Z.leb_spec 0 off); [|lia].
  destruct (Z.leb_spec (off + Z.of_nat (length src)) (Z.of_nat (length buf))); [|lia].
  reflexivity.
Qed.

Lemma chunks_step rem :
  0 < rem -> chunks rem = S (chunks (rem - Z.min rem 4)).
Proof.
  intros Hr. unfold chunks. destruct (Z.le_gt_cases 4 rem) as [H4|H4].
  - rewrite Z.min_r by lia.
    replace (rem + 3) with ((rem - 4 + 3) + 1 * 4) by lia.
    rewrite Z.div_add by lia.
    rewrite Z2Nat.inj_add; [|apply Z.div_pos; lia|lia]. cbn. lia.
  - rewrite Z.min_l by lia.
    replace (rem - rem + 3) with 3 by lia.
    assert ((rem + 3) / 4 = 1) as ->; [|reflexivity].
    symmetry. apply Z.div_unique with (r := rem - 1); lia.
Qed.

(** The loop, started with [bytesWritten] bytes done: the rest of the
    requested bytes is filled from successive rand() values. *)
Lemma getRandomBytes_loop_fill numBytes fuel : forall buf bytesWritten s,
  0 <= bytesWritten <= numBytes ->
  numBytes <= Z.of_nat (length buf) ->
  numBytes - bytesWritten <= Z.of_nat fuel ->
  let drawn := rands (chunks (numBytes - bytesWritten)) (world s) in
  getRandomBytes_loop fuel buf numBytes bytesWritten s
  = Ok (Some (take (Z.to_nat bytesWritten) buf
              ++ take (Z.to_nat (numBytes - bytesWritten)) (concat (gint_bytes <$> drawn.1))
              ++ drop (Z.to_nat numBytes) buf))
      (with_world drawn.2 s).
Proof.
  induction fuel as [|fuel IH]; intros buf bw s Hbw Hlen Hfuel drawn.
  - assert (bw = numBytes) as -> by lia. subst drawn.
    cbn [getRandomBytes_loop]. destruct (Z.gtb_spec numBytes numBytes); [lia|].
    rewrite Z.sub_diag. change (chunks 0) with O.
    cbn [rands fst snd fmap list_fmap concat]. rewrite take_nil. cbn [app].
    rewrite take_drop. by destruct s.
  - cbn [getRandomBytes_loop]. destruct (Z.gtb_spec numBytes bw) as [Hgt|Hle].
    + set (c := Z.min (numBytes - bw) 4).
      assert (Hc : 1 <= c <= 4 /\ c <= numBytes - bw) by (unfold c; lia).
      subst drawn. rewrite (chunks_step (numBytes - bw)) by lia. fold c.
      cbn [rands]. unfold rand_call, extern. unfold mbind at 1. unfold M_bind.
      destruct (rand (world s)) as [r w1] eqn:Hr.
      assert (Hsrc : length (take (Z.to_nat c) (gint_bytes r)) = Z.to_nat c).
      { rewrite length_take, length_gint_bytes. lia. }
      erewrite bind_Ok; last first.
      { apply memmove_into_fits; [lia|]. rewrite Hsrc. lia. }
      rewrite IH; [|lia|rewrite !length_app, length_take, Hsrc, length_drop; lia
                   |lia].
      cbn [world with_world].
      replace (numBytes - (bw + c)) with (numBytes - bw - c) by lia.
      destruct (rands (chunks (numBytes - bw - c)) w1) as [rs w2]. cbn [fst snd].
      f_equal.
      * f_equal.
        rewrite Hsrc.
        rewrite (take_app_ge (take (Z.to_nat bw) buf)) by (rewrite length_take; lia).
        rewrite length_take.
        replace (Z.to_nat bw `min` length buf)%nat with (Z.to_nat bw) by lia.
        replace (Z.to_nat (bw + c) - Z.to_nat bw)%nat with (Z.to_nat c) by lia.
        rewrite (take_app_ge (take (Z.to_nat c) (gint_bytes r))) by (rewrite Hsrc; lia).
        rewrite Hsrc, Nat.sub_diag, take_0, app_nil_r, <- app_assoc. f_equal.
        cbn [fmap list_fmap concat].
        rewrite app_assoc. f_equal.
        -- destruct (Z.le_gt_cases 4 (numBytes - bw)) as [H4|H4].
           ++ assert (c = 4) as -> by (unfold c; lia).
              rewrite (take_app_ge (gint_bytes r)) by (rewrite length_gint_bytes; lia).
              rewrite length_gint_bytes.
              rewrite (firstn_all2 (gint_bytes r)) by (rewrite length_gint_bytes; lia).
              f_equal. f_equal. lia.
           ++ assert (c = numBytes - bw) as Hceq by (unfold c; lia).
              rewrite Hceq.
              replace (numBytes - bw - (numBytes - bw)) with 0 by lia.
              rewrite take_0, app_nil_r.
              rewrite take_app_le by (rewrite length_gint_bytes; lia). done.
        -- rewrite !drop_app_ge; rewrite ?length_take, ?length_gint_bytes; try lia.
           rewrite drop_drop. f_equal. lia.
    + assert (bw = numBytes) as -> by lia. subst drawn.
      rewrite Z.sub_diag. change (chunks 0) with O.
      cbn [rands fst snd fmap list_fmap concat]. rewrite take_nil. cbn [app].
      rewrite take_drop. by destruct s.
Qed.

Lemma getRandomBytes_run buf numBytes s :
  0 <= numBytes <= Z.of_nat (length buf) ->
  let drawn := rands (chunks numBytes) (world s) in
  _shadowtorpreload_getRandomBytes buf numBytes s
  = Ok (Some (1, take (Z.to_nat numBytes) (concat (gint_bytes <$> drawn.1))
                 ++ drop (Z.to_nat numBytes) buf))
      (with_world drawn.2 s).
Proof.
  intros Hn drawn. unfold _shadowtorpreload_getRandomBytes.
  erewrite bind_Ok; last first.
  { apply getRandomBytes_loop_fill; lia. }
  rewrite Z.sub_0_r. reflexivity.
Qed.

(** For a request that fits the buffer, getRandomBytes returns 1; it
    overwrites exactly the first numBytes bytes with the bytes of successive
    rand() values, each value giving up to four bytes, lowest byte first; it
    calls rand() once per started group of four bytes and does nothing else. *)
Theorem getRandomBytes_fills buf numBytes s :
  0 <= numBytes <= Z.of_nat (length buf) ->
  let drawn := rands (chunks numBytes) (world s) in
  _shadowtorpreload_getRandomBytes buf numBytes s
  = Ok (Some (1, take (Z.to_nat numBytes) (concat (gint_bytes <$> drawn.1))
                 ++ drop (Z.to_nat numBytes) buf))
      (with_world drawn.2 s).
Proof. apply getRandomBytes_run. Qed.

(** A request for no bytes, or for a negative number of bytes, returns 1
    without calling rand() and without touching the buffer. *)
Theorem getRandomBytes_nothing buf numBytes s :
  numBytes <= 0 ->
  _shadowtorpreload_getRandomBytes buf numBytes s = Ok (Some (1, buf)) s.
Proof.
  intros Hn. unfold _shadowtorpreload_getRandomBytes.
  replace (Z.to_nat numBytes) with O by lia. cbn [getRandomBytes_loop].
  destruct (Z.gtb_spec numBytes 0); [lia|]. reflexivity.
Qed.

Lemma lookup_concat_gint_bytes rs : forall i : nat,
  concat (gint_bytes <$> rs) !! i
  = rs !! (i / 4)%nat ≫= fun r => gint_bytes r !! (i mod 4)%nat.
Proof.
  induction rs as [|r rs IH]; intros i; [done|].
  cbn [fmap list_fmap concat].
  destruct (Nat.lt_ge_cases i 4) as [Hlt|Hge].
  - rewrite lookup_app_l by (rewrite length_gint_bytes; lia).
    rewrite Nat.div_small, Nat.mod_small by lia. done.
  - rewrite lookup_app_r by (rewrite length_gint_bytes; lia).
    rewrite length_gint_bytes, IH.
    assert (Hd : (i / 4 = S ((i - 4) / 4))%nat).
    { replace i with ((i - 4) + 1 * 4)%nat at 1 by lia.
      rewrite Nat.div_add by lia. lia. }
    assert (Hm : (i mod 4 = (i - 4) mod 4)%nat).
    { replace i with ((i - 4) + 1 * 4)%nat at 1 by lia.
      by rewrite Nat.Div0.mod_add. }
    by rewrite Hd, Hm.
Qed.

Lemma rands_range k : forall w,
  (forall w, 0 <= (rand w).1 <= 2147483647) ->
  Forall (fun r => 0 <= r <= 2147483647) (rands k w).1.
Proof.
  induction k as [|k IH]; intros w Hr; cbn [rands]; [by constructor|].
  specialize (Hr w) as Hw. destruct (rand w) as [r w1].
  specialize (IH w1 Hr). destruct (rands k w1) as [rs w2]. by constructor.
Qed.

Lemma gint_bytes_range r (j : nat) b :
  0 <= r <= 2147483647 ->
  gint_bytes r !! j = Some b ->
  0 <= b <= 255 /\ (j = 3%nat -> b <= 127).
Proof.
  intros Hr Hb.
  assert (Hbyte : forall k, 0 <= k -> 0 <= Z.land (Z.shiftr r k) 255 <= 255).
  { intros k Hk. change 255 with (Z.ones 8) at 1 2. rewrite Z.land_ones by lia.
    pose proof (Z.mod_pos_bound (Z.shiftr r k) (2 ^ 8)). lia. }
  assert (Htop : Z.land (Z.shiftr r 24) 255 <= 127).
  { change 255 with (Z.ones 8). rewrite Z.land_ones by lia.
    rewrite Z.shiftr_div_pow2 by lia.
    assert (r / 2 ^ 24 < 128) by (apply Z.div_lt_upper_bound; lia).
    assert (0 <= r / 2 ^ 24) by (apply Z.div_pos; lia).
    rewrite Z.mod_small; lia. }
  change (gint_bytes r)
    with [Z.land (Z.shiftr r 0) 255; Z.land (Z.shiftr r 8) 255;
          Z.land (Z.shiftr r 16) 255; Z.land (Z.shiftr r 24) 255] in Hb.
  destruct j as [|[|[|[|j]]]]; [| | | |done];
    injection Hb as <-; (split; [apply Hbyte; lia|]); intros; (done || lia).
Qed.

(** With a rand() that returns at most RAND_MAX = 2^31 - 1, as glibc's does,
    every byte written is a byte, and every fourth of them, the highest byte
    of each rand() value, is below 128: its top bit is never set. *)
Theorem getRandomBytes_top_bit buf numBytes s ret buf' s' :
  (forall w, 0 <= (rand w).1 <= 2147483647) ->
  0 <= numBytes <= Z.of_nat (length buf) ->
  _shadowtorpreload_getRandomBytes buf numBytes s = Ok (Some (ret, buf')) s' ->
  forall (i : nat) b,
    (i < Z.to_nat numBytes)%nat ->
    buf' !! i = Some b ->
    0 <= b <= 255 /\ ((i mod 4)%nat = 3%nat -> b <= 127).
Proof.
  intros Hrand Hn Hrun i b Hi Hb.
  rewrite getRandomBytes_run in Hrun by done.
  injection Hrun as _ <- _.
  pose proof (rands_range (chunks numBytes) (world s) Hrand) as Hrs.
  set (rs := (rands (chunks numBytes) (world s)).1) in *.
  assert (Hlen : (Z.to_nat numBytes <= length (concat (gint_bytes <$> rs)))%nat).
  { destruct (Nat.le_gt_cases (Z.to_nat numBytes) (length (concat (gint_bytes <$> rs))))
      as [|Hshort]; [done|].
    (* the loop lemma gives a buffer of the old length *)
    assert (length rs = chunks numBytes) as Hk.
    { subst rs. clear. generalize (world s). induction (chunks numBytes) as [|k IH];
        intros w; cbn [rands]; [done|].
      destruct (rand w) as [r w1]. specialize (IH w1).
      destruct (rands k w1). cbn in *. lia. }
    assert (length (concat (gint_bytes <$> rs)) = (4 * length rs)%nat) as Hc.
    { clear. induction rs as [|r rs IH]; [done|].
      cbn [fmap list_fmap concat]. rewrite length_app, length_gint_bytes, IH.
      cbn [length]. lia. }
    rewrite Hc, Hk in Hshort. unfold chunks in Hshort.
    assert (numBytes <= 4 * ((numBytes + 3) / 4)).
    { pose proof (Z.div_mod (numBytes + 3) 4).
      pose proof (Z.mod_pos_bound (numBytes + 3) 4). lia. }
    assert (0 <= (numBytes + 3) / 4) by (apply Z.div_pos; lia).
    lia. }
  rewrite lookup_app_l in Hb by (rewrite length_take; lia).
  rewrite lookup_take_lt in Hb by done.
  rewrite lookup_concat_gint_bytes in Hb.
  destruct (rs !! (i / 4)%nat) as [r|] eqn:Hr; [|done]. cbn in Hb.
  rewrite Forall_forall in Hrs.
  eapply gint_bytes_range; [|exact Hb].
  apply Hrs. by eapply list_elem_of_lookup_2.
Qed.

End StandinsProperties.

(** ** write_str_to_file: other paths, other threads, successive writes *)

(** The equation of a write to a path ending in cached-consensus. *)
Lemma write_str_to_file_canonical t fname str bin s a w f :
  g_str_has_suffix fname "cached-consensus" = true ->
  tls s !! t = Some a ->
  heap s !! a = Some w ->
  write_str_to_file_fp (vtable w) = Some f ->
  0 <= consensusCounter w < G_MAXINT ->
  let c := consensusCounter w in
  let newPath := (fname +:+ "." +:+ printf_03i c)%string in
  let aux := g_file_set_contents newPath str (world s) in
  let args := [VStr (Some fname); VStr (Some str); VInt bin] in
  let primary := f args aux.2 in
  write_str_to_file t fname str bin s
  = Ok primary.1
      {| tls := tls s;
         heap := <[a := set_consensusCounter (c + 1) w]> (heap s);
         shadowtorpreloadGlobalState := shadowtorpreloadGlobalState s;
         world := primary.2;
         trace := trace s
                  ++ EvFileSetContents newPath str aux.1
                  :: (if aux.1 then [] else [EvLogWarn newPath])
                  ++ [EvDelegate "write_str_to_file" args] |}.
Proof.
  intros Hsuf Ht Ha Hf Hc c newPath aux args primary.
  unfold write_str_to_file. rewrite Hsuf. subst primary aux.
  destruct (g_file_set_contents newPath str (world s)) as [ok w1] eqn:Haux.
  cbn [fst snd].
  erewrite bind_Ok; last first.
  { rewrite (bind_Ok _ _ _ _ _ (consensusCounter_postinc_live _ _ _ _ Ht Ha)).
    fold c newPath.
    rewrite wrap_gint_id by (unfold gint_range, G_MININT, G_MAXINT in *; lia).
    unfold g_file_set_contents_call, extern.
    unfold mbind, M_bind. cbn [world with_heap]. rewrite Haux. cbn [emit].
    instantiate (1 := {| tls := tls s;
                 heap := <[a := set_consensusCounter (c + 1) w]> (heap s);
                 shadowtorpreloadGlobalState := shadowtorpreloadGlobalState s;
                 world := w1;
                 trace := trace s ++ EvFileSetContents newPath str ok
                          :: (if ok then [] else [EvLogWarn newPath]) |}).
    instantiate (1 := tt).
    destruct ok; msimpl; rewrite <- ?app_assoc; reflexivity. }
  erewrite bind_Ok; last first.
  { eapply vtable_entry_live; [exact Ht|]. cbn. apply lookup_insert_eq. }
  cbn [vtable set_consensusCounter]. rewrite Hf.
  unfold call. msimpl. fold args.
  destruct (f args w1); cbn. rewrite <- app_assoc. reflexivity.
Qed.

(** A write to a path that does not end in cached-consensus writes no side
    file and leaves the counter alone: the delegate is called with the
    arguments as they came, and its result is returned. *)
Theorem write_str_to_file_plain t fname str bin s a w f :
  g_str_has_suffix fname "cached-consensus" = false ->
  tls s !! t = Some a ->
  heap s !! a = Some w ->
  write_str_to_file_fp (vtable w) = Some f ->
  let args := [VStr (Some fname); VStr (Some str); VInt bin] in
  write_str_to_file t fname str bin s
  = Ok (f args (world s)).1
      (with_trace (trace s ++ [EvDelegate "write_str_to_file" args])
         (with_world (f args (world s)).2 s)).
Proof.
  intros Hsuf Ht Ha Hf args. unfold write_str_to_file. rewrite Hsuf, bind_skip.
  erewrite bind_Ok by (by eapply vtable_entry_live). rewrite Hf.
  unfold call. msimpl. fold args. by destruct (f args (world s)).
Qed.

Lemma vtable_entry_new t f s :
  tls s !! t = None ->
  let a := g_new0_PreloadWorker (dom (heap s)) in
  vtable_entry t f s
  = Ok (f null_vtable)
      {| tls := <[t := a]> (tls s); heap := <[a := zero_worker]> (heap s);
         shadowtorpreloadGlobalState := shadowtorpreloadGlobalState s;
         world := world s; trace := trace s |}.
Proof.
  intros Ht a. unfold vtable_entry.
  rewrite (bind_Ok _ _ _ _ _ (getWorker_new _ _ Ht)).
  by erewrite (bind_Ok _ _ _ zero_worker)
    by (apply load_live; cbn; apply lookup_insert_eq).
Qed.

Lemma consensusCounter_postinc_new t s :
  tls s !! t = None ->
  let a := g_new0_PreloadWorker (dom (heap s)) in
  consensusCounter_postinc t s
  = Ok 0 {| tls := <[t := a]> (tls s);
            heap := <[a := set_consensusCounter (wrap_gint (0 + 1)) zero_worker]> (heap s);
            shadowtorpreloadGlobalState := shadowtorpreloadGlobalState s;
            world := world s; trace := trace s |}.
Proof.
  intros Ht a. unfold consensusCounter_postinc.
  rewrite (bind_Ok _ _ _ _ _ (getWorker_new _ _ Ht)).
  erewrite (bind_Ok _ _ _ zero_worker)
    by (apply load_live; cbn; apply lookup_insert_eq).
  erewrite bind_Ok by (eapply store_live; cbn; apply lookup_insert_eq).
  cbn. by rewrite insert_insert_eq.
Qed.

(** On a thread that has no worker yet (shadowtorpreload_init has not run
    on it) the write ends in a call through the NULL write_str_to_file entry
    of the worker that the call itself creates, for every path. *)
Theorem write_str_to_file_unbound t fname str bin s :
  tls s !! t = None ->
  write_str_to_file t fname str bin s = Undef (NullCall "write_str_to_file").
Proof.
  intros Ht. unfold write_str_to_file.
  destruct (g_str_has_suffix fname "cached-consensus").
  - destruct (g_file_set_contents (fname +:+ "." +:+ printf_03i 0) str (world s))
      as [ok w1] eqn:Haux.
    destruct ok.
    all: erewrite bind_Ok; last first;
      [ rewrite (bind_Ok _ _ _ _ _ (consensusCounter_postinc_new _ _ Ht));
        unfold g_file_set_contents_call, extern, mbind, M_bind; cbn [world];
        rewrite Haux; msimpl; reflexivity |].
    all: erewrite bind_Ok; last first;
      [ eapply vtable_entry_live; cbn; apply lookup_insert_eq |].
    all: reflexivity.
  - rewrite bind_skip.
    by rewrite (bind_Ok _ _ _ _ _ (vtable_entry_new _ write_str_to_file_fp _ Ht)).
Qed.

Lemma scan_zeros k (d : string) :
  scan_decimal (zeros k +:+ d) = scan_decimal d.
Proof.
  induction k as [|k IH]; [done|]. unfold scan_decimal in *.
  cbn [zeros].
  change (String "0" (zeros k) +:+ d)%string with (String "0" (zeros k +:+ d)).
  cbn [NilEmpty.uint_of_string].
  rewrite <- IH. by destruct (NilEmpty.uint_of_string (zeros k +:+ d)).
Qed.

Lemma scan_decimal_decimal n : scan_decimal (decimal n) = Some n.
Proof.
  unfold scan_decimal, decimal, NilZero.string_of_uint.
  destruct (N.to_uint n) as [| | | | | | | | | |] eqn:Hn;
    rewrite <- ?Hn; [|rewrite NilEmpty.usu; cbn; by rewrite DecimalN.Unsigned.of_to..].
  cbn. f_equal. rewrite <- (DecimalN.Unsigned.of_to n), Hn. done.
Qed.

(** The number can be read back from what %03i prints: for a counter that
    is not negative, scanning the printed digits gives the counter. So two
    different counters never print the same. *)
Theorem printf_03i_scan c :
  0 <= c ->
  scan_decimal (printf_03i c) = Some (Z.to_N c) /\
  forall c', 0 <= c' -> printf_03i c' = printf_03i c -> c' = c.
Proof.
  assert (Hscan : forall c, 0 <= c -> scan_decimal (printf_03i c) = Some (Z.to_N c)).
  { intros c0 Hc. unfold printf_03i. destruct (Z.ltb_spec c0 0); [lia|].
    unfold zero_pad. by rewrite scan_zeros, scan_decimal_decimal. }
  intros Hc. split; [by apply Hscan|].
  intros c' Hc' Heq.
  pose proof (Hscan c Hc) as H1. pose proof (Hscan c' Hc') as H2.
  rewrite Heq, H1 in H2. injection H2. lia.
Qed.

Lemma side_paths_app tr1 tr2 :
  side_paths (tr1 ++ tr2) = side_paths tr1 ++ side_paths tr2.
Proof. induction tr1 as [|[] tr1 IH]; cbn; by rewrite ?IH. Qed.

Lemma string_app_inv_head (p a b : string) : (p +:+ a = p +:+ b)%string -> a = b.
Proof. induction p as [|ch p IH]; cbn; [done|]. intros [= H]. auto. Qed.

Lemma printf_03i_inj c c' :
  0 <= c -> 0 <= c' -> printf_03i c = printf_03i c' -> c = c'.
Proof.
  intros Hc Hc' Heq.
  assert (Hscan : forall c, 0 <= c -> scan_decimal (printf_03i c) = Some (Z.to_N c)).
  { intros c0 H0. unfold printf_03i. destruct (Z.ltb_spec c0 0); [lia|].
    unfold zero_pad. by rewrite scan_zeros, scan_decimal_decimal. }
  pose proof (Hscan c Hc) as H1. pose proof (Hscan c' Hc') as H2.
  rewrite Heq, H2 in H1. injection H1. lia.
Qed.

Lemma write_many_run t fname str bin f n : forall s a w,
  g_str_has_suffix fname "cached-consensus" = true ->
  tls s !! t = Some a ->
  heap s !! a = Some w ->
  write_str_to_file_fp (vtable w) = Some f ->
  0 <= consensusCounter w ->
  consensusCounter w + Z.of_nat n <= G_MAXINT ->
  exists s',
    write_many t fname str bin n s = Ok tt s' /\
    tls s' !! t = Some a /\
    heap s' !! a = Some (set_consensusCounter (consensusCounter w + Z.of_nat n) w) /\
    side_paths (trace s')
    = side_paths (trace s)
      ++ ((fun i => (fname +:+ "." +:+ printf_03i (consensusCounter w + i))%string)
            <$> seqZ 0 (Z.of_nat n)).
Proof.
  induction n as [|n IH]; intros s a w Hsuf Ht Ha Hf Hc Hmax.
  - exists s. cbn. rewrite app_nil_r, Z.add_0_r. repeat split; auto.
    rewrite Ha. by destruct w.
  - cbn [write_many].
    pose proof (write_str_to_file_canonical t fname str bin s a w f Hsuf Ht Ha Hf) as Hw.
    cbn zeta in Hw. rewrite (bind_Ok _ _ _ _ _ (Hw ltac:(unfold G_MAXINT in *; lia))).
    clear Hw.
    match goal with |- context [write_many _ _ _ _ _ ?s1] =>
      destruct (IH s1 a (set_consensusCounter (consensusCounter w + 1) w))
        as (s' & Hrun & Ht' & Ha' & Hp); [exact Hsuf|exact Ht| | | | |]
    end.
    { cbn. apply lookup_insert_eq. }
    { exact Hf. }
    { cbn. lia. }
    { cbn. lia. }
    exists s'. split; [exact Hrun|]. split; [exact Ht'|]. split.
    { rewrite Ha'. cbn. f_equal. unfold set_consensusCounter. cbn. f_equal. lia. }
    rewrite Hp. cbn [trace consensusCounter set_consensusCounter].
    rewrite side_paths_app. cbn [side_paths].
    rewrite side_paths_app.
    assert (Hnone : forall (ok : bool) p,
              side_paths ((if ok then [] else [EvLogWarn p])
                          ++ [EvDelegate "write_str_to_file"
                                [VStr (Some fname); VStr (Some str); VInt bin]]) = []).
    { by intros []. }
    rewrite <- side_paths_app, Hnone.
    rewrite <- app_assoc. f_equal. cbn [app].
    rewrite (seqZ_cons 0 (Z.of_nat (S n))) by lia.
    cbn [fmap list_fmap]. rewrite Z.add_0_r. f_equal.
    replace (Z.pred (Z.of_nat (S n))) with (Z.of_nat n) by lia.
    rewrite <- (fmap_add_seqZ 1 0), <- list_fmap_compose.
    apply list_fmap_ext. intros _ i _. cbn. do 3 f_equal. lia.
Qed.

(** n writes of a cached-consensus path in a row, by a bound thread whose
    counter is c: the side files go to the paths numbered c, c+1, ...,
    c+n-1, which are all different, so no side file of the run is
    overwritten by a later write of the run; the counter ends at c+n. *)
Theorem write_many_side_paths t fname str bin n s a w f :
  g_str_has_suffix fname "cached-consensus" = true ->
  tls s !! t = Some a ->
  heap s !! a = Some w ->
  write_str_to_file_fp (vtable w) = Some f ->
  0 <= consensusCounter w ->
  consensusCounter w + Z.of_nat n <= G_MAXINT ->
  let path i := (fname +:+ "." +:+ printf_03i (consensusCounter w + i))%string in
  exists s',
    write_many t fname str bin n s = Ok tt s' /\
    side_paths (trace s') = side_paths (trace s) ++ (path <$> seqZ 0 (Z.of_nat n)) /\
    NoDup (path <$> seqZ 0 (Z.of_nat n)) /\
    worker_of s' t
    = Some (set_consensusCounter (consensusCounter w + Z.of_nat n) w).
Proof.
  intros Hsuf Ht Ha Hf Hc Hmax path.
  destruct (write_many_run t fname str bin f n s a w) as (s' & Hrun & Ht' & Ha' & Hp);
    try done.
  exists s'. split; [exact Hrun|]. split; [exact Hp|]. split.
  - apply NoDup_fmap_2_strong; [|apply NoDup_seqZ].
    intros i j [Hi _]%elem_of_seqZ [Hj _]%elem_of_seqZ Heq. unfold path in Heq.
    apply string_app_inv_head, string_app_inv_head in Heq.
    apply printf_03i_inj in Heq; lia.
  - unfold worker_of. by rewrite Ht'.
Qed.

(** ** The coordinator over whole runs *)

(** A cleanup call by a bound thread, whatever the node count. *)
Lemma crypto_global_cleanup_exact t s a w f :
  tls s !! t = Some a -> heap s !! a = Some w ->
  crypto_global_cleanup_fp (vtable w) = Some f ->
  let g := shadowtorpreloadGlobalState s in
  let n' := wrap_gint (nTorCryptoNodes g - 1) in
  crypto_global_cleanup t s
  = if n' =? 0
    then Ok (f [] (world s)).1
           {| tls := tls s; heap := heap s;
              shadowtorpreloadGlobalState := set_nTorCryptoNodes n' g;
              world := (f [] (world s)).2;
              trace := trace s ++ [EvDelegate "crypto_global_cleanup" []] |}
    else Ok 0 (with_global (set_nTorCryptoNodes n' g) s).
Proof.
  intros Ht Ha Hf g n'. unfold crypto_global_cleanup.
  rewrite bind_modify_global, bind_get_global.
  cbn [shadowtorpreloadGlobalState with_global nTorCryptoNodes set_nTorCryptoNodes].
  fold g n'. destruct (n' =? 0); [|reflexivity].
  erewrite bind_Ok by (eapply vtable_entry_live; cbn; eauto). rewrite Hf. cbn [present].
  erewrite bind_Ok by (eapply vtable_entry_live; cbn; eauto). rewrite Hf.
  unfold call. msimpl. by destruct (f [] (world s)).
Qed.

(** One step of a run by a bound thread, with the cleanup delegate calls it
    adds. *)
Lemma coord_step_cleanups c s :
  bound s (caller c) = true ->
  Z.abs (nTorCryptoNodes (shadowtorpreloadGlobalState s)) + 1 <= G_MAXINT ->
  let n' := nTorCryptoNodes (shadowtorpreloadGlobalState s)
            + (if is_init c then 1 else -1) in
  exists r s',
    coord_step c s = Ok r s' /\ tls s' = tls s /\ heap s' = heap s /\
    nTorCryptoNodes (shadowtorpreloadGlobalState s') = n' /\
    (is_init c = false -> n' <> 0 -> r = 0) /\
    delegate_calls "crypto_global_cleanup" (trace s')
    = (delegate_calls "crypto_global_cleanup" (trace s)
       + if negb (is_init c) && (n' =? 0)%Z then 1 else 0)%nat.
Proof.
  intros Hb Hn n'.
  apply bound_inv in Hb as (a & w & fssl & finit & fclean & Ht & Ha & Hssl & Hinit & Hclean).
  destruct c as [t u nm d|t]; cbn [coord_step caller is_init negb andb] in *.
  - destruct (sslInitializedGlobal (shadowtorpreloadGlobalState s)) eqn:Hl.
    + rewrite crypto_global_init_again by done.
      eexists _, _. split; [reflexivity|]. cbn.
      rewrite wrap_gint_id by (unfold gint_range, G_MININT, G_MAXINT in *; lia).
      repeat split; auto; (done || lia).
    + erewrite crypto_global_init_first by eauto.
      eexists _, _. split; [reflexivity|]. cbn.
      rewrite wrap_gint_id by (unfold gint_range, G_MININT, G_MAXINT in *; lia).
      repeat split; auto; try done.
      rewrite delegate_calls_app. cbn. lia.
  - erewrite crypto_global_cleanup_exact by eauto. cbn zeta.
    rewrite wrap_gint_id by (unfold gint_range, G_MININT, G_MAXINT in *; lia).
    replace (nTorCryptoNodes (shadowtorpreloadGlobalState s) - 1) with n'
      by (subst n'; lia).
    destruct (Z.eqb_spec n' 0) as [H0|H0].
    + eexists _, _. split; [reflexivity|]. cbn.
      repeat split; auto; try done.
      rewrite delegate_calls_app. cbn. lia.
    + eexists _, _. split; [reflexivity|]. cbn.
      repeat split; auto.
Qed.

Lemma run_calls_cleanups cs : forall s,
  forallb (fun c => bound s (caller c)) cs = true ->
  Z.abs (nTorCryptoNodes (shadowtorpreloadGlobalState s)) + Z.of_nat (length cs)
    <= G_MAXINT ->
  exists rs s1,
    run_calls cs s = Ok rs s1 /\
    tls s1 = tls s /\ heap s1 = heap s /\
    nTorCryptoNodes (shadowtorpreloadGlobalState s1)
      = nTorCryptoNodes (shadowtorpreloadGlobalState s) + node_delta cs /\
    delegate_calls "crypto_global_cleanup" (trace s1)
    = (delegate_calls "crypto_global_cleanup" (trace s)
       + zero_hits (nTorCryptoNodes (shadowtorpreloadGlobalState s)) cs)%nat.
Proof.
  induction cs as [|c cs IH]; intros s Hb Hn.
  { exists [], s. cbn. repeat split; auto with lia. }
  cbn [forallb] in Hb. apply andb_prop in Hb as [Hc Hb]. cbn [length] in Hn.
  destruct (coord_step_cleanups c s Hc) as (r & s' & Hr & Ht & Hh & Hcnt & _ & Htr); [lia|].
  destruct (IH s') as (rs & s1 & Hrun & Ht1 & Hh1 & Hcnt1 & Htr1).
  { by rewrite (all_bound_ext s s'). }
  { rewrite Hcnt. destruct (is_init c); lia. }
  exists (r :: rs), s1. rewrite (run_calls_cons _ _ _ _ _ Hr), Hrun.
  split; [done|]. split; [congruence|]. split; [congruence|].
  split. { rewrite Hcnt1, Hcnt. cbn [node_delta]. lia. }
  rewrite Htr1, Htr, Hcnt. cbn [zero_hits].
  destruct (negb (is_init c) && _); lia.
Qed.

(** In any run of init and cleanup calls by bound threads, the real cleanup
    is called as often as a cleanup call brings the node count to 0, and at
    no other time. *)
Theorem crypto_global_cleanup_calls s0 cs :
  forallb (fun c => bound s0 (caller c)) cs = true ->
  Z.abs (nTorCryptoNodes (shadowtorpreloadGlobalState s0)) + Z.of_nat (length cs)
    <= G_MAXINT ->
  exists rs s1,
    run_calls cs s0 = Ok rs s1 /\
    nTorCryptoNodes (shadowtorpreloadGlobalState s1)
      = nTorCryptoNodes (shadowtorpreloadGlobalState s0) + node_delta cs /\
    delegate_calls "crypto_global_cleanup" (trace s1)
    = (delegate_calls "crypto_global_cleanup" (trace s0)
       + zero_hits (nTorCryptoNodes (shadowtorpreloadGlobalState s0)) cs)%nat.
Proof.
  intros Hb Hn.
  destruct (run_calls_cleanups cs s0 Hb Hn) as (rs & s1 & Hrun & _ & _ & Hcnt & Htr).
  by exists rs, s1.
Qed.

Lemma node_delta_app cs1 cs2 :
  node_delta (cs1 ++ cs2) = node_delta cs1 + node_delta cs2.
Proof.
  induction cs1 as [|c cs1 IH]; cbn [app node_delta]; [lia|]. rewrite IH. lia.
Qed.

Lemma zero_hits_app cs1 : forall n cs2,
  zero_hits n (cs1 ++ cs2)
  = (zero_hits n cs1 + zero_hits (n + node_delta cs1) cs2)%nat.
Proof.
  induction cs1 as [|c cs1 IH]; intros n cs2; cbn [app zero_hits node_delta].
  - by rewrite Z.add_0_r.
  - rewrite IH. rewrite Z.add_assoc. destruct (negb (is_init c) && _); lia.
Qed.

Lemma zero_hits_inits cs n :
  forallb is_init cs = true -> zero_hits n cs = O /\ node_delta cs = Z.of_nat (length cs).
Proof.
  revert n. induction cs as [|c cs IH]; intros n H; cbn in *; [done|].
  apply andb_prop in H as [Hc Hcs]. rewrite Hc. cbn.
  destruct (IH (n + 1) Hcs) as [-> ->]. split; lia.
Qed.

Lemma zero_hits_cleanups cs : forall n,
  forallb (fun c => negb (is_init c)) cs = true ->
  (Z.of_nat (length cs) < n -> zero_hits n cs = O) /\
  (cs <> [] -> Z.of_nat (length cs) = n -> zero_hits n cs = 1%nat) /\
  node_delta cs = - Z.of_nat (length cs).
Proof.
  induction cs as [|c cs IH]; intros n H; cbn [zero_hits node_delta length forallb] in *.
  - repeat split; auto. by intros [].
  - apply andb_prop in H as [Hc Hcs]. apply negb_true_iff in Hc. rewrite Hc. cbn [negb andb].
    destruct (IH (n + -1) Hcs) as (Hlt & Heq & Hd). rewrite Hd.
    split; [|split; [|lia]].
    + intros Hn. destruct (Z.eqb_spec (n + -1) 0); [lia|]. apply Hlt. lia.
    + intros _ Hn. destruct cs as [|c' cs].
      * cbn in Hn. destruct (Z.eqb_spec (n + -1) 0); [done|lia].
      * destruct (Z.eqb_spec (n + -1) 0); [cbn [length] in Hn; lia|].
        apply Heq; [done|lia].
Qed.

(** N init calls followed by N cleanup calls, by bound threads, from a node
    count of 0: the count is back at 0, and the real cleanup has been called
    exactly once. *)
Theorem crypto_global_cleanup_balanced s0 inits cleanups :
  nTorCryptoNodes (shadowtorpreloadGlobalState s0) = 0 ->
  forallb is_init inits = true ->
  forallb (fun c => negb (is_init c)) cleanups = true ->
  length cleanups = length inits ->
  inits <> [] ->
  forallb (fun c => bound s0 (caller c)) (inits ++ cleanups) = true ->
  2 * Z.of_nat (length inits) <= G_MAXINT ->
  exists rs s1,
    run_calls (inits ++ cleanups) s0 = Ok rs s1 /\
    nTorCryptoNodes (shadowtorpreloadGlobalState s1) = 0 /\
    delegate_calls "crypto_global_cleanup" (trace s1)
    = S (delegate_calls "crypto_global_cleanup" (trace s0)).
Proof.
  intros H0 Hi Hc Hlen Hne Hb Hmax.
  destruct (run_calls_cleanups (inits ++ cleanups) s0 Hb)
    as (rs & s1 & Hrun & _ & _ & Hcnt & Htr).
  { rewrite H0, length_app. cbn. lia. }
  exists rs, s1. split; [done|].
  destruct (zero_hits_inits inits 0 Hi) as [Hzi Hdi].
  destruct (zero_hits_cleanups cleanups (Z.of_nat (length inits)) Hc) as (_ & Hzc & Hdc).
  assert (Hd : node_delta (inits ++ cleanups) = 0).
  { rewrite node_delta_app, Hdi, Hdc, Hlen. lia. }
  split. { rewrite Hcnt, H0, Hd. lia. }
  rewrite Htr, H0, zero_hits_app, Hzi, Hdi, Z.add_0_l, Hzc; [lia| |lia].
  intros ->. destruct inits; [done|cbn in Hlen; lia].
Qed.

(** A first init call made by a thread without a worker: the worker it
    creates has no entries, so the call closes the latch, returns 0 and calls
    nothing. *)
Lemma crypto_global_init_unbound t useAccel accelName accelDir s :
  tls s !! t = None ->
  sslInitializedGlobal (shadowtorpreloadGlobalState s) = false ->
  let a := g_new0_PreloadWorker (dom (heap s)) in
  let g := shadowtorpreloadGlobalState s in
  crypto_global_init t useAccel accelName accelDir s
  = Ok 0 {| tls := <[t := a]> (tls s); heap := <[a := zero_worker]> (heap s);
            shadowtorpreloadGlobalState :=
              set_sslInitializedGlobal true
                (set_nTorCryptoNodes (wrap_gint (nTorCryptoNodes g + 1)) g);
            world := world s; trace := trace s |}.
Proof.
  intros Ht Hl a g. unfold crypto_global_init.
  rewrite bind_modify_global, bind_get_global.
  cbn [shadowtorpreloadGlobalState with_global sslInitializedGlobal set_nTorCryptoNodes].
  rewrite Hl. cbn [negb]. rewrite bind_modify_global.
  erewrite bind_Ok by (by apply vtable_entry_new).
  cbn [null_vtable tor_ssl_global_init_fp present]. rewrite bind_skip.
  erewrite bind_Ok by (eapply vtable_entry_live; cbn; apply lookup_insert_eq).
  reflexivity.
Qed.

(** If the first init call comes from a thread that has not been bound, it
    returns 0 without calling the real init, and closes the latch all the
    same: no later init or cleanup call by any bound thread makes the real
    init sequence. *)
Theorem crypto_global_init_unbound_first t useAccel accelName accelDir s :
  tls s !! t = None ->
  sslInitializedGlobal (shadowtorpreloadGlobalState s) = false ->
  exists s',
    crypto_global_init t useAccel accelName accelDir s = Ok 0 s' /\
    sslInitializedGlobal (shadowtorpreloadGlobalState s') = true /\
    trace s' = trace s /\ world s' = world s /\
    forall cs,
      forallb (fun c => bound s' (caller c)) cs = true ->
      Z.abs (nTorCryptoNodes (shadowtorpreloadGlobalState s')) + Z.of_nat (length cs)
        <= G_MAXINT ->
      exists rs s1,
        run_calls cs s' = Ok rs s1 /\
        forall name, name = "tor_ssl_global_init" \/ name = "crypto_global_init" ->
          delegate_calls name (trace s1) = delegate_calls name (trace s).
Proof.
  intros Ht Hl. eexists. split; [by apply crypto_global_init_unbound|].
  split; [done|]. split; [done|]. split; [done|].
  intros cs Hb Hn.
  destruct (run_calls_inv cs _ Hb Hn) as (rs & s1 & Hrun & _ & _ & _ & _ & _ & Htr).
  exists rs, s1. split; [exact Hrun|].
  intros name Hname. rewrite (Htr name Hname). cbn. lia.
Qed.

(** ** crypto_early_init over whole runs *)

(** The call that finds the early latch open. *)
Lemma crypto_early_init_first t s a w :
  sslInitializedEarly (shadowtorpreloadGlobalState s) = false ->
  tls s !! t = Some a -> heap s !! a = Some w ->
  let g := set_sslInitializedEarly true (shadowtorpreloadGlobalState s) in
  crypto_early_init t s
  = match crypto_early_init_fp (vtable w) with
    | Some f =>
        Ok (f [] (world s)).1
          {| tls := tls s; heap := heap s; shadowtorpreloadGlobalState := g;
             world := (f [] (world s)).2;
             trace := trace s ++ [EvDelegate "crypto_early_init" []] |}
    | None => Ok 0 (with_global g s)
    end.
Proof.
  intros Hl Ht Ha g. unfold crypto_early_init.
  rewrite bind_get_global, Hl. cbn [negb]. rewrite bind_modify_global.
  erewrite bind_Ok by (eapply vtable_entry_live; cbn; eauto).
  destruct (crypto_early_init_fp (vtable w)) as [f|] eqn:Hf; cbn [present]; [|reflexivity].
  erewrite bind_Ok by (eapply vtable_entry_live; cbn; eauto). rewrite Hf.
  unfold call. msimpl. by destruct (f [] (world s)).
Qed.

(** A call that finds the early latch closed, on a thread whose entries go
    together. *)
Lemma crypto_early_init_later t s :
  sslInitializedEarly (shadowtorpreloadGlobalState s) = true ->
  early_ready s t = true ->
  exists r s',
    crypto_early_init t s = Ok r s' /\
    tls s' = tls s /\ heap s' = heap s /\
    shadowtorpreloadGlobalState s' = shadowtorpreloadGlobalState s /\
    trace s' = trace s ++ (if has_early s t
                           then [EvDelegate "crypto_seed_rng" [VInt 1];
                                 EvDelegate "crypto_init_siphash_key" []]
                           else []).
Proof.
  intros Hl. unfold early_ready, has_early.
  destruct (worker_of s t) as [w|] eqn:Hw; [|done].
  apply worker_of_Some in Hw as (a & Ht & Ha).
  unfold crypto_early_init. rewrite bind_get_global, Hl. cbn [negb].
  erewrite bind_Ok by (by eapply vtable_entry_live).
  destruct (crypto_early_init_fp (vtable w)) as [fe|]; cbn [present implb].
  - destruct (crypto_seed_rng_fp (vtable w)) as [fseed|] eqn:Hs; [|done].
    destruct (crypto_init_siphash_key_fp (vtable w)) as [fsip|] eqn:Hk; [|done].
    intros _.
    erewrite bind_Ok by (by eapply vtable_entry_live). rewrite Hs.
    unfold call. msimpl. destruct (fseed [VInt 1] (world s)) as [r1 w1]. cbn.
    erewrite vtable_entry_live by (cbn; eauto). rewrite Hk. cbn.
    destruct (fsip [] w1) as [r2 w2]. cbn.
    eexists _, _. split; [reflexivity|]. cbn. by rewrite <- app_assoc.
  - intros _. exists 0, s. by rewrite app_nil_r.
Qed.

Lemma early_ext s s' t :
  tls s' = tls s -> heap s' = heap s ->
  early_ready s' t = early_ready s t /\ has_early s' t = has_early s t.
Proof. intros Ht Hh. unfold early_ready, has_early, worker_of. by rewrite Ht, Hh. Qed.

Lemma early_ready_all_ext s s' ts :
  tls s' = tls s -> heap s' = heap s ->
  forallb (early_ready s') ts = forallb (early_ready s) ts.
Proof.
  intros Ht Hh. induction ts as [|t ts IH]; [done|].
  cbn. by rewrite IH, (proj1 (early_ext s s' t Ht Hh)).
Qed.

Lemma run_early_cons t ts s r s' :
  crypto_early_init t s = Ok r s' ->
  run_early (t :: ts) s
  = match run_early ts s' with
    | Ok rs s1 => Ok (r :: rs) s1
    | Fatal d => Fatal d
    | Undef u => Undef u
    end.
Proof.
  intros H. cbn [run_early]. rewrite (bind_Ok _ _ _ _ _ H).
  unfold mbind, M_bind. by destruct (run_early ts s').
Qed.

(** Runs that start with the latch closed: no true early-init call, one
    reseed per caller that has crypto_early_init. *)
Lemma run_early_later ts : forall s,
  sslInitializedEarly (shadowtorpreloadGlobalState s) = true ->
  forallb (early_ready s) ts = true ->
  exists rs s1,
    run_early ts s = Ok rs s1 /\
    tls s1 = tls s /\ heap s1 = heap s /\
    sslInitializedEarly (shadowtorpreloadGlobalState s1) = true /\
    delegate_calls "crypto_early_init" (trace s1)
      = delegate_calls "crypto_early_init" (trace s) /\
    forall name, name = "crypto_seed_rng" \/ name = "crypto_init_siphash_key" ->
      delegate_calls name (trace s1)
      = (delegate_calls name (trace s) + length (List.filter (has_early s) ts))%nat.
Proof.
  induction ts as [|t ts IH]; intros s Hl Hr.
  { exists [], s. cbn. repeat split; auto with lia. }
  cbn [forallb] in Hr. apply andb_prop in Hr as [Ht Hts].
  destruct (crypto_early_init_later t s Hl Ht) as (r & s' & Hrun & Htls & Hheap & Hg & Htr).
  destruct (IH s') as (rs & s1 & Hrun1 & Htls1 & Hheap1 & Hl1 & He1 & Hs1).
  { by rewrite Hg. }
  { by rewrite (early_ready_all_ext s s'). }
  exists (r :: rs), s1. rewrite (run_early_cons _ _ _ _ _ Hrun), Hrun1.
  split; [done|]. split; [congruence|]. split; [congruence|]. split; [done|].
  assert (Hfilter : List.filter (has_early s') ts = List.filter (has_early s) ts).
  { apply List.filter_ext. intros t'. apply (early_ext s s'); done. }
  split.
  - rewrite He1, Htr, delegate_calls_app. destruct (has_early s t); cbn; lia.
  - intros name Hname. rewrite (Hs1 name Hname), Htr, delegate_calls_app, Hfilter.
    cbn [List.filter]. destruct (has_early s t); destruct Hname as [-> | ->]; cbn; lia.
Qed.

(** In any run of crypto_early_init calls from a state with the early latch
    open, by threads whose early-init entries go together: the true
    crypto_early_init delegate is called by the first call only, and only if
    that thread has it; every later call by a thread that has it calls
    crypto_seed_rng and crypto_init_siphash_key once each, and a thread that
    does not have it calls nothing. After any call the latch is closed. *)
Theorem crypto_early_init_once s0 t ts :
  sslInitializedEarly (shadowtorpreloadGlobalState s0) = false ->
  forallb (early_ready s0) (t :: ts) = true ->
  exists rs s1,
    run_early (t :: ts) s0 = Ok rs s1 /\
    sslInitializedEarly (shadowtorpreloadGlobalState s1) = true /\
    delegate_calls "crypto_early_init" (trace s1)
      = (delegate_calls "crypto_early_init" (trace s0)
         + if has_early s0 t then 1 else 0)%nat /\
    forall name, name = "crypto_seed_rng" \/ name = "crypto_init_siphash_key" ->
      delegate_calls name (trace s1)
      = (delegate_calls name (trace s0) + length (List.filter (has_early s0) ts))%nat.
Proof.
  intros Hl Hr. cbn [forallb] in Hr. apply andb_prop in Hr as [Ht Hts].
  assert (Hfirst : exists r s',
    crypto_early_init t s0 = Ok r s' /\ tls s' = tls s0 /\ heap s' = heap s0 /\
    sslInitializedEarly (shadowtorpreloadGlobalState s') = true /\
    trace s' = trace s0 ++ (if has_early s0 t
                            then [EvDelegate "crypto_early_init" []] else [])).
  { unfold early_ready, has_early in *.
    destruct (worker_of s0 t) as [w|] eqn:Hw; [|done].
    apply worker_of_Some in Hw as (a & Hta & Ha).
    rewrite (crypto_early_init_first _ _ _ _ Hl Hta Ha).
    destruct (crypto_early_init_fp (vtable w)); cbn [present].
    - eexists _, _. split; [reflexivity|]. by cbn.
    - eexists _, _. split; [reflexivity|]. cbn. by rewrite app_nil_r. }
  destruct Hfirst as (r & s' & Hrun & Htls & Hheap & Hl' & Htr).
  destruct (run_early_later ts s' Hl') as (rs & s1 & Hrun1 & _ & _ & Hl1 & He1 & Hs1).
  { by rewrite (early_ready_all_ext s0 s'). }
  exists (r :: rs), s1. rewrite (run_early_cons _ _ _ _ _ Hrun), Hrun1.
  split; [done|]. split; [done|].
  assert (Hfilter : List.filter (has_early s') ts = List.filter (has_early s0) ts).
  { apply List.filter_ext. intros t'. apply (early_ext s0 s'); done. }
  split.
  - rewrite He1, Htr, delegate_calls_app. destruct (has_early s0 t); cbn; lia.
  - intros name Hname. rewrite (Hs1 name Hname), Htr, delegate_calls_app, Hfilter.
    destruct (has_early s0 t); destruct Hname as [-> | ->]; cbn; lia.
Qed.

(** ** The lock bridge over whole runs *)

(** A teardown on a bridge that is not initialised does nothing: the thread
    count is not lowered. *)
Lemma cryptoTeardown_down s :
  initialized (shadowtorpreloadGlobalState s) = false ->
  _shadowtorpreload_cryptoTeardown s = Ok tt s.
Proof.
  intros Hi. unfold _shadowtorpreload_cryptoTeardown.
  by rewrite bind_get_global, Hi.
Qed.

Lemma bridge_step_balanced a0 f0 c s :
  bridge_balanced a0 f0 s ->
  (match c with Setup k => 1 <=? k | Teardown => true end) = true ->
  nThreads (shadowtorpreloadGlobalState s) < G_MAXINT ->
  exists s',
    bridge_step c s = Ok tt s' /\ bridge_balanced a0 f0 s' /\
    nThreads (shadowtorpreloadGlobalState s')
      <= nThreads (shadowtorpreloadGlobalState s) + 1.
Proof.
  intros Hinv Hc Hmax. destruct Hinv as [[(Hi & Hl & Hn) Hbal]|(k & n & Hk & Hn1 & (Hi & Hl & Hnum & Hn) & Hbal)].
  - destruct c as [k'|]; cbn [bridge_step].
    + apply Z.leb_le in Hc. rewrite cryptoSetup_first by done.
      eexists. split; [reflexivity|]. rewrite Hn. split.
      * right. exists k', 1. split; [done|]. split; [done|]. split; [done|].
        cbn. rewrite lock_allocs_app, lock_frees_app. cbn.
        rewrite lock_allocs_init, lock_frees_init. lia.
      * cbn [nThreads shadowtorpreloadGlobalState].
        change (wrap_gint (0 + 1)) with 1. lia.
    + rewrite cryptoTeardown_down by done. exists s. split; [done|].
      split; [left; done|lia].
  - destruct c as [k'|]; cbn [bridge_step].
    + rewrite cryptoSetup_again by done.
      eexists. split; [reflexivity|]. cbn. rewrite Hn.
      rewrite wrap_gint_id by (unfold gint_range, G_MININT, G_MAXINT in *; lia).
      split; [|lia].
      right. exists k, (n + 1). split; [done|]. split; [lia|]. by split.
    + assert (Hw : wrap_gint (nThreads (shadowtorpreloadGlobalState s) - 1) = n - 1).
      { rewrite Hn. apply wrap_gint_id. unfold gint_range, G_MININT, G_MAXINT in *. lia. }
      destruct (Z.eq_dec n 1) as [->|Hne].
      * erewrite cryptoTeardown_last; [| done | done | | by rewrite Hw].
        2:{ rewrite Hnum, length_replicate. lia. }
        eexists. split; [reflexivity|]. split; [|cbn; lia].
        left. split; [done|]. cbn.
        rewrite lock_allocs_app, lock_allocs_app, lock_frees_app, lock_frees_app.
        rewrite lock_allocs_clear, lock_frees_clear. cbn. lia.
      * erewrite cryptoTeardown_not_last; [| done | done | rewrite Hw; lia].
        eexists. split; [reflexivity|]. cbn. rewrite Hw. split; [|lia].
        right. exists k, (n - 1). split; [done|]. split; [lia|]. by split.
Qed.

Lemma run_bridge_balanced a0 f0 cs : forall s,
  bridge_balanced a0 f0 s ->
  positive_setups cs = true ->
  nThreads (shadowtorpreloadGlobalState s) + Z.of_nat (length cs) <= G_MAXINT ->
  exists s', run_bridge cs s = Ok tt s' /\ bridge_balanced a0 f0 s'.
Proof.
  induction cs as [|c cs IH]; intros s Hinv Hpos Hmax.
  - by exists s.
  - cbn [positive_setups forallb] in Hpos. apply andb_prop in Hpos as [Hc Hcs].
    cbn [length] in Hmax.
    destruct (bridge_step_balanced a0 f0 c s Hinv Hc) as (s1 & Hstep & Hinv1 & Hn1); [lia|].
    destruct (IH s1 Hinv1 Hcs) as (s' & Hrun & Hinv'); [lia|].
    exists s'. cbn [run_bridge]. by rewrite (bind_Ok _ _ _ _ _ Hstep).
Qed.

(** Any interleaving of setup and teardown calls, the setups asking for at
    least one lock, started with the bridge down: the run succeeds; after it
    the bridge is down and every array that was allocated has been freed, or
    it is up with a positive thread count and exactly one array that has not
    been freed. No array is freed twice, none is lost. A teardown with the
    bridge down changes nothing. *)
Theorem lock_array_balanced s0 cs :
  bridge_down (shadowtorpreloadGlobalState s0) ->
  positive_setups cs = true ->
  Z.of_nat (length cs) <= G_MAXINT ->
  _shadowtorpreload_cryptoTeardown s0 = Ok tt s0 /\
  exists s,
    run_bridge cs s0 = Ok tt s /\
    bridge_balanced (lock_allocs (trace s0)) (lock_frees (trace s0)) s.
Proof.
  intros Hdown Hpos Hmax. split.
  - apply cryptoTeardown_down. by destruct Hdown.
  - apply run_bridge_balanced; [left; split; [done|lia]|done|].
    destruct Hdown as (_ & _ & ->). lia.
Qed.

(** A setup on a bridge that is up does not look at its lock count: the
    array keeps the size the first setup gave it. An index that is valid for
    the later caller's count but not below the first count takes the locking
    callback outside the array. *)
Theorem cryptoSetup_count_ignored k n k' s :
  bridge_up (shadowtorpreloadGlobalState s) k n ->
  0 <= k -> 1 <= n < G_MAXINT ->
  exists s',
    _shadowtorpreload_cryptoSetup k' s = Ok tt s' /\
    bridge_up (shadowtorpreloadGlobalState s') k (n + 1) /\
    trace s' = trace s /\
    forall mode i,
      k <= i ->
      mode = Z.lor CRYPTO_LOCK CRYPTO_READ \/ mode = Z.lor CRYPTO_LOCK CRYPTO_WRITE \/
      mode = Z.lor CRYPTO_UNLOCK CRYPTO_READ \/ mode = Z.lor CRYPTO_UNLOCK CRYPTO_WRITE ->
      _shadowtorpreload_cryptoLockingFunc mode i s' = Undef (OutOfBounds i).
Proof.
  intros (Hi & Hl & Hnum & Hn) Hk Hrange.
  rewrite cryptoSetup_again by done. eexists. split; [reflexivity|].
  cbn. rewrite Hn, wrap_gint_id by (unfold gint_range, G_MININT, G_MAXINT in *; lia).
  split; [done|]. split; [done|].
  intros mode i Hik Hmode.
  unfold _shadowtorpreload_cryptoLockingFunc. rewrite bind_get_global. cbn.
  rewrite Hi. unfold c_assert, lock_ptr_is_null. cbn. rewrite Hl. rewrite !bind_skip.
  assert (Hat : forall op, g_rw_lock op i
                  (with_global
                     (set_nThreads (n + 1) (shadowtorpreloadGlobalState s)) s)
                = Undef (OutOfBounds i)).
  { intros op. unfold g_rw_lock, lock_at.
    apply bind_Undef. rewrite bind_get_global. cbn. rewrite Hl, length_replicate.
    destruct (Z.leb_spec 0 i); [|done].
    destruct (Z.ltb_spec i (Z.of_nat (Z.to_nat k))); [lia|done]. }
  destruct Hmode as [->|[->|[->| ->]]]; cbn; apply Hat.
Qed.

(** ** What each call may change in the global state *)

Lemma keeps_ret J {A} (a : A) : keeps J (mret a : M A).
Proof. intros s a' s' HJ [= _ <-]. exact HJ. Qed.

Lemma keeps_bind J {A B} (m : M A) (k : A -> M B) :
  keeps J m -> (forall a, keeps J (k a)) -> keeps J (m ≫= k).
Proof.
  intros Hm Hk s b s' HJ H. unfold mbind, M_bind in H.
  destruct (m s) as [a s1| |] eqn:Hms; try done.
  eapply Hk; [|exact H]. by eapply Hm.
Qed.

Lemma keeps_skip J : keeps J skip.
Proof. apply keeps_ret. Qed.

Lemma keeps_abort J {A} d : keeps J (abort d : M A).
Proof. by intros s a s' _ H. Qed.

Lemma keeps_undefined J {A} u : keeps J (undefined u : M A).
Proof. by intros s a s' _ H. Qed.

Lemma keeps_get_global J : keeps J get_global.
Proof. intros s a s' HJ [= _ <-]. exact HJ. Qed.

Lemma keeps_load J a : keeps J (load a).
Proof.
  intros s w s' HJ H. unfold load in H. destruct (heap s !! a); [|done].
  injection H as _ <-. exact HJ.
Qed.

Lemma within_refl fp g : within fp g g.
Proof. by repeat split. Qed.

Lemma within_trans fp g1 g2 g3 : within fp g1 g2 -> within fp g2 g3 -> within fp g1 g3.
Proof.
  unfold within.
  intros (A1 & A2 & A3 & A4 & A5 & A6 & A7 & A8 & A9)
         (B1 & B2 & B3 & B4 & B5 & B6 & B7 & B8 & B9).
  repeat split; intros Hf; auto;
    first [ by rewrite B1, A1 | by rewrite B2, A2 | by rewrite B3, A3
          | by rewrite B4, A4 | by rewrite B5, A5 | by rewrite B6, A6
          | by rewrite B7, A7 ].
Qed.

Section GlobalFootprint.
Variables (fp : footprint) (g0 : PreloadGlobal).

(** The global state is within the footprint of where the call started. *)
Let G (s : state) : Prop := within fp g0 (shadowtorpreloadGlobalState s).

Lemma gk_same s s' :
  shadowtorpreloadGlobalState s' = shadowtorpreloadGlobalState s -> G s -> G s'.
Proof. unfold G. by intros ->. Qed.

Lemma gk_emit e : keeps G (emit e).
Proof. intros s [] s' HJ [= <-]. by eapply gk_same. Qed.

Lemma gk_extern {A} (f : World -> A * World) : keeps G (extern f).
Proof.
  intros s a s' HJ H. unfold extern in H. destruct (f (world s)).
  injection H as _ <-. by eapply gk_same.
Qed.

Lemma gk_store a w : keeps G (store a w).
Proof.
  intros s [] s' HJ H. unfold store in H. destruct (heap s !! a); [|done].
  injection H as <-. by eapply gk_same.
Qed.

Lemma gk_getWorker t : keeps G (_shadowtorpreload_getWorker t).
Proof.
  intros s a s' HJ H. destruct (tls s !! t) as [a0|] eqn:Ht.
  - rewrite (getWorker_live _ _ _ Ht) in H. by injection H as _ <-.
  - rewrite (getWorker_new _ _ Ht) in H. injection H as _ <-. by eapply gk_same.
Qed.

Lemma gk_thread_exit t : keeps G (thread_exit t).
Proof. intros s [] s' HJ [= <-]. by eapply gk_same. Qed.

Lemma gk_modify f :
  (forall g, within fp g (f g)) -> keeps G (modify_global f).
Proof.
  intros Hf s [] s' HJ [= <-]. unfold G in *. cbn.
  eapply within_trans; [exact HJ|apply Hf].
Qed.

Create HintDb gkeeps.

#[local] Hint Resolve keeps_ret keeps_skip keeps_abort keeps_undefined keeps_get_global
  keeps_load gk_emit gk_extern gk_store gk_getWorker gk_thread_exit : gkeeps.

(** A setter stays within a footprint that has its field. *)
Ltac within_setter :=
  intros ?; unfold within; cbn; repeat split; intros; (done || congruence).

Ltac gk_step :=
  match goal with
  | |- keeps _ (_ ≫= _) => apply keeps_bind; [|intros ?]
  | |- keeps _ (if ?b then _ else _) => destruct b
  | |- keeps _ (match ?x with _ => _ end) => destruct x
  | |- keeps _ (modify_global _) => apply gk_modify; within_setter
  | |- keeps _ _ => solve [eauto with gkeeps]
  end.

Ltac gk_auto := repeat gk_step.

Lemma gk_call name f args : keeps G (call name f args).
Proof. unfold call. gk_auto. Qed.

Lemma gk_vtable_entry t f : keeps G (vtable_entry t f).
Proof. unfold vtable_entry. gk_auto. Qed.

Lemma gk_lock_at i : keeps G (lock_at i).
Proof. unfold lock_at. gk_auto. Qed.

#[local] Hint Resolve gk_call gk_vtable_entry gk_lock_at : gkeeps.

Lemma gk_for_each l body :
  (forall i, keeps G (body i)) -> keeps G (for_each l body).
Proof. intros Hb. induction l as [|i l IH]; cbn [for_each]; gk_auto. Qed.

Lemma gk_g_rw_lock op i : keeps G (g_rw_lock op i).
Proof. unfold g_rw_lock. gk_auto. Qed.

Lemma gk_g_rw_lock_clear i : keeps G (g_rw_lock_clear i).
Proof. unfold g_rw_lock_clear. gk_auto. Qed.

Lemma gk_g_rw_lock_init i : f_locks fp = true -> keeps G (g_rw_lock_init i).
Proof. intros Hl. unfold g_rw_lock_init. gk_auto. Qed.

Lemma gk_g_new0_GRWLock n : keeps G (g_new0_GRWLock n).
Proof. unfold g_new0_GRWLock. gk_auto. Qed.

Lemma gk_resolve a h name setf : keeps G (resolve a h name setf).
Proof. unfold resolve. gk_auto. Qed.

#[local] Hint Resolve gk_for_each gk_g_rw_lock gk_g_rw_lock_clear gk_g_rw_lock_init
  gk_g_new0_GRWLock gk_resolve : gkeeps.

Lemma gk_resolve_required a h name setf : keeps G (resolve_required a h name setf).
Proof. unfold resolve_required, g_assert. gk_auto. Qed.

#[local] Hint Resolve gk_resolve_required : gkeeps.

Lemma gk_cryptoSetup n :
  f_initialized fp = true -> f_threads fp = true -> f_numlocks fp = true ->
  f_locks fp = true ->
  keeps G (_shadowtorpreload_cryptoSetup n).
Proof. intros H1 H2 H3 H4. unfold _shadowtorpreload_cryptoSetup. gk_auto. Qed.

Lemma gk_cryptoTeardown :
  f_initialized fp = true -> f_threads fp = true -> f_locks fp = true ->
  keeps G _shadowtorpreload_cryptoTeardown.
Proof. intros H1 H2 H3. unfold _shadowtorpreload_cryptoTeardown. gk_auto. Qed.

Lemma gk_init t h n :
  f_initialized fp = true -> f_threads fp = true -> f_numlocks fp = true ->
  f_locks fp = true ->
  keeps G (shadowtorpreload_init t h n).
Proof.
  intros H1 H2 H3 H4. unfold shadowtorpreload_init.
  pose proof (gk_cryptoSetup n H1 H2 H3 H4). gk_auto.
Qed.

Lemma gk_write_str_to_file t fname str bin : keeps G (write_str_to_file t fname str bin).
Proof.
  unfold write_str_to_file, consensusCounter_postinc, g_file_set_contents_call.
  gk_auto.
Qed.

Lemma gk_crypto_early_init t : f_early fp = true -> keeps G (crypto_early_init t).
Proof. intros H1. unfold crypto_early_init. gk_auto. Qed.

Lemma gk_crypto_global_init t u n d :
  f_global fp = true -> f_nodes fp = true -> keeps G (crypto_global_init t u n d).
Proof. intros H1 H2. unfold crypto_global_init. gk_auto. Qed.

Lemma gk_crypto_global_cleanup t : f_nodes fp = true -> keeps G (crypto_global_cleanup t).
Proof. intros H1. unfold crypto_global_cleanup. gk_auto. Qed.

Lemma gk_getIDFunc t : keeps G (_shadowtorpreload_getIDFunc t).
Proof. unfold _shadowtorpreload_getIDFunc. gk_auto. Qed.

Lemma gk_cryptoLockingFunc mode n : keeps G (_shadowtorpreload_cryptoLockingFunc mode n).
Proof. unfold _shadowtorpreload_cryptoLockingFunc, c_assert. gk_auto. Qed.

End GlobalFootprint.

Lemma lib_step_within c s s' :
  lib_step c s = Ok tt s' ->
  within (footprint_of c) (shadowtorpreloadGlobalState s) (shadowtorpreloadGlobalState s').
Proof.
  intros H.
  assert (Hk : keeps (fun s1 => within (footprint_of c) (shadowtorpreloadGlobalState s)
                                  (shadowtorpreloadGlobalState s1)) (lib_step c)).
  { destruct c; cbn [lib_step footprint_of];
      first [ by apply gk_init
            | by apply gk_cryptoTeardown
            | by apply gk_thread_exit
            | by apply gk_cryptoLockingFunc
            | apply keeps_bind; [|intros; apply keeps_skip];
              first [ apply keeps_ret | apply gk_write_str_to_file
                    | by apply gk_crypto_early_init | by apply gk_crypto_global_init
                    | by apply gk_crypto_global_cleanup | apply gk_getIDFunc ] ]. }
  eapply Hk; [apply within_refl|exact H].
Qed.

(** Each entry point changes only its own fields of the global state:
    crypto_early_init the early latch; crypto_global_init the global latch
    and the node count; crypto_global_cleanup the node count;
    shadowtorpreload_init and shadowtorpreload_clear the fields of the lock
    bridge; spawn_func, write_str_to_file, the id callback, the locking
    callback and the end of a thread nothing. No call opens a latch that is
    closed. *)
Theorem lib_step_footprint c s s' :
  lib_step c s = Ok tt s' ->
  within (footprint_of c) (shadowtorpreloadGlobalState s) (shadowtorpreloadGlobalState s').
Proof. apply lib_step_within. Qed.

(** Whatever the process does, by any of its threads, a latch that is
    closed stays closed. *)
Theorem latches_stay_closed cs s s' :
  run_lib cs s = Ok tt s' ->
  (sslInitializedEarly (shadowtorpreloadGlobalState s) = true ->
   sslInitializedEarly (shadowtorpreloadGlobalState s') = true) /\
  (sslInitializedGlobal (shadowtorpreloadGlobalState s) = true ->
   sslInitializedGlobal (shadowtorpreloadGlobalState s') = true).
Proof.
  revert s. induction cs as [|c cs IH]; intros s H.
  - by injection H as <-.
  - cbn in H. unfold mbind, M_bind in H.
    destruct (lib_step c s) as [[] s1| |] eqn:Hc; try done.
    apply lib_step_within in Hc. destruct (IH _ H) as [He Hg].
    unfold within in Hc. destruct_and!. split; auto.
Qed.

(** ** The worker registry over whole runs *)

Create HintDb rkeeps.

Ltac rk_step :=
  match goal with
  | |- keeps _ (_ ≫= _) => apply keeps_bind; [|intros ?]
  | |- keeps _ (if ?b then _ else _) => destruct b
  | |- keeps _ (match ?x with _ => _ end) => destruct x
  | |- keeps _ _ => solve [eauto with rkeeps]
  end.

Ltac rk_auto := repeat rk_step.

Section RegistryKeeps.
Variable J : state -> Prop.
(** J looks at the registry only, and creating a worker keeps it. *)
Hypothesis J_registry : forall s s', tls s' = tls s -> heap s' = heap s -> J s -> J s'.
Hypothesis J_getWorker : forall t, keeps J (_shadowtorpreload_getWorker t).

Lemma rk_set_global g : keeps J (set_global g).
Proof. intros s [] s' HJ [= <-]. by apply (J_registry s). Qed.

Lemma rk_emit e : keeps J (emit e).
Proof. intros s [] s' HJ [= <-]. by apply (J_registry s). Qed.

Lemma rk_extern {A} (f : World -> A * World) : keeps J (extern f).
Proof.
  intros s a s' HJ H. unfold extern in H. destruct (f (world s)).
  injection H as _ <-. by apply (J_registry s).
Qed.

#[local] Hint Resolve keeps_ret keeps_skip keeps_abort keeps_undefined keeps_get_global
  keeps_load rk_set_global rk_emit rk_extern : rkeeps.

Lemma rk_modify_global f : keeps J (modify_global f).
Proof. unfold modify_global. rk_auto. Qed.

Lemma rk_call name f args : keeps J (call name f args).
Proof. unfold call. rk_auto. Qed.

Lemma rk_vtable_entry t f : keeps J (vtable_entry t f).
Proof. unfold vtable_entry. rk_auto. Qed.

Lemma rk_lock_at i : keeps J (lock_at i).
Proof. unfold lock_at. rk_auto. Qed.

#[local] Hint Resolve rk_modify_global rk_call rk_vtable_entry rk_lock_at : rkeeps.

Lemma rk_for_each l body :
  (forall i, keeps J (body i)) -> keeps J (for_each l body).
Proof. intros Hb. induction l as [|i l IH]; cbn [for_each]; rk_auto. Qed.

Lemma rk_g_rw_lock op i : keeps J (g_rw_lock op i).
Proof. unfold g_rw_lock. rk_auto. Qed.

Lemma rk_g_rw_lock_clear i : keeps J (g_rw_lock_clear i).
Proof. unfold g_rw_lock_clear. rk_auto. Qed.

Lemma rk_g_rw_lock_init i : keeps J (g_rw_lock_init i).
Proof. unfold g_rw_lock_init. rk_auto. Qed.

Lemma rk_g_new0_GRWLock n : keeps J (g_new0_GRWLock n).
Proof. unfold g_new0_GRWLock. rk_auto. Qed.

#[local] Hint Resolve rk_for_each rk_g_rw_lock rk_g_rw_lock_clear rk_g_rw_lock_init
  rk_g_new0_GRWLock : rkeeps.

Lemma rk_cryptoSetup n : keeps J (_shadowtorpreload_cryptoSetup n).
Proof. unfold _shadowtorpreload_cryptoSetup. rk_auto. Qed.

Lemma rk_cryptoTeardown : keeps J _shadowtorpreload_cryptoTeardown.
Proof. unfold _shadowtorpreload_cryptoTeardown. rk_auto. Qed.

Lemma rk_crypto_early_init t : keeps J (crypto_early_init t).
Proof. unfold crypto_early_init. rk_auto. Qed.

Lemma rk_crypto_global_init t u n d : keeps J (crypto_global_init t u n d).
Proof. unfold crypto_global_init. rk_auto. Qed.

Lemma rk_crypto_global_cleanup t : keeps J (crypto_global_cleanup t).
Proof. unfold crypto_global_cleanup. rk_auto. Qed.

Lemma rk_getIDFunc t : keeps J (_shadowtorpreload_getIDFunc t).
Proof. unfold _shadowtorpreload_getIDFunc. rk_auto. Qed.

Lemma rk_cryptoLockingFunc mode n : keeps J (_shadowtorpreload_cryptoLockingFunc mode n).
Proof. unfold _shadowtorpreload_cryptoLockingFunc, c_assert. rk_auto. Qed.

#[local] Hint Resolve rk_cryptoSetup : rkeeps.

(** The two functions that write to a worker, for a J that every store to
    a live block keeps. *)
Lemma rk_postinc_store t :
  (forall a w, keeps J (store a w)) -> keeps J (consensusCounter_postinc t).
Proof. intros Hs. unfold consensusCounter_postinc. rk_auto. Qed.

Lemma rk_init_store t h n :
  (forall a w, keeps J (store a w)) -> keeps J (shadowtorpreload_init t h n).
Proof.
  intros Hs. unfold shadowtorpreload_init, resolve_required, resolve, g_assert.
  rk_auto.
Qed.

Lemma rk_write_str_to_file t fname str bin :
  keeps J (consensusCounter_postinc t) ->
  keeps J (write_str_to_file t fname str bin).
Proof.
  intros Hp. unfold write_str_to_file, g_file_set_contents_call. rk_auto.
Qed.

(** Every step, given the three that depend on J. *)
Lemma rk_lib_step c :
  (forall t fname str bin, c = CallWriteStr t fname str bin ->
     keeps J (consensusCounter_postinc t)) ->
  (forall t h n, c = CallInit t h n -> keeps J (shadowtorpreload_init t h n)) ->
  (forall t, c = ThreadExit t -> keeps J (thread_exit t)) ->
  keeps J (lib_step c).
Proof.
  intros Hw Hi He. destruct c; cbn [lib_step].
  - by apply Hi.
  - apply rk_cryptoTeardown.
  - unfold spawn_func. rk_auto.
  - apply keeps_bind; [|intros; apply keeps_skip].
    apply rk_write_str_to_file. by eapply Hw.
  - apply keeps_bind; [apply rk_crypto_early_init|intros; apply keeps_skip].
  - apply keeps_bind; [apply rk_crypto_global_init|intros; apply keeps_skip].
  - apply keeps_bind; [apply rk_crypto_global_cleanup|intros; apply keeps_skip].
  - apply keeps_bind; [apply rk_getIDFunc|intros; apply keeps_skip].
  - apply rk_cryptoLockingFunc.
  - by apply He.
Qed.

End RegistryKeeps.

Lemma keeps_run_lib J cs :
  (forall c, In c cs -> keeps J (lib_step c)) -> keeps J (run_lib cs).
Proof.
  induction cs as [|c cs IH]; intros Hc; cbn [run_lib].
  - apply keeps_skip.
  - apply keeps_bind; [apply Hc; by left|]. intros _. apply IH.
    intros c' Hin. apply Hc. by right.
Qed.

(** No worker block without a thread. *)
Lemma no_leak_registry s s' :
  tls s' = tls s -> heap s' = heap s -> no_leak s -> no_leak s'.
Proof. intros Ht Hh. unfold no_leak. by rewrite Ht, Hh. Qed.

Lemma no_leak_getWorker t : keeps no_leak (_shadowtorpreload_getWorker t).
Proof.
  intros s a s' HJ H. destruct (tls s !! t) as [a0|] eqn:Ht.
  - rewrite (getWorker_live _ _ _ Ht) in H. by injection H as _ <-.
  - rewrite (getWorker_new _ _ Ht) in H. injection H as <- <-.
    intros a' Ha'. cbn in *.
    destruct (decide (g_new0_PreloadWorker (dom (heap s)) = a')) as [<-|Hne].
    + exists t. apply lookup_insert_eq.
    + rewrite lookup_insert_ne in Ha' by done.
      destruct (HJ a' Ha') as (t' & Ht'). exists t'.
      rewrite lookup_insert_ne; [done|]. intros ->. congruence.
Qed.

Lemma no_leak_store a w : keeps no_leak (store a w).
Proof.
  intros s [] s' HJ H. unfold store in H.
  destruct (heap s !! a) as [w0|] eqn:Ha; [|done]. injection H as <-.
  intros a' Ha'. cbn in *. apply HJ.
  destruct (decide (a = a')) as [<-|Hne]; [eauto|].
  by rewrite lookup_insert_ne in Ha'.
Qed.

Lemma no_leak_thread_exit t : keeps no_leak (thread_exit t).
Proof.
  intros s [] s' HJ [= <-]. intros a' Ha'. cbn in *.
  destruct (tls s !! t) as [a|] eqn:Ht.
  - apply lookup_delete_is_Some in Ha' as [Hne Ha'].
    destruct (HJ a' Ha') as (t' & Ht'). exists t'.
    rewrite lookup_delete_ne; [done|]. intros ->. congruence.
  - destruct (HJ a' Ha') as (t' & Ht'). exists t'.
    rewrite lookup_delete_ne; [done|]. intros ->. congruence.
Qed.

Lemma no_leak_lib_step c : keeps no_leak (lib_step c).
Proof.
  apply (rk_lib_step no_leak no_leak_registry no_leak_getWorker).
  - intros. apply (rk_postinc_store no_leak no_leak_getWorker), no_leak_store.
  - intros.
    apply (rk_init_store no_leak no_leak_registry no_leak_getWorker), no_leak_store.
  - intros. apply no_leak_thread_exit.
Qed.

Section RegistryRuns.
Context {EOk : ExternalsOk E}.

(** In every state the process can reach, the worker blocks and the threads
    that have a worker correspond one to one: no two threads share a block,
    every thread's pointer points to a live block, and every live block is
    the worker of a thread, so that no block is left behind when a thread
    ends. *)
Theorem registry_exact w cs s :
  run_lib cs (process_start w) = Ok tt s ->
  (forall t1 t2 a, tls s !! t1 = Some a -> tls s !! t2 = Some a -> t1 = t2) /\
  (forall t a, tls s !! t = Some a -> is_Some (heap s !! a)) /\
  (forall a, is_Some (heap s !! a) -> exists t, tls s !! t = Some a).
Proof.
  intros Hrun.
  destruct (run_lib_wf cs _ _ Hrun (tls_wf_process_start w)) as [Hinj Hlive].
  split; [exact Hinj|]. split; [exact Hlive|].
  apply (keeps_run_lib no_leak cs (fun c _ => no_leak_lib_step c) _ _ _) in Hrun; [done|].
  intros a Ha. cbn in Ha. rewrite lookup_empty in Ha. by destruct Ha.
Qed.

Lemma tls_wf_insert_live s a w :
  is_Some (heap s !! a) -> tls_wf s -> tls_wf (with_heap (<[a := w]> (heap s)) s).
Proof.
  intros Ha [Hinj Hlive]. split; [exact Hinj|].
  intros t a' Ht. cbn in *. destruct (decide (a = a')) as [->|Hne].
  - rewrite lookup_insert_eq. eauto.
  - rewrite lookup_insert_ne by done. eauto.
Qed.

Section WorkerAt.
Variables (t : thread) (a : addr) (P : PreloadWorker -> Prop).

Lemma worker_at_registry s s' :
  tls s' = tls s -> heap s' = heap s -> worker_at t a P s -> worker_at t a P s'.
Proof. intros Ht Hh. unfold worker_at, tls_wf. by rewrite Ht, Hh. Qed.

Lemma worker_at_getWorker t' : keeps (worker_at t a P) (_shadowtorpreload_getWorker t').
Proof.
  intros s a' s' (Hwf & Ht & w & Ha & HP) H.
  destruct (framed_getWorker t t' _ _ _ H) as [Hwf' Hkeep].
  split; [auto|]. split; [auto|]. exists w. split; [|done].
  destruct (tls s !! t') as [a0|] eqn:Ht'.
  - rewrite (getWorker_live _ _ _ Ht') in H. by injection H as _ <-.
  - rewrite (getWorker_new _ _ Ht') in H. injection H as <- <-. cbn.
    rewrite lookup_insert_ne; [done|].
    intros Heq. pose proof (g_new0_fresh (dom (heap s))) as Hfresh.
    rewrite Heq, elem_of_dom in Hfresh. apply Hfresh. eauto.
Qed.

(** A store to the block of another thread. *)
Lemma worker_at_store_other a' w' :
  a' <> a -> keeps (worker_at t a P) (store a' w').
Proof.
  intros Hne s [] s' (Hwf & Ht & w & Ha & HP) H. unfold store in H.
  destruct (heap s !! a') as [w0|] eqn:Ha'; [|done]. injection H as <-.
  split; [apply tls_wf_insert_live; eauto|]. split; [done|].
  exists w. split; [|done]. cbn. by rewrite lookup_insert_ne.
Qed.

Lemma worker_at_thread_exit t' : t' <> t -> keeps (worker_at t a P) (thread_exit t').
Proof.
  intros Hne s [] s' (Hwf & Ht & w & Ha & HP) H.
  destruct (framed_thread_exit t t' Hne _ _ _ H) as [Hwf' Hkeep].
  split; [auto|]. split; [auto|]. exists w. split; [|done].
  injection H as <-. cbn. destruct (tls s !! t') as [a'|] eqn:Ht'; [|done].
  rewrite lookup_delete_ne; [done|]. intros ->. destruct Hwf as [Hinj _]. eauto.
Qed.

(** The counter update of write_str_to_file: by another thread, or by the
    thread itself when P does not depend on the counter. *)
Lemma worker_at_postinc t' :
  t' <> t \/ (forall w c, P w -> P (set_consensusCounter c w)) ->
  keeps (worker_at t a P) (consensusCounter_postinc t').
Proof.
  intros Hcase s r s' HJ H. unfold consensusCounter_postinc in H.
  unfold mbind at 1 in H. unfold M_bind in H.
  destruct (_shadowtorpreload_getWorker t' s) as [a' s1| |] eqn:Hget; try done.
  pose proof (worker_at_getWorker t' _ _ _ HJ Hget) as (Hwf1 & Ht1 & w & Ha1 & HP).
  assert (Ht1' : tls s1 !! t' = Some a').
  { destruct (tls s !! t') as [a0|] eqn:Ht'.
    - rewrite (getWorker_live _ _ _ Ht') in Hget. by injection Hget as <- <-.
    - rewrite (getWorker_new _ _ Ht') in Hget. injection Hget as <- <-.
      cbn. apply lookup_insert_eq. }
  unfold mbind at 1 in H. unfold M_bind in H.
  destruct (load a' s1) as [w' s2| |] eqn:Hload; try done.
  unfold load in Hload. destruct (heap s1 !! a') as [w0|] eqn:Ha'; [|done].
  injection Hload as <- <-.
  unfold mbind, M_bind, store in H. rewrite Ha' in H. injection H as _ <-.
  split; [apply tls_wf_insert_live; eauto|]. split; [done|]. cbn.
  destruct (decide (a' = a)) as [->|Hne].
  - rewrite lookup_insert_eq. eexists. split; [done|].
    destruct Hcase as [Hne|Hstable].
    + destruct Hwf1 as [Hinj _]. destruct Hne. eauto.
    + apply Hstable. congruence.
  - rewrite lookup_insert_ne by done. eauto.
Qed.

(** shadowtorpreload_init on another thread. *)
Lemma worker_at_init t' h n :
  t' <> t -> keeps (worker_at t a P) (shadowtorpreload_init t' h n).
Proof.
  intros Hne s r s' HJ H.
  destruct (_shadowtorpreload_getWorker t' s) as [a' s1| |] eqn:Hget;
    [|unfold shadowtorpreload_init in H; by rewrite (bind_Fatal _ _ _ _ Hget) in H
     |unfold shadowtorpreload_init in H; by rewrite (bind_Undef _ _ _ _ Hget) in H].
  pose proof (worker_at_getWorker t' _ _ _ HJ Hget) as HJ1.
  assert (Ht1' : tls s1 !! t' = Some a').
  { destruct (tls s !! t') as [a0|] eqn:Ht'.
    - rewrite (getWorker_live _ _ _ Ht') in Hget. by injection Hget as <- <-.
    - rewrite (getWorker_new _ _ Ht') in Hget. injection Hget as <- <-.
      cbn. apply lookup_insert_eq. }
  rewrite (shadowtorpreload_init_getWorker _ _ _ _ _ _ Hget Ht1') in H.
  destruct HJ1 as (Hwf1 & Ht1 & w & Ha1 & HP).
  assert (Hne' : a' <> a).
  { intros ->. destruct Hwf1 as [Hinj _]. apply Hne. eauto. }
  destruct (proj2 Hwf1 _ _ Ht1') as [w' Ha'].
  rewrite (shadowtorpreload_init_live _ _ _ _ _ _ Ht1' Ha') in H.
  destruct (List.find _ mandatory_symbols); [done|].
  eapply (rk_cryptoSetup _ worker_at_registry); [|exact H].
  split; [apply tls_wf_insert_live; eauto|]. split; [done|].
  exists w. split; [|done]. cbn. by rewrite lookup_insert_ne.
Qed.

(** Every step that is neither shadowtorpreload_init on t nor the end of t;
    a write by t itself needs a P that does not depend on the counter. *)
Lemma worker_at_lib_step c :
  rebinds t c = false ->
  (lib_caller c <> t \/ forall w c, P w -> P (set_consensusCounter c w)) ->
  keeps (worker_at t a P) (lib_step c).
Proof.
  intros Hr Hcase.
  apply (rk_lib_step _ worker_at_registry worker_at_getWorker).
  - intros t' fname str bin ->. by apply worker_at_postinc.
  - intros t' h n ->. cbn in Hr. apply bool_decide_eq_false in Hr.
    by apply worker_at_init.
  - intros t' ->. cbn in Hr. apply bool_decide_eq_false in Hr.
    by apply worker_at_thread_exit.
Qed.

End WorkerAt.

(** A thread's worker is its own: whatever the other threads do, binding
    themselves and ending included, the worker of a thread that makes no
    call stays at its address with every field as it was. *)
Theorem worker_isolated w0 pre s t a w cs s' :
  run_lib pre (process_start w0) = Ok tt s ->
  tls s !! t = Some a ->
  heap s !! a = Some w ->
  forallb (fun c => negb (bool_decide (lib_caller c = t))) cs = true ->
  run_lib cs s = Ok tt s' ->
  tls s' !! t = Some a /\ heap s' !! a = Some w.
Proof.
  intros Hpre Ht Ha Hcs Hrun.
  assert (HJ : worker_at t a (fun w' => w' = w) s).
  { split; [eapply run_lib_wf; [exact Hpre|apply tls_wf_process_start]|]. eauto. }
  assert (Hall : forall c, In c cs -> keeps (worker_at t a (fun w' => w' = w)) (lib_step c)).
  { intros c Hin. rewrite forallb_forall in Hcs. specialize (Hcs c Hin).
    apply negb_true_iff, bool_decide_eq_false in Hcs.
    apply worker_at_lib_step; [|by left].
    destruct c; cbn in *; try done; by apply bool_decide_eq_false. }
  destruct (keeps_run_lib _ cs Hall _ _ _ HJ Hrun) as (_ & Ht' & w' & Ha' & ->).
  done.
Qed.

(** A thread's delegate table changes only when the thread binds again or
    ends: over any run without shadowtorpreload_init on that thread and
    without its end, the thread keeps its worker block, its module handle
    and every entry of its vtable. *)
Theorem vtable_stable w0 pre s t a w cs s' :
  run_lib pre (process_start w0) = Ok tt s ->
  tls s !! t = Some a ->
  heap s !! a = Some w ->
  existsb (rebinds t) cs = false ->
  run_lib cs s = Ok tt s' ->
  exists w', worker_of s' t = Some w' /\ vtable w' = vtable w /\ handle w' = handle w.
Proof.
  intros Hpre Ht Ha Hcs Hrun.
  assert (HJ : worker_at t a (fun w' => vtable w' = vtable w /\ handle w' = handle w) s).
  { split; [eapply run_lib_wf; [exact Hpre|apply tls_wf_process_start]|]. eauto. }
  assert (Hall : forall c, In c cs ->
    keeps (worker_at t a (fun w' => vtable w' = vtable w /\ handle w' = handle w))
      (lib_step c)).
  { intros c Hin. apply worker_at_lib_step; [|right; by intros ? ? [? ?]].
    destruct (rebinds t c) eqn:Hr; [|done].
    assert (existsb (rebinds t) cs = true); [|congruence].
    apply existsb_exists. eauto. }
  destruct (keeps_run_lib _ cs Hall _ _ _ HJ Hrun) as (_ & Ht' & w' & Ha' & Hv & Hh).
  exists w'. unfold worker_of. by rewrite Ht'.
Qed.

End RegistryRuns.

(** ** Binding a thread again *)

(** shadowtorpreload_init on a thread that is bound already, with the bridge
    up: the worker stays at its address and takes the new module and its
    table; the consensus counter goes on from where it was; the bridge
    counts the thread once more and leaves its array alone, whatever nLocks
    is. One shadowtorpreload_clear after it brings the bridge back to where
    it was: the thread is still counted for its first binding. *)
Theorem shadowtorpreload_init_rebind t h nLocks s a w k n :
  tls s !! t = Some a ->
  heap s !! a = Some w ->
  (forall name, In name mandatory_symbols -> present (g_module_symbol h name) = true) ->
  bridge_up (shadowtorpreloadGlobalState s) k n ->
  1 <= n < G_MAXINT ->
  exists s',
    shadowtorpreload_init t h nLocks s = Ok tt s' /\
    tls s' = tls s /\
    heap s' = <[a := {| handle := h; vtable := resolved_vtable h;
                        consensusCounter := consensusCounter w |}]> (heap s) /\
    bridge_up (shadowtorpreloadGlobalState s') k (n + 1) /\
    trace s' = trace s /\
    exists s'',
      shadowtorpreload_clear t s' = Ok tt s'' /\
      bridge_up (shadowtorpreloadGlobalState s'') k n /\
      trace s'' = trace s.
Proof.
  intros Ht Ha Hall (Hi & Hl & Hnum & Hn) Hrange.
  rewrite (shadowtorpreload_init_live _ _ _ _ _ _ Ht Ha).
  destruct (List.find _ mandatory_symbols) as [missing|] eqn:Hfind.
  { apply List.find_some in Hfind as [Hin Hmiss]. by rewrite (Hall _ Hin) in Hmiss. }
  rewrite cryptoSetup_again by done. cbn.
  rewrite Hn, wrap_gint_id by (unfold gint_range, G_MININT, G_MAXINT in *; lia).
  eexists. split; [reflexivity|]. cbn.
  split; [done|]. split; [done|]. split; [done|]. split; [done|].
  unfold shadowtorpreload_clear.
  erewrite cryptoTeardown_not_last; cbn; [|exact Hi|exact Hl|].
  - replace (n + 1 - 1) with n by lia.
    rewrite wrap_gint_id by (unfold gint_range, G_MININT, G_MAXINT in *; lia).
    eexists. split; [reflexivity|]. done.
  - replace (n + 1 - 1) with n by lia.
    rewrite wrap_gint_id by (unfold gint_range, G_MININT, G_MAXINT in *; lia). lia.
Qed.

(** ** The mode bits of the locking callback *)

Lemma has_bit_testbit mode k : 0 <= k -> has_bit mode (2 ^ k) = Z.testbit mode k.
Proof.
  intros Hk. unfold has_bit. destruct (Z.testbit mode k) eqn:Hb.
  - destruct (Z.eqb_spec (Z.land mode (2 ^ k)) 0) as [H0|]; [|done].
    assert (Z.testbit (Z.land mode (2 ^ k)) k = false) as Hf
      by (rewrite H0; apply Z.bits_0).
    by rewrite Z.land_spec, Hb, Z.pow2_bits_true in Hf.
  - destruct (Z.eqb_spec (Z.land mode (2 ^ k)) 0) as [|Hne]; [done|].
    destruct Hne. apply Z.bits_inj'. intros i Hi.
    rewrite Z.land_spec, Z.bits_0, Z.pow2_bits_eqb by done.
    destruct (Z.eqb_spec k i) as [<-|]; [by rewrite Hb|apply andb_false_r].
Qed.

(** The callback looks at four bits of the mode, and at nothing else of it.
    A mode with neither the lock nor the unlock bit, or with neither the
    read nor the write bit, makes no lock call at all, so that the index is
    not used. With the lock bit set the unlock bit is not looked at, and
    with the read bit set the write bit is not looked at. *)
Theorem cryptoLockingFunc_bits mode n s :
  (initialized (shadowtorpreloadGlobalState s) = true ->
   is_Some (cryptoThreadLocks (shadowtorpreloadGlobalState s)) ->
   (Z.testbit mode 0 = false /\ Z.testbit mode 1 = false) \/
   (Z.testbit mode 2 = false /\ Z.testbit mode 3 = false) ->
   _shadowtorpreload_cryptoLockingFunc mode n s = Ok tt s) /\
  (Z.testbit mode 0 = true -> Z.testbit mode 2 = true ->
   _shadowtorpreload_cryptoLockingFunc mode n s
   = _shadowtorpreload_cryptoLockingFunc (Z.lor CRYPTO_LOCK CRYPTO_READ) n s) /\
  (Z.testbit mode 0 = true -> Z.testbit mode 2 = false -> Z.testbit mode 3 = true ->
   _shadowtorpreload_cryptoLockingFunc mode n s
   = _shadowtorpreload_cryptoLockingFunc (Z.lor CRYPTO_LOCK CRYPTO_WRITE) n s) /\
  (Z.testbit mode 0 = false -> Z.testbit mode 1 = true -> Z.testbit mode 2 = true ->
   _shadowtorpreload_cryptoLockingFunc mode n s
   = _shadowtorpreload_cryptoLockingFunc (Z.lor CRYPTO_UNLOCK CRYPTO_READ) n s) /\
  (Z.testbit mode 0 = false -> Z.testbit mode 1 = true ->
   Z.testbit mode 2 = false -> Z.testbit mode 3 = true ->
   _shadowtorpreload_cryptoLockingFunc mode n s
   = _shadowtorpreload_cryptoLockingFunc (Z.lor CRYPTO_UNLOCK CRYPTO_WRITE) n s).
Proof.
  pose proof (has_bit_testbit mode 0 ltac:(lia)) as H0.
  pose proof (has_bit_testbit mode 1 ltac:(lia)) as H1.
  pose proof (has_bit_testbit mode 2 ltac:(lia)) as H2.
  pose proof (has_bit_testbit mode 3 ltac:(lia)) as H3.
  change (2 ^ 0) with CRYPTO_LOCK in H0. change (2 ^ 1) with CRYPTO_UNLOCK in H1.
  change (2 ^ 2) with CRYPTO_READ in H2. change (2 ^ 3) with CRYPTO_WRITE in H3.
  unfold _shadowtorpreload_cryptoLockingFunc. rewrite H0, H1, H2, H3.
  split; [|repeat split; intros; repeat match goal with H : Z.testbit _ _ = _ |- _ =>
                                          rewrite H; clear H end; reflexivity].
  intros Hi [l Hl] Hmode. rewrite bind_get_global, Hi.
  unfold c_assert, lock_ptr_is_null. rewrite Hl. rewrite !bind_skip.
  destruct Hmode as [[-> ->]|[-> ->]]; [done|].
  by destruct (Z.testbit mode 0), (Z.testbit mode 1).
Qed.

(** ** write_str_to_file: the counter *)

Lemma cryptoSetup_registry n s s' :
  _shadowtorpreload_cryptoSetup n s = Ok tt s' -> tls s' = tls s /\ heap s' = heap s.
Proof.
  intros H.
  apply (rk_cryptoSetup (fun x => tls x = tls s /\ heap x = heap s)) in H; [done| |done].
  intros x x' Ht Hh [? ?]. split; congruence.
Qed.

(** C7. A write to a path ending in cached-consensus first writes the
    string to the path extended by a dot and the thread's counter, printed
    with %03i (3 gives .003; below 1000 always three digits). If that write
    fails, a warning is logged. In both cases the thread's write_str_to_file
    delegate is then called with the original arguments and its result is
    returned. The worker's counter is one higher after the call, its handle
    and table are as before, and the thread's next write of such a path goes
    to the next number, which prints differently. The first such write of a
    thread that shadowtorpreload_init has just given its worker goes to
    .000. *)
Theorem write_str_to_file_snapshot t fname str bin s a w f :
  g_str_has_suffix fname "cached-consensus" = true ->
  tls s !! t = Some a ->
  heap s !! a = Some w ->
  write_str_to_file_fp (vtable w) = Some f ->
  0 <= consensusCounter w < G_MAXINT ->
  let c := consensusCounter w in
  let newPath := (fname +:+ "." +:+ printf_03i c)%string in
  let aux := g_file_set_contents newPath str (world s) in
  let args := [VStr (Some fname); VStr (Some str); VInt bin] in
  let primary := f args aux.2 in
  let s' := {| tls := tls s;
               heap := <[a := {| handle := handle w; vtable := vtable w;
                                 consensusCounter := c + 1 |}]> (heap s);
               shadowtorpreloadGlobalState := shadowtorpreloadGlobalState s;
               world := primary.2;
               trace := trace s
                        ++ EvFileSetContents newPath str aux.1
                        :: (if aux.1 then [] else [EvLogWarn newPath])
                        ++ [EvDelegate "write_str_to_file" args] |} in
  write_str_to_file t fname str bin s = Ok primary.1 s' /\
  (exists w',
     worker_of s' t = Some w' /\ consensusCounter w' = c + 1 /\
     handle w' = handle w /\ vtable w' = vtable w) /\
  (c + 1 < G_MAXINT ->
   forall fname2 str2 bin2,
     g_str_has_suffix fname2 "cached-consensus" = true ->
     exists r2 s2,
       write_str_to_file t fname2 str2 bin2 s' = Ok r2 s2 /\
       side_paths (trace s2)
       = side_paths (trace s') ++ [(fname2 +:+ "." +:+ printf_03i (c + 1))%string] /\
       printf_03i (c + 1) <> printf_03i c) /\
  (forall s0 h nLocks s1,
     tls s0 !! t = None ->
     shadowtorpreload_init t h nLocks s0 = Ok tt s1 ->
     exists r1 s2,
       write_str_to_file t fname str bin s1 = Ok r1 s2 /\
       side_paths (trace s2) = side_paths (trace s1) ++ [(fname +:+ ".000")%string]) /\
  printf_03i 3 = "003"%string /\
  (c < 1000 -> String.length (printf_03i c) = 3%nat) /\
  (3 <= String.length (printf_03i c))%nat /\
  consensusCounter zero_worker = 0.
Proof.
  intros Hsuf Ht Ha Hf Hc c newPath aux args primary s'.
  assert (Hside : forall p q (ok : bool) tail,
            side_paths (EvFileSetContents p q ok
                        :: (if ok then [] else [EvLogWarn p])
                        ++ [EvDelegate "write_str_to_file" tail]) = [p]).
  { intros p q [] tail; reflexivity. }
  split; [exact (write_str_to_file_canonical _ _ _ _ _ _ _ _ Hsuf Ht Ha Hf Hc)|].
  split.
  { unfold worker_of. cbn [tls heap s']. rewrite Ht, lookup_insert_eq.
    eexists. split; [reflexivity|]. done. }
  split.
  { intros Hc1 fname2 str2 bin2 Hsuf2.
    pose proof (write_str_to_file_canonical t fname2 str2 bin2 s' a
                  {| handle := handle w; vtable := vtable w; consensusCounter := c + 1 |}
                  f Hsuf2 Ht (lookup_insert_eq _ _ _) Hf) as Hnext.
    cbn [consensusCounter] in Hnext. specialize (Hnext ltac:(lia)). cbn zeta in Hnext.
    eexists _, _. split; [exact Hnext|]. split.
    - cbn [trace]. by rewrite side_paths_app, Hside.
    - intros Heq. apply printf_03i_inj in Heq; lia. }
  split.
  { intros s0 h nLocks s1 Hnone Hinit.
    pose proof (getWorker_new t s0 Hnone) as Hget. cbn zeta in Hget.
    set (a0 := g_new0_PreloadWorker (dom (heap s0))) in *.
    match type of Hget with _ = Ok _ ?x => set (s0' := x) in * end.
    assert (Ht0 : tls s0' !! t = Some a0) by apply lookup_insert_eq.
    assert (Ha0 : heap s0' !! a0 = Some zero_worker) by apply lookup_insert_eq.
    rewrite (shadowtorpreload_init_getWorker _ _ _ _ _ _ Hget Ht0) in Hinit.
    rewrite (shadowtorpreload_init_live _ _ _ _ _ _ Ht0 Ha0) in Hinit.
    destruct (List.find _ mandatory_symbols) as [missing|] eqn:Hfind; [done|].
    apply cryptoSetup_registry in Hinit as [Htls Hheap]. cbn [tls heap with_heap] in Htls, Hheap.
    destruct (g_module_symbol h "write_str_to_file") as [f1|] eqn:Hf1.
    2:{ eapply List.find_none in Hfind; [|right; left; reflexivity].
        by rewrite Hf1 in Hfind. }
    pose proof (write_str_to_file_canonical t fname str bin s1 a0
                  {| handle := h; vtable := resolved_vtable h;
                     consensusCounter := consensusCounter zero_worker |} f1 Hsuf) as Hfirst.
    rewrite Htls, Hheap in Hfirst.
    specialize (Hfirst Ht0 (lookup_insert_eq _ _ _) Hf1).
    cbn [consensusCounter zero_worker] in Hfirst.
    specialize (Hfirst ltac:(unfold G_MAXINT; lia)). cbn zeta in Hfirst.
    change (printf_03i 0) with "000"%string in Hfirst.
    eexists _, _. split; [exact Hfirst|].
    cbn [trace]. by rewrite side_paths_app, Hside. }
  split; [reflexivity|]. split; [intros; apply printf_03i_small; lia|].
  split; [|reflexivity].
  unfold printf_03i. destruct (Z.ltb_spec c 0); [lia|].
  rewrite length_zero_pad. lia.
Qed.

End Properties.

(** * The properties on concrete inputs *)

Lemma demo_ok : ExternalsOk demo.
Proof. split. intros live. apply is_fresh. Qed.

(** C1 on a run by the bound thread 1: init, cleanup, init. The first init
    returns the delegate's 7, the second returns 0. *)
Lemma crypto_global_init_once_witness :
  exists s1,
    run_calls [GlobalInit 1%nat 0 None None; GlobalCleanup 1%nat;
               GlobalInit 1%nat 0 None None] demo_bound
    = Ok [7; 9; 0] s1 /\
    delegate_calls "crypto_global_init" (trace s1) = 1%nat.
Proof.
  destruct (crypto_global_init_once demo_bound
              [GlobalInit 1%nat 0 None None; GlobalCleanup 1%nat;
               GlobalInit 1%nat 0 None None])
    as (rs & s1 & Hrun & Hcalls & _).
  - reflexivity.
  - reflexivity.
  - vm_compute. reflexivity.
  - vm_compute. discriminate.
  - exists s1. split.
    + rewrite Hrun. f_equal.
      assert (Hrs : match run_calls [GlobalInit 1%nat 0 None None; GlobalCleanup 1%nat;
                                     GlobalInit 1%nat 0 None None] demo_bound with
                    | Ok rs _ => rs
                    | _ => []
                    end = [7; 9; 0]) by (vm_compute; reflexivity).
      by rewrite Hrun in Hrs.
    + by rewrite (Hcalls "crypto_global_init" (or_intror eq_refl)).
Defined.

(** C2: at the start of the process the node count is 0; a cleanup call
    there returns 0 and leaves the count at -1. It does not abort. *)
Lemma crypto_global_cleanup_unbalanced_counterexample :
  nTorCryptoNodes (shadowtorpreloadGlobalState demo_start) = 0 /\
  (exists s',
     crypto_global_cleanup 1%nat demo_start = Ok 0 s' /\
     nTorCryptoNodes (shadowtorpreloadGlobalState s') = -1 /\
     trace s' = trace demo_start) /\
  forall d, crypto_global_cleanup 1%nat demo_start <> Fatal d.
Proof.
  split; [reflexivity|]. split.
  - eexists. split; [reflexivity|]. split; reflexivity.
  - intros d. discriminate.
Qed.

Lemma crypto_global_cleanup_below_zero_witness :
  crypto_global_cleanup 1%nat demo_start
  = Ok 0 (with_global
            (set_nTorCryptoNodes (-1) (shadowtorpreloadGlobalState demo_start))
            demo_start).
Proof. apply (crypto_global_cleanup_below_zero 1%nat demo_start). reflexivity. Defined.

(** C3: the bridge of [demo_bound] is initialised and has two locks; a
    lock/read call with index 7 passes both assertions and then uses a lock
    outside the array. It does not abort on a failed assertion. *)
Lemma cryptoLockingFunc_out_of_range_counterexample :
  initialized (shadowtorpreloadGlobalState demo_bound) = true /\
  cryptoThreadLocks (shadowtorpreloadGlobalState demo_bound)
    = Some [LockReady; LockReady] /\
  numCryptoThreadLocks (shadowtorpreloadGlobalState demo_bound) = 2 /\
  _shadowtorpreload_cryptoLockingFunc (Z.lor CRYPTO_LOCK CRYPTO_READ) 7 demo_bound
    = Undef (OutOfBounds 7) /\
  _shadowtorpreload_cryptoLockingFunc (Z.lor CRYPTO_LOCK CRYPTO_READ) (-1) demo_bound
    = Undef (OutOfBounds (-1)).
Proof. repeat split; vm_compute; reflexivity. Qed.

Lemma cryptoLockingFunc_modes_witness :
  _shadowtorpreload_cryptoLockingFunc (Z.lor CRYPTO_LOCK CRYPTO_WRITE) 1 demo_bound
  = Ok tt (with_trace (trace demo_bound ++ [EvRW WriterLock 1]) demo_bound) /\
  _shadowtorpreload_cryptoLockingFunc (Z.lor CRYPTO_LOCK CRYPTO_WRITE) 1 demo_start
  = Fatal AssertInitialized.
Proof.
  split.
  - apply (proj2 (cryptoLockingFunc_modes (Z.lor CRYPTO_LOCK CRYPTO_WRITE) 1 demo_bound)
             [LockReady; LockReady] WriterLock).
    + reflexivity.
    + reflexivity.
    + reflexivity.
    + vm_compute. split; [discriminate|reflexivity].
    + right. left. split; reflexivity.
  - apply (proj1 (cryptoLockingFunc_modes (Z.lor CRYPTO_LOCK CRYPTO_WRITE) 1 demo_start)).
    reflexivity.
Defined.

(** C4: thread 1 of [demo_old_bound] has crypto_seed_rng resolved, to a
    delegate that reports failure, but not crypto_early_init. With the early
    latch closed, crypto_early_init calls nothing and returns 0. *)
Lemma crypto_early_init_reseed_counterexample :
  sslInitializedEarly (shadowtorpreloadGlobalState demo_old_bound) = true /\
  worker_of demo_old_bound 1%nat = Some demo_old_worker /\
  crypto_early_init_fp (vtable demo_old_worker) = None /\
  crypto_seed_rng_fp (vtable demo_old_worker) = Some (demo_fn (-1)) /\
  crypto_early_init 1%nat demo_old_bound = Ok 0 demo_old_bound.
Proof. repeat split; vm_compute; reflexivity. Qed.

Lemma crypto_early_init_reseed_witness :
  crypto_early_init 1%nat demo_old_bound = Ok 0 demo_old_bound /\
  exists s', crypto_early_init 1%nat demo_early_done = Ok (-1) s' /\
             trace s' = trace demo_early_done
                        ++ [EvDelegate "crypto_seed_rng" [VInt 1];
                            EvDelegate "crypto_init_siphash_key" []].
Proof.
  split.
  - apply (proj1 (crypto_early_init_reseed 1%nat demo_old_bound 1%positive demo_old_worker
                    eq_refl eq_refl eq_refl)).
    reflexivity.
  - eexists. split.
    + apply (proj2 (crypto_early_init_reseed 1%nat demo_early_done 1%positive demo_worker
                      eq_refl eq_refl eq_refl) (demo_fn 0) (demo_fn (-1)) (demo_fn 0));
        reflexivity.
    + reflexivity.
Defined.

(** C5: one setup with a lock count of 0, then one teardown. After the
    setup a thread is counted but there is no array; the teardown frees
    nothing and leaves the thread counted and the bridge initialised. *)
Lemma lock_array_zero_locks_counterexample :
  (exists s1,
     run_bridge [Setup 0] demo_start = Ok tt s1 /\
     nThreads (shadowtorpreloadGlobalState s1) = 1 /\
     cryptoThreadLocks (shadowtorpreloadGlobalState s1) = None) /\
  (exists s2,
     run_bridge [Setup 0; Teardown] demo_start = Ok tt s2 /\
     nThreads (shadowtorpreloadGlobalState s2) = 1 /\
     initialized (shadowtorpreloadGlobalState s2) = true /\
     lock_frees (trace s2) = 0%nat).
Proof. split; eexists; repeat split; vm_compute; reflexivity. Qed.

Lemma lock_array_lifecycle_witness :
  exists s,
    run_bridge ([Setup 16; Setup 16] ++ [Teardown; Teardown]) demo_start = Ok tt s /\
    bridge_down (shadowtorpreloadGlobalState s) /\
    lock_allocs (trace s) = 1%nat /\ lock_frees (trace s) = 1%nat.
Proof.
  destruct (lock_array_lifecycle demo_start 16 [16]) as (_ & _ & s & Hrun & Hdown & Ha & Hf & _).
  - reflexivity.
  - reflexivity.
  - lia.
  - vm_compute. discriminate.
  - exists s. split; [exact Hrun|]. split; [exact Hdown|]. split; [exact Ha|exact Hf].
Defined.

(** C6 on [demo_one_node], where the node count is 1. *)
Lemma crypto_global_cleanup_refcount_witness :
  exists s',
    crypto_global_cleanup 1%nat demo_one_node = Ok 9 s' /\
    nTorCryptoNodes (shadowtorpreloadGlobalState s') = 0.
Proof.
  destruct (crypto_global_cleanup_refcount 1%nat demo_one_node 1%positive demo_worker (demo_fn 9))
    as (r & s' & Hrun & Hn & Hlast & _).
  - reflexivity.
  - reflexivity.
  - reflexivity.
  - vm_compute. split; discriminate.
  - exists s'. destruct (Hlast eq_refl) as (-> & _). split; [exact Hrun|].
    rewrite Hn. reflexivity.
Defined.

(** C7 on [demo_bound], the state in which shadowtorpreload_init has just
    given thread 1 its worker: the side write goes to the path ending in
    .000 and fails, the delegate's 5 is returned, the counter is 1 after
    the call, and the next write goes to the path ending in .001. *)
Lemma write_str_to_file_snapshot_witness :
  exists s',
    write_str_to_file 1%nat "data/cached-consensus" "X" 0 demo_bound = Ok 5 s' /\
    trace s' = trace demo_bound
               ++ [EvFileSetContents "data/cached-consensus.000" "X" false;
                   EvLogWarn "data/cached-consensus.000";
                   EvDelegate "write_str_to_file"
                     [VStr (Some "data/cached-consensus"%string);
                      VStr (Some "X"%string); VInt 0]] /\
    (exists w', worker_of s' 1%nat = Some w' /\ consensusCounter w' = 1) /\
    (exists r2 s2,
       write_str_to_file 1%nat "data/cached-consensus" "Y" 0 s' = Ok r2 s2 /\
       side_paths (trace s2)
       = ["data/cached-consensus.000"; "data/cached-consensus.001"]%string) /\
    (exists r1 s1,
       write_str_to_file 1%nat "data/cached-consensus" "X" 0 demo_bound = Ok r1 s1 /\
       side_paths (trace s1)
       = side_paths (trace demo_bound) ++ ["data/cached-consensus.000"%string]).
Proof.
  destruct (write_str_to_file_snapshot 1%nat "data/cached-consensus" "X" 0 demo_bound
              1%positive demo_worker (demo_fn 5))
    as (Hrun & (w' & Hw' & Hc' & _) & Hnext & Hfirst & _).
  - reflexivity.
  - reflexivity.
  - reflexivity.
  - reflexivity.
  - vm_compute. split; [discriminate|reflexivity].
  - eexists. split; [exact Hrun|]. split; [reflexivity|].
    split; [exists w'; split; [exact Hw'|exact Hc']|]. split.
    + destruct (Hnext ltac:(vm_compute; reflexivity) "data/cached-consensus"%string
                  "Y"%string 0 eq_refl) as (r2 & s2 & Hrun2 & Hpaths & _).
      exists r2, s2. split; [exact Hrun2|]. rewrite Hpaths. vm_compute. reflexivity.
    + apply (Hfirst demo_start (Some demo_tor) 2 demo_bound).
      * reflexivity.
      * vm_compute. reflexivity.
Defined.

(** C8 at the start of a process: the older Tor has all mandatory symbols,
    so binding succeeds and the two missing optional entries are NULL; a
    NULL module has no symbol at all, and binding aborts naming one. *)
Lemma shadowtorpreload_init_symbols_witness :
  (exists s' w,
     shadowtorpreload_init 1%nat (Some demo_old_tor) 2 demo_start = Ok tt s' /\
     worker_of s' 1%nat = Some w /\
     crypto_early_init_fp (vtable w) = None /\
     crypto_init_siphash_key_fp (vtable w) = None) /\
  (exists missing,
     In missing mandatory_symbols /\
     shadowtorpreload_init 1%nat None 2 demo_start = Fatal (AssertSymbol missing)).
Proof.
  split.
  - destruct (proj2 (shadowtorpreload_init_symbols 1%nat (Some demo_old_tor) 2 demo_start eq_refl))
      as (s' & w & Hrun & Hw & _ & He & _ & Hs).
    + intros name Hin. cbn in Hin.
      destruct Hin as [<-|[<-|[<-|[<-|[<-|[]]]]]]; reflexivity.
    + lia.
    + exists s', w. split; [exact Hrun|]. split; [exact Hw|]. split; [exact He|exact Hs].
  - destruct (proj1 (shadowtorpreload_init_symbols 1%nat None 2 demo_start eq_refl)
                "spawn_func"%string)
      as (missing & Hin & _ & Hrun).
    + left. reflexivity.
    + reflexivity.
    + exists missing. split; [exact Hin|exact Hrun].
Defined.

(** C9 from [demo_bound], which the process reaches by binding thread 1:
    thread 2 gets an id different from that of thread 1. *)
Lemma getIDFunc_stable_unique_witness :
  exists id1 id2 s2,
    _shadowtorpreload_getIDFunc 1%nat demo_bound = Ok id1 demo_bound /\
    _shadowtorpreload_getIDFunc 2%nat demo_bound = Ok id2 s2 /\
    id2 <> id1.
Proof.
  destruct (getIDFunc_stable_unique (EOk := demo_ok) 0%nat
              [CallInit 1%nat (Some demo_tor) 2] demo_bound) as (_ & _ & Hdistinct).
  - vm_compute. reflexivity.
  - assert (H1 : _shadowtorpreload_getIDFunc 1%nat demo_bound = Ok 1 demo_bound)
      by (vm_compute; reflexivity).
    assert (H2 : _shadowtorpreload_getIDFunc 2%nat demo_bound
                 = Ok 2 (state_after (_shadowtorpreload_getIDFunc 2%nat) demo_bound))
      by (vm_compute; reflexivity).
    exists 1, 2, (state_after (_shadowtorpreload_getIDFunc 2%nat) demo_bound).
    split; [exact H1|]. split; [exact H2|].
    exact (Hdistinct 1%nat 2%nat [] 1 demo_bound demo_bound 2 _
             (fun H => Nat.neq_succ_diag_l 1%nat (eq_sym H)) H1 eq_refl eq_refl H2).
Defined.


(** The stand-ins on [demo_libc]: five bytes from two rand() values,
    0x01020304 and 0x02040608. *)
Lemma getRandomBytes_fills_witness :
  _shadowtorpreload_getRandomBytes (L := demo_libc) [9; 9; 9; 9; 9; 9] 5 demo_start
  = Ok (Some (1, [4; 3; 2; 1; 8; 9])) (@with_world demo 2%nat demo_start).
Proof.
  etrans.
  - apply (getRandomBytes_fills (L := demo_libc) [9; 9; 9; 9; 9; 9] 5 demo_start).
    vm_compute. split; discriminate.
  - vm_compute. reflexivity.
Defined.

Lemma getRandomBytes_nothing_witness :
  _shadowtorpreload_getRandomBytes (L := demo_libc) [9; 9] (-3) demo_start
  = Ok (Some (1, [9; 9])) demo_start.
Proof.
  apply (getRandomBytes_nothing (L := demo_libc) [9; 9] (-3) demo_start). lia.
Defined.

Lemma demo_rand_range (w : @World demo) : 0 <= (rand (Libc := demo_libc) w).1 <= 2147483647.
Proof.
  cbn [rand demo_libc fst].
  pose proof (Z.mod_pos_bound (16909060 * (1 + Z.of_nat w)) 2147483648). lia.
Qed.

(** Four bytes from 0x01020304: the fourth byte written is 1. *)
Lemma getRandomBytes_top_bit_witness :
  _shadowtorpreload_getRandomBytes (L := demo_libc) [9; 9; 9; 9; 9] 4 demo_start
  = Ok (Some (1, [4; 3; 2; 1; 9])) (@with_world demo 1%nat demo_start) /\
  0 <= 1 <= 255 /\ 1 <= 127.
Proof.
  assert (Hrun : _shadowtorpreload_getRandomBytes (L := demo_libc) [9; 9; 9; 9; 9] 4 demo_start
                 = Ok (Some (1, [4; 3; 2; 1; 9])) (@with_world demo 1%nat demo_start))
    by (vm_compute; reflexivity).
  split; [exact Hrun|].
  destruct (getRandomBytes_top_bit (L := demo_libc) [9; 9; 9; 9; 9] 4 demo_start 1
              [4; 3; 2; 1; 9] (@with_world demo 1%nat demo_start) demo_rand_range) with (i := 3%nat) (b := 1)
    as [Hb Htop].
  - vm_compute. split; discriminate.
  - exact Hrun.
  - vm_compute. lia.
  - reflexivity.
  - split; [exact Hb|]. apply Htop. reflexivity.
Defined.

(** A write of another file by the bound thread 1 goes to the delegate only. *)
Lemma write_str_to_file_plain_witness :
  write_str_to_file 1%nat "data/state" "X" 0 demo_bound
  = Ok 5 (with_trace
            (trace demo_bound
             ++ [EvDelegate "write_str_to_file"
                   [VStr (Some "data/state"%string); VStr (Some "X"%string); VInt 0]])
            (@with_world demo (S (world demo_bound)) demo_bound)).
Proof.
  apply (write_str_to_file_plain 1%nat "data/state" "X" 0 demo_bound 1%positive
           demo_worker (demo_fn 5)); reflexivity.
Defined.

(** At the start of the process no thread is bound. *)
Lemma write_str_to_file_unbound_witness :
  write_str_to_file 1%nat "data/cached-consensus" "X" 0 demo_start
  = Undef (NullCall "write_str_to_file").
Proof.
  apply (write_str_to_file_unbound 1%nat "data/cached-consensus" "X" 0 demo_start).
  reflexivity.
Defined.

Lemma printf_03i_scan_witness :
  printf_03i 42 = "042"%string /\ scan_decimal (printf_03i 42) = Some 42%N.
Proof.
  split; [reflexivity|].
  apply (proj1 (printf_03i_scan 42 ltac:(lia))).
Defined.

(** Three consensus writes by thread 1 of [demo_bound]. *)
Lemma write_many_side_paths_witness :
  exists s',
    write_many 1%nat "data/cached-consensus" "X" 0 3 demo_bound = Ok tt s' /\
    side_paths (trace s')
    = ["data/cached-consensus.000"; "data/cached-consensus.001";
       "data/cached-consensus.002"]%string /\
    worker_of s' 1%nat = Some (set_consensusCounter 3 demo_worker).
Proof.
  destruct (write_many_side_paths 1%nat "data/cached-consensus" "X" 0 3 demo_bound
              1%positive demo_worker (demo_fn 5))
    as (s' & Hrun & Hpaths & _ & Hw).
  - reflexivity.
  - reflexivity.
  - reflexivity.
  - reflexivity.
  - vm_compute. discriminate.
  - vm_compute. discriminate.
  - exists s'. split; [exact Hrun|]. split; [|exact Hw].
    rewrite Hpaths. vm_compute. reflexivity.
Defined.

(** Init, cleanup, cleanup, init, cleanup from a count of 0: the count goes
    1, 0, -1, 0, -1, and only the first cleanup reaches 0. *)
Lemma crypto_global_cleanup_calls_witness :
  exists rs s1,
    run_calls [GlobalInit 1%nat 0 None None; GlobalCleanup 1%nat; GlobalCleanup 1%nat;
               GlobalInit 1%nat 0 None None; GlobalCleanup 1%nat] demo_bound
    = Ok rs s1 /\
    nTorCryptoNodes (shadowtorpreloadGlobalState s1) = -1 /\
    delegate_calls "crypto_global_cleanup" (trace s1) = 1%nat.
Proof.
  destruct (crypto_global_cleanup_calls demo_bound
              [GlobalInit 1%nat 0 None None; GlobalCleanup 1%nat; GlobalCleanup 1%nat;
               GlobalInit 1%nat 0 None None; GlobalCleanup 1%nat])
    as (rs & s1 & Hrun & Hn & Hcalls).
  - vm_compute. reflexivity.
  - vm_compute. discriminate.
  - exists rs, s1. split; [exact Hrun|]. split.
    + rewrite Hn. reflexivity.
    + rewrite Hcalls. vm_compute. reflexivity.
Defined.

Lemma crypto_global_cleanup_balanced_witness :
  exists rs s1,
    run_calls ([GlobalInit 1%nat 0 None None; GlobalInit 1%nat 0 None None]
               ++ [GlobalCleanup 1%nat; GlobalCleanup 1%nat]) demo_bound
    = Ok rs s1 /\
    nTorCryptoNodes (shadowtorpreloadGlobalState s1) = 0 /\
    delegate_calls "crypto_global_cleanup" (trace s1) = 1%nat.
Proof.
  destruct (crypto_global_cleanup_balanced demo_bound
              [GlobalInit 1%nat 0 None None; GlobalInit 1%nat 0 None None]
              [GlobalCleanup 1%nat; GlobalCleanup 1%nat])
    as (rs & s1 & Hrun & Hn & Hcalls).
  - reflexivity.
  - reflexivity.
  - reflexivity.
  - reflexivity.
  - discriminate.
  - vm_compute. reflexivity.
  - vm_compute. discriminate.
  - exists rs, s1. split; [exact Hrun|]. split; [exact Hn|].
    rewrite Hcalls. vm_compute. reflexivity.
Defined.

(** The first init call of the process, by a thread that is not bound. *)
Lemma crypto_global_init_unbound_first_witness :
  exists s',
    crypto_global_init 1%nat 0 None None demo_start = Ok 0 s' /\
    sslInitializedGlobal (shadowtorpreloadGlobalState s') = true /\
    trace s' = trace demo_start.
Proof.
  destruct (crypto_global_init_unbound_first 1%nat 0 None None demo_start)
    as (s' & Hrun & Hlatch & Htrace & _).
  - reflexivity.
  - reflexivity.
  - exists s'. split; [exact Hrun|]. split; [exact Hlatch|exact Htrace].
Defined.

(** Three early-init calls by thread 1 of [demo_bound]. *)
Lemma crypto_early_init_once_witness :
  exists rs s1,
    run_early [1%nat; 1%nat; 1%nat] demo_bound = Ok rs s1 /\
    delegate_calls "crypto_early_init" (trace s1) = 1%nat /\
    delegate_calls "crypto_seed_rng" (trace s1) = 2%nat.
Proof.
  destruct (crypto_early_init_once demo_bound 1%nat [1%nat; 1%nat])
    as (rs & s1 & Hrun & _ & Hfirst & Hlater).
  - reflexivity.
  - vm_compute. reflexivity.
  - exists rs, s1. split; [exact Hrun|]. split.
    + rewrite Hfirst. vm_compute. reflexivity.
    + rewrite (Hlater "crypto_seed_rng"%string (or_introl eq_refl)).
      vm_compute. reflexivity.
Defined.

(** Setup, teardown, a teardown too many, setup. *)
Lemma lock_array_balanced_witness :
  exists s,
    run_bridge [Setup 2; Teardown; Teardown; Setup 3] demo_start = Ok tt s /\
    bridge_balanced 0 0 s.
Proof.
  destruct (lock_array_balanced demo_start [Setup 2; Teardown; Teardown; Setup 3])
    as (_ & s & Hrun & Hbal).
  - repeat split.
  - reflexivity.
  - vm_compute. discriminate.
  - exists s. split; [exact Hrun|exact Hbal].
Defined.

(** [demo_bound] has two locks; a second setup asks for eight, and index 5
    is outside the array all the same. *)
Lemma cryptoSetup_count_ignored_witness :
  exists s',
    _shadowtorpreload_cryptoSetup 8 demo_bound = Ok tt s' /\
    bridge_up (shadowtorpreloadGlobalState s') 2 2 /\
    _shadowtorpreload_cryptoLockingFunc (Z.lor CRYPTO_LOCK CRYPTO_READ) 5 s'
    = Undef (OutOfBounds 5).
Proof.
  destruct (cryptoSetup_count_ignored 2 1 8 demo_bound)
    as (s' & Hrun & Hup & _ & Hout).
  - repeat split.
  - lia.
  - vm_compute. split; [discriminate|reflexivity].
  - exists s'. split; [exact Hrun|]. split; [exact Hup|].
    apply Hout; [lia|]. left. reflexivity.
Defined.

(** crypto_global_init on [demo_bound] leads to [demo_one_node]. *)
Lemma lib_step_footprint_witness :
  within (footprint_of (E := demo) (CallGlobalInit 1%nat 0 None None))
    (shadowtorpreloadGlobalState demo_bound) (shadowtorpreloadGlobalState demo_one_node).
Proof.
  apply (lib_step_footprint (CallGlobalInit 1%nat 0 None None) demo_bound demo_one_node).
  vm_compute. reflexivity.
Defined.

(** After the first early init, a run with a global init, an unbind and a
    new binding leaves the early latch closed. *)
Lemma latches_stay_closed_witness :
  sslInitializedEarly
    (shadowtorpreloadGlobalState
       (state_after (run_lib [CallGlobalInit 1%nat 0 None None; CallClear 1%nat;
                              CallInit 2%nat (Some demo_old_tor) 4]) demo_early_done))
  = true.
Proof.
  apply (proj1 (latches_stay_closed
                  [CallGlobalInit 1%nat 0 None None; CallClear 1%nat;
                   CallInit 2%nat (Some demo_old_tor) 4]
                  demo_early_done
                  (state_after (run_lib [CallGlobalInit 1%nat 0 None None; CallClear 1%nat;
                                         CallInit 2%nat (Some demo_old_tor) 4])
                     demo_early_done)
                  ltac:(vm_compute; reflexivity))).
  reflexivity.
Defined.

(** Thread 1 binds, thread 2 asks for its id, thread 1 ends: the one block
    left is the worker of a thread. *)
Lemma registry_exact_witness :
  is_Some (heap (state_after (run_lib [CallInit 1%nat (Some demo_tor) 2; CallGetID 2%nat;
                                       ThreadExit 1%nat]) demo_start) !! 2%positive) /\
  exists t,
    tls (state_after (run_lib [CallInit 1%nat (Some demo_tor) 2; CallGetID 2%nat;
                               ThreadExit 1%nat]) demo_start) !! t = Some 2%positive.
Proof.
  assert (Hlive : is_Some (heap (state_after (run_lib [CallInit 1%nat (Some demo_tor) 2;
                                                       CallGetID 2%nat; ThreadExit 1%nat])
                                   demo_start) !! 2%positive)).
  { vm_compute. eauto. }
  split; [exact Hlive|].
  apply (proj2 (proj2 (registry_exact (EOk := demo_ok) 0%nat
                         [CallInit 1%nat (Some demo_tor) 2; CallGetID 2%nat; ThreadExit 1%nat]
                         _ ltac:(vm_compute; reflexivity)))).
  exact Hlive.
Defined.

(** Thread 2 binds, writes a consensus, initialises and ends; the worker of
    thread 1 is as it was. *)
Lemma worker_isolated_witness :
  tls (state_after (run_lib [CallInit 2%nat (Some demo_old_tor) 4;
                             CallWriteStr 2%nat "cached-consensus" "X" 0;
                             CallGlobalInit 2%nat 0 None None; ThreadExit 2%nat])
         demo_bound) !! 1%nat = Some 1%positive /\
  heap (state_after (run_lib [CallInit 2%nat (Some demo_old_tor) 4;
                              CallWriteStr 2%nat "cached-consensus" "X" 0;
                              CallGlobalInit 2%nat 0 None None; ThreadExit 2%nat])
          demo_bound) !! 1%positive = Some demo_worker.
Proof.
  apply (worker_isolated (EOk := demo_ok) 0%nat [CallInit 1%nat (Some demo_tor) 2]
           demo_bound 1%nat 1%positive demo_worker
           [CallInit 2%nat (Some demo_old_tor) 4;
            CallWriteStr 2%nat "cached-consensus" "X" 0;
            CallGlobalInit 2%nat 0 None None; ThreadExit 2%nat]).
  - vm_compute. reflexivity.
  - reflexivity.
  - reflexivity.
  - reflexivity.
  - vm_compute. reflexivity.
Defined.

(** Thread 1 writes a consensus and unbinds, thread 2 binds to another Tor:
    thread 1 still has the table of [demo_tor]. *)
Lemma vtable_stable_witness :
  exists w',
    worker_of (state_after (run_lib [CallWriteStr 1%nat "cached-consensus" "X" 0;
                                     CallInit 2%nat (Some demo_old_tor) 4;
                                     CallClear 1%nat]) demo_bound) 1%nat = Some w' /\
    vtable w' = vtable demo_worker /\ handle w' = handle demo_worker.
Proof.
  apply (vtable_stable (EOk := demo_ok) 0%nat [CallInit 1%nat (Some demo_tor) 2]
           demo_bound 1%nat 1%positive demo_worker
           [CallWriteStr 1%nat "cached-consensus" "X" 0;
            CallInit 2%nat (Some demo_old_tor) 4; CallClear 1%nat]).
  - vm_compute. reflexivity.
  - reflexivity.
  - reflexivity.
  - reflexivity.
  - vm_compute. reflexivity.
Defined.


(** Thread 1 of [demo_bound] binds again, to the older Tor and asking for
    eight locks. *)
Lemma shadowtorpreload_init_rebind_witness :
  exists s',
    shadowtorpreload_init 1%nat (Some demo_old_tor) 8 demo_bound = Ok tt s' /\
    heap s' = <[1%positive := demo_old_worker]> (heap demo_bound) /\
    bridge_up (shadowtorpreloadGlobalState s') 2 2.
Proof.
  destruct (shadowtorpreload_init_rebind 1%nat (Some demo_old_tor) 8 demo_bound
              1%positive demo_worker 2 1)
    as (s' & Hrun & _ & Hheap & Hup & _).
  - reflexivity.
  - reflexivity.
  - intros name Hin. cbn in Hin.
    destruct Hin as [<-|[<-|[<-|[<-|[<-|[]]]]]]; reflexivity.
  - repeat split.
  - vm_compute. split; [discriminate|reflexivity].
  - exists s'. split; [exact Hrun|]. split; [exact Hheap|exact Hup].
Defined.

(** Mode 0 and mode CRYPTO_LOCK alone, with an index outside the array of
    [demo_bound]; all four bits together act as lock/read. *)
Lemma cryptoLockingFunc_bits_witness :
  _shadowtorpreload_cryptoLockingFunc 0 7 demo_bound = Ok tt demo_bound /\
  _shadowtorpreload_cryptoLockingFunc CRYPTO_LOCK 7 demo_bound = Ok tt demo_bound /\
  _shadowtorpreload_cryptoLockingFunc 15 1 demo_bound
  = _shadowtorpreload_cryptoLockingFunc (Z.lor CRYPTO_LOCK CRYPTO_READ) 1 demo_bound.
Proof.
  split; [|split].
  - apply (proj1 (cryptoLockingFunc_bits 0 7 demo_bound)).
    + reflexivity.
    + vm_compute. eauto.
    + left. split; reflexivity.
  - apply (proj1 (cryptoLockingFunc_bits CRYPTO_LOCK 7 demo_bound)).
    + reflexivity.
    + vm_compute. eauto.
    + right. split; reflexivity.
  - apply (proj1 (proj2 (cryptoLockingFunc_bits 15 1 demo_bound))); reflexivity.
Defined.
